(** * Emergency dispatch and assignment engine

    A shallow embedding of the dispatch core of the backend:
    - [database/migrations/001_initial_schema.sql]  (the relations and the
      [emergency_status] type),
    - [services/hospital.service.ts]   ([acceptEmergencyRequest],
      [assignDriverToEmergency]; [getPendingEmergencyRequests],
      [getActiveEmergencyRequests], [getHospitalDrivers], [approveDriver]),
    - [services/driver.service.ts]     ([updateAvailabilityStatus],
      [updateAssignmentStatus]; [getCurrentAssignment],
      [getAssignmentHistory]),
    - [services/emergency.service.ts]  ([findNearbyHospitals],
      [createEmergencyRequest]; [getEmergencyRequestStatus],
      [getUserEmergencyHistory], [getEmergencyLocationById]),
    - [controllers/emergency.controller.ts]  ([getNearbyHospitals],
      [getEmergencyHistory]),
    - [middleware/errorHandler.ts]     ([ApiError], [errorHandler]).

    Every [await client.query(text, params)] of the services is one [Await]
    node of a program; a program is run against a store either alone, inside
    [BEGIN] ... [COMMIT]/[ROLLBACK], or interleaved with other open
    transactions, statement by statement.  A statement carries the columns
    and the status labels that its text names, and a store refuses a
    statement that names a column or a label which its schema does not
    declare; the schema of the repository is [migration_001]. *)

From Stdlib Require Import List String ZArith NArith QArith Bool Lia Sorted.
From Stdlib Require Import DecimalString.
Import ListNotations.
Open Scope string_scope.
Open Scope Z_scope.

(** ** The store *)

Module Store.

(** [UUID] keys are 128-bit numbers; [TIMESTAMP WITH TIME ZONE] values are
    instants on an integer clock.  Every key that a call passes to a
    statement is a UUID: a string that is not one is outside this type (the
    store would refuse the statement that carries it). *)
Definition uuid := N.
Definition timestamp := Z.

Record users_row := {
  u_id : uuid;
  u_first_name : string;
  u_last_name : string;
  u_phone : string }.

Record hospitals_row := {
  h_id : uuid;
  h_user_id : uuid;
  h_name : string;
  h_address : string;
  h_latitude : option Q;
  h_longitude : option Q;
  h_emergency_capacity : Z;
  h_is_active : bool }.

Record drivers_row := {
  d_id : uuid;
  d_user_id : uuid;
  d_is_available : bool;
  d_is_active : bool;
  d_is_approved : bool;
  d_updated_at : timestamp }.

Record emergency_requests_row := {
  er_id : uuid;
  er_user_id : uuid;
  er_emergency_type : string;
  er_description : string;
  er_pickup_address : string;
  er_pickup_latitude : Q;
  er_pickup_longitude : Q;
  er_status : string;
  er_hospital_id : option uuid;
  er_created_at : timestamp;
  er_updated_at : timestamp }.

(** The row of [emergency_assignments] as the services' statements address
    it.  Whether the store declares a column that a statement names is
    decided by the [Schema], see [accepts]. *)
Record emergency_assignments_row := {
  ea_id : uuid;
  ea_emergency_id : uuid;
  ea_driver_id : uuid;
  ea_assigned_at : option timestamp;
  ea_en_route_at : option timestamp;
  ea_arrived_at : option timestamp;
  ea_completed_at : option timestamp;
  ea_status : string;
  ea_updated_at : option timestamp }.

Record DB := {
  users : list users_row;
  hospitals : list hospitals_row;
  drivers : list drivers_row;
  emergency_requests : list emergency_requests_row;
  emergency_assignments : list emergency_assignments_row }.

Definition empty : DB :=
  {| users := []; hospitals := []; drivers := [];
     emergency_requests := []; emergency_assignments := [] |}.

(** [uuid_generate_v4()]: a key that no row of the relation carries. *)
Definition fresh (keys : list uuid) : uuid :=
  N.succ (fold_right N.max 0%N keys).

(** *** What the store declares *)

Record Schema := {
  relations : list (string * list string);
  emergency_status : list string }.

(** [001_initial_schema.sql], the only migration of the repository. *)
Definition migration_001 : Schema :=
  {| relations :=
       [ ("users",
          ["id"; "email"; "password"; "role"; "first_name"; "last_name";
           "phone"; "address"; "date_of_birth"; "emergency_contact";
           "profile_picture"; "is_active"; "created_at"; "updated_at"]);
         ("hospitals",
          ["id"; "user_id"; "name"; "license_number"; "hospital_type";
           "specialty"; "address"; "latitude"; "longitude"; "phone";
           "email"; "website"; "emergency_capacity"; "is_active";
           "is_approved"; "created_at"; "updated_at"]);
         ("drivers",
          ["id"; "user_id"; "license_number"; "license_expiry";
           "vehicle_type"; "vehicle_registration"; "is_available";
           "current_latitude"; "current_longitude";
           "last_location_update"; "is_active"; "is_approved";
           "created_at"; "updated_at"]);
         ("emergency_requests",
          ["id"; "user_id"; "emergency_type"; "description";
           "pickup_address"; "pickup_latitude"; "pickup_longitude";
           "status"; "hospital_id"; "estimated_arrival_time";
           "created_at"; "updated_at"]);
         ("emergency_assignments",
          ["id"; "emergency_id"; "driver_id"; "assigned_at";
           "accepted_at"; "pickup_at"; "completed_at"; "status";
           "notes"]);
         ("chat_messages",
          ["id"; "emergency_id"; "sender_id"; "message"; "sent_at";
           "is_read"]) ];
     emergency_status :=
       ["pending"; "accepted"; "assigned"; "in_progress"; "completed";
        "cancelled"] |}.

Definition mem (x : string) (l : list string) : bool :=
  existsb (String.eqb x) l.

Fixpoint columns_of (rels : list (string * list string)) (r : string)
  : list string :=
  match rels with
  | [] => []
  | (r', cols) :: rest => if String.eqb r r' then cols else columns_of rest r
  end.

Definition has_column (sch : Schema) (rc : string * string) : bool :=
  mem (snd rc) (columns_of (relations sch) (fst rc)).

Definition has_label (sch : Schema) (l : string) : bool :=
  mem l (emergency_status sch).

End Store.

Import Store.

(** ** Programs over the store *)

Module Pg.

(** [class ApiError extends Error { statusCode; message }] *)
Record ApiError := { statusCode : Z; message : string }.

(** What a [try] block of a service can catch: an [ApiError] it threw
    itself, or an error of another class (the store refusing a statement,
    a [TypeError]). *)
Inductive exn :=
| Api (e : ApiError)
| Other.

(** One SQL statement: the columns its text names, the constants it puts
    where an [emergency_status] value is expected, and what it computes
    once the store has accepted it. *)
Record statement (R : Type) := {
  sql_columns : list (string * string);
  sql_labels : list string;
  sql_run : DB -> R * DB }.
Arguments sql_columns {R} _.
Arguments sql_labels {R} _.
Arguments sql_run {R} _ _.

(** The store resolves every column against the relation and converts
    every status constant to [emergency_status] before it runs anything;
    an unknown column or label is an error. *)
Definition accepts {R} (sch : Schema) (s : statement R) : bool :=
  forallb (has_column sch) (sql_columns s)
  && forallb (has_label sch) (sql_labels s).

Inductive Prog (A : Type) : Type :=
| Return (a : A)
| Throw (e : exn)
| Await {R : Type} (s : statement R) (k : R -> Prog A).
Arguments Return {A} _.
Arguments Throw {A} _.
Arguments Await {A R} _ _.

Definition throw {A} (code : Z) (msg : string) : Prog A :=
  Throw (Api {| statusCode := code; message := msg |}).

(** Running the statements of a program one after the other on one
    connection. *)
Fixpoint run {A} (sch : Schema) (p : Prog A) (db : DB) : (exn + A) * DB :=
  match p with
  | Return a => (inr a, db)
  | Throw e => (inl e, db)
  | Await s k =>
      if accepts sch s
      then let (r, db') := sql_run s db in run sch (k r) db'
      else (inl Other, db)
  end.

(** [if (error instanceof ApiError) throw error;
     throw new ApiError(500, failure)] *)
Definition rethrow (failure : string) (e : exn) : ApiError :=
  match e with
  | Api a => a
  | Other => {| statusCode := 500; message := failure |}
  end.

(** [BEGIN; try { body; COMMIT } catch { ROLLBACK; rethrow }]: the writes
    of the body reach the store only through [COMMIT]. *)
Definition transaction {A} (sch : Schema) (failure : string)
  (body : Prog A) (db : DB) : (ApiError + A) * DB :=
  match run sch body db with
  | (inr a, db') => (inr a, db')
  | (inl e, _) => (inl (rethrow failure e), db)
  end.

End Pg.

Import Pg.

Notation "x <- 'await' s ;; k" := (Await s (fun x => k))
  (at level 61, s at next level, right associativity).

(** ** Building blocks of the statements *)

Module Sql.

Definition select {R} (cols : list (string * string)) (labels : list string)
  (q : DB -> R) : statement R :=
  {| sql_columns := cols; sql_labels := labels;
     sql_run := fun db => (q db, db) |}.

Definition modify (cols : list (string * string)) (labels : list string)
  (w : DB -> DB) : statement unit :=
  {| sql_columns := cols; sql_labels := labels;
     sql_run := fun db => (tt, w db) |}.

(** [UPDATE ... SET ... WHERE p]: every row that satisfies [p] is
    rewritten, the others are kept, and the order of the rows stays. *)
Definition update_where {A} (p : A -> bool) (f : A -> A) (l : list A)
  : list A :=
  map (fun r => if p r then f r else r) l.
Arguments update_where {A} p f l : simpl never.

(** [ORDER BY]: a stable insertion sort for the order [le]. *)
Fixpoint insert_by {A} (le : A -> A -> bool) (x : A) (l : list A) : list A :=
  match l with
  | [] => [x]
  | y :: l' => if le x y then x :: y :: l' else y :: insert_by le x l'
  end.

Definition order_by {A} (le : A -> A -> bool) (l : list A) : list A :=
  fold_right (insert_by le) [] l.

Definition with_requests (db : DB) (l : list emergency_requests_row) : DB :=
  {| users := users db; hospitals := hospitals db; drivers := drivers db;
     emergency_requests := l;
     emergency_assignments := emergency_assignments db |}.

Definition with_drivers (db : DB) (l : list drivers_row) : DB :=
  {| users := users db; hospitals := hospitals db; drivers := l;
     emergency_requests := emergency_requests db;
     emergency_assignments := emergency_assignments db |}.

Definition with_assignments (db : DB) (l : list emergency_assignments_row)
  : DB :=
  {| users := users db; hospitals := hospitals db; drivers := drivers db;
     emergency_requests := emergency_requests db;
     emergency_assignments := l |}.

(** [SET status = s, updated_at = NOW()] on a request. *)
Definition er_set_status (s : string) (now : timestamp)
  (r : emergency_requests_row) : emergency_requests_row :=
  {| er_id := er_id r; er_user_id := er_user_id r;
     er_emergency_type := er_emergency_type r;
     er_description := er_description r;
     er_pickup_address := er_pickup_address r;
     er_pickup_latitude := er_pickup_latitude r;
     er_pickup_longitude := er_pickup_longitude r;
     er_status := s;
     er_hospital_id := er_hospital_id r;
     er_created_at := er_created_at r;
     er_updated_at := now |}.

(** [SET hospital_id = h] on a request. *)
Definition er_set_hospital (h : uuid) (r : emergency_requests_row)
  : emergency_requests_row :=
  {| er_id := er_id r; er_user_id := er_user_id r;
     er_emergency_type := er_emergency_type r;
     er_description := er_description r;
     er_pickup_address := er_pickup_address r;
     er_pickup_latitude := er_pickup_latitude r;
     er_pickup_longitude := er_pickup_longitude r;
     er_status := er_status r;
     er_hospital_id := Some h;
     er_created_at := er_created_at r;
     er_updated_at := er_updated_at r |}.

(** [SET is_available = b, updated_at = NOW()] on a driver. *)
Definition d_set_available (b : bool) (now : timestamp) (d : drivers_row)
  : drivers_row :=
  {| d_id := d_id d; d_user_id := d_user_id d;
     d_is_available := b;
     d_is_active := d_is_active d; d_is_approved := d_is_approved d;
     d_updated_at := now |}.

(** [SELECT id FROM hospitals WHERE user_id = $1]
    (hospital.service.ts 113-117, 216-220, 307-311) *)
Definition hospitalQuery (userId : uuid) : statement (list uuid) :=
  select [("hospitals", "id"); ("hospitals", "user_id")] []
    (fun db =>
       map h_id (filter (fun h => N.eqb (h_user_id h) userId) (hospitals db))).

(** [SELECT id FROM drivers WHERE user_id = $1]
    (driver.service.ts 83-87, 250-254) *)
Definition driverByUserQuery (userId : uuid) : statement (list uuid) :=
  select [("drivers", "id"); ("drivers", "user_id")] []
    (fun db =>
       map d_id (filter (fun d => N.eqb (d_user_id d) userId) (drivers db))).

End Sql.

Import Sql.

(** ** hospital.service.ts *)

Module HospitalService.

Record AvailableDriver := {
  ad_id : uuid;
  ad_name : string;
  ad_isAvailable : bool;
  ad_lastAssignment : option timestamp }.

Record AcceptEmergencyResponse := {
  accept_message : string;
  accept_requestId : uuid;
  accept_availableDrivers : list AvailableDriver }.

Record AssignedDriver := {
  asd_id : uuid;
  asd_name : string;
  asd_phoneNumber : string }.

Record AssignDriverResponse := {
  assign_message : string;
  assign_requestId : uuid;
  assign_assignmentId : uuid;
  assign_driver : AssignedDriver }.

(** [SELECT status FROM emergency_requests WHERE id = $1] (199-203) *)
Definition acceptRequestQuery (requestId : uuid) : statement (list string) :=
  select [("emergency_requests", "status"); ("emergency_requests", "id")] []
    (fun db =>
       map er_status
         (filter (fun r => N.eqb (er_id r) requestId) (emergency_requests db))).

(** [UPDATE emergency_requests
     SET status = 'accepted', hospital_id = $1, updated_at = NOW()
     WHERE id = $2 RETURNING id] (231-236) *)
Definition acceptUpdateQuery (hospital requestId : uuid) (now : timestamp)
  : statement unit :=
  modify
    [("emergency_requests", "status"); ("emergency_requests", "hospital_id");
     ("emergency_requests", "updated_at"); ("emergency_requests", "id")]
    ["accepted"]
    (fun db =>
       with_requests db
         (update_where (fun r => N.eqb (er_id r) requestId)
            (fun r => er_set_hospital hospital (er_set_status "accepted" now r))
            (emergency_requests db))).

(** [SELECT MAX(ea.assigned_at) FROM emergency_assignments ea
     WHERE ea.driver_id = d.id] *)
Definition max_time (a b : option timestamp) : option timestamp :=
  match a, b with
  | Some x, Some y => Some (Z.max x y)
  | Some x, None => Some x
  | None, b => b
  end.

Definition last_assignment (db : DB) (driver : uuid) : option timestamp :=
  fold_right max_time None
    (map ea_assigned_at
       (filter (fun a => N.eqb (ea_driver_id a) driver)
          (emergency_assignments db))).

(** [ORDER BY d.is_available DESC, last_assignment ASC]; a [NULL] sorts
    after every value in ascending order. *)
Definition drivers_order (a b : AvailableDriver) : bool :=
  if Bool.eqb (ad_isAvailable a) (ad_isAvailable b)
  then match ad_lastAssignment a, ad_lastAssignment b with
       | Some x, Some y => x <=? y
       | Some _, None => true
       | None, Some _ => false
       | None, None => true
       end
  else ad_isAvailable a.

(** The list of approved, active drivers (243-256), already mapped to the
    response (260-265). *)
Definition driversQuery : statement (list AvailableDriver) :=
  select
    [("drivers", "id"); ("users", "first_name"); ("users", "last_name");
     ("drivers", "is_available"); ("emergency_assignments", "assigned_at");
     ("emergency_assignments", "driver_id"); ("drivers", "user_id");
     ("users", "id"); ("drivers", "is_approved"); ("drivers", "is_active")]
    []
    (fun db =>
       order_by drivers_order
         (flat_map
            (fun d =>
               map (fun u =>
                      {| ad_id := d_id d;
                         ad_name := u_first_name u ++ " " ++ u_last_name u;
                         ad_isAvailable := d_is_available d;
                         ad_lastAssignment := last_assignment db (d_id d) |})
                 (filter (fun u => N.eqb (d_user_id d) (u_id u)) (users db)))
            (filter (fun d => d_is_approved d && d_is_active d) (drivers db)))).

(** The body of [acceptEmergencyRequest] between [BEGIN] and [COMMIT]
    (198-276). *)
Definition acceptEmergencyRequest_body (now : timestamp)
  (requestId hospitalId : uuid) : Prog AcceptEmergencyResponse :=
  requestResult <- await acceptRequestQuery requestId ;;
  match requestResult with
  | [] => throw 404 "Emergency request not found"
  | status :: _ =>
      if negb (String.eqb status "pending")
      then throw 400 "Emergency request is no longer pending"
      else
        hospitalResult <- await hospitalQuery hospitalId ;;
        match hospitalResult with
        | [] => throw 404 "Hospital not found"
        | hospital :: _ =>
            _ <- await acceptUpdateQuery hospital requestId now ;;
            availableDrivers <- await driversQuery ;;
            Return {| accept_message := "Emergency request accepted successfully";
                      accept_requestId := requestId;
                      accept_availableDrivers := availableDrivers |}
        end
  end.

Definition acceptEmergencyRequest (sch : Schema) (now : timestamp)
  (requestId hospitalId : uuid) (db : DB)
  : (ApiError + AcceptEmergencyResponse) * DB :=
  transaction sch "Failed to accept emergency request"
    (acceptEmergencyRequest_body now requestId hospitalId) db.

(** [SELECT status FROM emergency_requests
     WHERE id = $1 AND hospital_id = $2] (322-326) *)
Definition assignRequestQuery (requestId hospital : uuid)
  : statement (list string) :=
  select
    [("emergency_requests", "status"); ("emergency_requests", "id");
     ("emergency_requests", "hospital_id")] []
    (fun db =>
       map er_status
         (filter
            (fun r =>
               N.eqb (er_id r) requestId
               && match er_hospital_id r with
                  | Some h => N.eqb h hospital
                  | None => false
                  end)
            (emergency_requests db))).

Record driver_record := {
  dr_id : uuid;
  dr_is_available : bool;
  dr_first_name : string;
  dr_last_name : string;
  dr_phone : string }.

(** [SELECT d.id, d.is_available, u.first_name, u.last_name, u.phone
     FROM drivers d JOIN users u ON d.user_id = u.id
     WHERE d.id = $1 AND d.is_approved = true AND d.is_active = true]
    (339-344) *)
Definition driverQuery (driverId : uuid) : statement (list driver_record) :=
  select
    [("drivers", "id"); ("drivers", "is_available"); ("users", "first_name");
     ("users", "last_name"); ("users", "phone"); ("drivers", "user_id");
     ("users", "id"); ("drivers", "is_approved"); ("drivers", "is_active")]
    []
    (fun db =>
       flat_map
         (fun d =>
            map (fun u =>
                   {| dr_id := d_id d;
                      dr_is_available := d_is_available d;
                      dr_first_name := u_first_name u;
                      dr_last_name := u_last_name u;
                      dr_phone := u_phone u |})
              (filter (fun u => N.eqb (d_user_id d) (u_id u)) (users db)))
         (filter
            (fun d => N.eqb (d_id d) driverId && d_is_approved d && d_is_active d)
            (drivers db))).

(** [UPDATE emergency_requests SET status = 'assigned', updated_at = NOW()
     WHERE id = $1] (359-363) *)
Definition updateRequestQuery (requestId : uuid) (now : timestamp)
  : statement unit :=
  modify
    [("emergency_requests", "status"); ("emergency_requests", "updated_at");
     ("emergency_requests", "id")]
    ["assigned"]
    (fun db =>
       with_requests db
         (update_where (fun r => N.eqb (er_id r) requestId)
            (er_set_status "assigned" now) (emergency_requests db))).

(** The row that
    [INSERT INTO emergency_assignments
       (emergency_id, driver_id, assigned_at, status)
     VALUES ($1, $2, NOW(), 'assigned')] adds; the columns it does not
    list are [NULL]. *)
Definition new_assignment (id requestId driverId : uuid) (now : timestamp)
  : emergency_assignments_row :=
  {| ea_id := id; ea_emergency_id := requestId; ea_driver_id := driverId;
     ea_assigned_at := Some now;
     ea_en_route_at := None; ea_arrived_at := None; ea_completed_at := None;
     ea_status := "assigned";
     ea_updated_at := None |}.

(** The [INSERT] with its [RETURNING id] (368-373, 380). *)
Definition createAssignmentQuery (requestId driverId : uuid) (now : timestamp)
  : statement uuid :=
  {| sql_columns :=
       [("emergency_assignments", "emergency_id");
        ("emergency_assignments", "driver_id");
        ("emergency_assignments", "assigned_at");
        ("emergency_assignments", "status"); ("emergency_assignments", "id")];
     sql_labels := ["assigned"];
     sql_run := fun db =>
       let id := fresh (map ea_id (emergency_assignments db)) in
       (id,
        with_assignments db
          (emergency_assignments db
             ++ [new_assignment id requestId driverId now])) |}.

(** [UPDATE drivers SET is_available = false, updated_at = NOW()
     WHERE id = $1] (383-387) *)
Definition updateDriverQuery (driverId : uuid) (now : timestamp)
  : statement unit :=
  modify
    [("drivers", "is_available"); ("drivers", "updated_at"); ("drivers", "id")]
    []
    (fun db =>
       with_drivers db
         (update_where (fun d => N.eqb (d_id d) driverId)
            (d_set_available false now) (drivers db))).

(** The body of [assignDriverToEmergency] between [BEGIN] and [COMMIT]
    (306-405). *)
Definition assignDriverToEmergency_body (now : timestamp)
  (requestId hospitalId driverId : uuid) : Prog AssignDriverResponse :=
  hospitalResult <- await hospitalQuery hospitalId ;;
  match hospitalResult with
  | [] => throw 404 "Hospital not found"
  | hospital :: _ =>
      requestResult <- await assignRequestQuery requestId hospital ;;
      match requestResult with
      | [] =>
          throw 404 "Emergency request not found or not assigned to this hospital"
      | status :: _ =>
          if negb (String.eqb status "accepted")
          then throw 400
                 "Emergency request must be in accepted status to assign a driver"
          else
            driverResult <- await driverQuery driverId ;;
            match driverResult with
            | [] => throw 404 "Driver not found or not approved"
            | driver :: _ =>
                if negb (dr_is_available driver)
                then throw 400 "Driver is currently unavailable"
                else
                  _ <- await updateRequestQuery requestId now ;;
                  assignmentId <- await createAssignmentQuery requestId driverId now ;;
                  _ <- await updateDriverQuery driverId now ;;
                  Return
                    {| assign_message := "Driver assigned successfully";
                       assign_requestId := requestId;
                       assign_assignmentId := assignmentId;
                       assign_driver :=
                         {| asd_id := dr_id driver;
                            asd_name :=
                              dr_first_name driver ++ " " ++ dr_last_name driver;
                            asd_phoneNumber := dr_phone driver |} |}
            end
      end
  end.

Definition assignDriverToEmergency (sch : Schema) (now : timestamp)
  (requestId hospitalId driverId : uuid) (db : DB)
  : (ApiError + AssignDriverResponse) * DB :=
  transaction sch "Failed to assign driver to emergency"
    (assignDriverToEmergency_body now requestId hospitalId driverId) db.

End HospitalService.

(** ** driver.service.ts *)

Module DriverService.

Record AvailabilityStatusResponse := {
  avail_message : string;
  avail_isAvailable : bool;
  avail_updatedAt : timestamp }.

Record AssignmentStatusResponse := {
  status_message : string;
  status_assignmentId : uuid;
  status_status : string;
  status_updatedAt : option timestamp }.

(** [status IN ('assigned', 'en_route', 'arrived')] (104, 183) *)
Definition non_terminal (s : string) : bool :=
  mem s ["assigned"; "en_route"; "arrived"].

(** [SELECT id FROM emergency_assignments
     WHERE driver_id = $1 AND status IN ('assigned', 'en_route', 'arrived')
     LIMIT 1] (100-106) *)
Definition activeAssignmentQuery (driver : uuid) : statement (list uuid) :=
  select
    [("emergency_assignments", "id"); ("emergency_assignments", "driver_id");
     ("emergency_assignments", "status")]
    ["assigned"; "en_route"; "arrived"]
    (fun db =>
       firstn 1
         (map ea_id
            (filter
               (fun a => N.eqb (ea_driver_id a) driver && non_terminal (ea_status a))
               (emergency_assignments db)))).

(** [UPDATE drivers SET is_available = $1, updated_at = NOW()
     WHERE id = $2 RETURNING is_available, updated_at] (118-123) *)
Definition availabilityUpdateQuery (isAvailable : bool) (driver : uuid)
  (now : timestamp) : statement (list (bool * timestamp)) :=
  {| sql_columns :=
       [("drivers", "is_available"); ("drivers", "updated_at"); ("drivers", "id")];
     sql_labels := [];
     sql_run := fun db =>
       let rows :=
         update_where (fun d => N.eqb (d_id d) driver)
           (d_set_available isAvailable now) (drivers db) in
       (map (fun d => (d_is_available d, d_updated_at d))
          (filter (fun d => N.eqb (d_id d) driver) rows),
        with_drivers db rows) |}.

(** The body of [updateAvailabilityStatus] (82-136). *)
Definition updateAvailabilityStatus_body (now : timestamp) (driverId : uuid)
  (isAvailable : bool) : Prog AvailabilityStatusResponse :=
  driverResult <- await driverByUserQuery driverId ;;
  match driverResult with
  | [] => throw 404 "Driver not found"
  | driver :: _ =>
      let update :=
        updateResult <- await availabilityUpdateQuery isAvailable driver now ;;
        match updateResult with
        | [] => Throw Other
        | (is_available, updated_at) :: _ =>
            Return {| avail_message := "Status updated successfully";
                      avail_isAvailable := is_available;
                      avail_updatedAt := updated_at |}
        end in
      if negb isAvailable
      then
        activeAssignmentResult <- await activeAssignmentQuery driver ;;
        if (0 <? List.length activeAssignmentResult)%nat
        then throw 400 "Cannot change status to unavailable with active assignments"
        else update
      else update
  end.

Definition updateAvailabilityStatus (sch : Schema) (now : timestamp)
  (driverId : uuid) (isAvailable : bool) (db : DB)
  : (ApiError + AvailabilityStatusResponse) * DB :=
  transaction sch "Failed to update driver availability status"
    (updateAvailabilityStatus_body now driverId isAvailable) db.

Record assignment_record := {
  ar_id : uuid;
  ar_status : string;
  ar_emergency_id : uuid }.

(** [SELECT id, status, emergency_id FROM emergency_assignments
     WHERE id = $1 AND driver_id = $2] (265-269) *)
Definition assignmentQuery (assignmentId driver : uuid)
  : statement (list assignment_record) :=
  select
    [("emergency_assignments", "id"); ("emergency_assignments", "status");
     ("emergency_assignments", "emergency_id");
     ("emergency_assignments", "driver_id")] []
    (fun db =>
       map (fun a => {| ar_id := ea_id a; ar_status := ea_status a;
                        ar_emergency_id := ea_emergency_id a |})
         (filter
            (fun a => N.eqb (ea_id a) assignmentId && N.eqb (ea_driver_id a) driver)
            (emergency_assignments db))).

(** What reading a property of the object literal [validStatusMap]
    (283-287) gives: one of its own three entries, a member of
    [Object.prototype], or [undefined]. *)
Inductive property :=
| Own (targets : list string)
| Inherited
| Undefined.

Definition object_prototype : list string :=
  ["constructor"; "__defineGetter__"; "__defineSetter__"; "hasOwnProperty";
   "__lookupGetter__"; "__lookupSetter__"; "isPrototypeOf";
   "propertyIsEnumerable"; "toString"; "valueOf"; "__proto__";
   "toLocaleString"].

Definition validStatusMap (key : string) : property :=
  if String.eqb key "assigned" then Own ["en_route"]
  else if String.eqb key "en_route" then Own ["arrived"]
  else if String.eqb key "arrived" then Own ["completed"]
  else if mem key object_prototype then Inherited
  else Undefined.

(** [UPDATE drivers SET is_available = true, updated_at = NOW()
     WHERE id = $1] (310-313) *)
Definition releaseDriverQuery (driver : uuid) (now : timestamp)
  : statement unit :=
  modify
    [("drivers", "is_available"); ("drivers", "updated_at"); ("drivers", "id")]
    []
    (fun db =>
       with_drivers db
         (update_where (fun d => N.eqb (d_id d) driver)
            (d_set_available true now) (drivers db))).

(** [UPDATE emergency_requests SET status = 'completed', updated_at = NOW()
     WHERE id = $1] (316-319) *)
Definition completeRequestQuery (requestId : uuid) (now : timestamp)
  : statement unit :=
  modify
    [("emergency_requests", "status"); ("emergency_requests", "updated_at");
     ("emergency_requests", "id")]
    ["completed"]
    (fun db =>
       with_requests db
         (update_where (fun r => N.eqb (er_id r) requestId)
            (er_set_status "completed" now) (emergency_requests db))).

(** The timestamp column that the text of the assignment update names for
    a status (302-307): [", en_route_at = NOW()"] and the like. *)
Definition stamp_column (status : string) : list string :=
  if String.eqb status "en_route" then ["en_route_at"]
  else if String.eqb status "arrived" then ["arrived_at"]
  else if String.eqb status "completed" then ["completed_at"]
  else [].

(** [SET status = $1 [, <stamp> = NOW()], updated_at = NOW()] on an
    assignment. *)
Definition ea_advance (status : string) (now : timestamp)
  (a : emergency_assignments_row) : emergency_assignments_row :=
  {| ea_id := ea_id a; ea_emergency_id := ea_emergency_id a;
     ea_driver_id := ea_driver_id a;
     ea_assigned_at := ea_assigned_at a;
     ea_en_route_at :=
       if String.eqb status "en_route" then Some now else ea_en_route_at a;
     ea_arrived_at :=
       if String.eqb status "en_route" then ea_arrived_at a
       else if String.eqb status "arrived" then Some now else ea_arrived_at a;
     ea_completed_at :=
       if String.eqb status "en_route" then ea_completed_at a
       else if String.eqb status "arrived" then ea_completed_at a
       else if String.eqb status "completed" then Some now
       else ea_completed_at a;
     ea_status := status;
     ea_updated_at := Some now |}.

(** The statement assembled in [updateAssignmentQuery] (294-307, 322-325):
    [UPDATE emergency_assignments SET status = $1 [, <stamp> = NOW()],
     updated_at = NOW() WHERE id = $2 RETURNING status, updated_at] *)
Definition updateAssignmentQuery (status : string) (assignmentId : uuid)
  (now : timestamp) : statement (list (string * option timestamp)) :=
  {| sql_columns :=
       map (pair "emergency_assignments")
         (["status"] ++ stamp_column status ++ ["updated_at"; "id"]);
     sql_labels := [status];
     sql_run := fun db =>
       let rows :=
         update_where (fun a => N.eqb (ea_id a) assignmentId)
           (ea_advance status now) (emergency_assignments db) in
       (map (fun a => (ea_status a, ea_updated_at a))
          (filter (fun a => N.eqb (ea_id a) assignmentId) rows),
        with_assignments db rows) |}.

(** The body of [updateAssignmentStatus] (249-337). *)
Definition updateAssignmentStatus_body (now : timestamp)
  (assignmentId driverId : uuid) (status : string)
  : Prog AssignmentStatusResponse :=
  driverResult <- await driverByUserQuery driverId ;;
  match driverResult with
  | [] => throw 404 "Driver not found"
  | driver :: _ =>
      assignmentResult <- await assignmentQuery assignmentId driver ;;
      match assignmentResult with
      | [] => throw 404 "Assignment not found or not assigned to this driver"
      | assignment :: _ =>
          let refuse : Prog AssignmentStatusResponse :=
            throw 400
              ("Cannot transition from " ++ ar_status assignment
               ++ " to " ++ status) in
          let update : Prog AssignmentStatusResponse :=
            updateResult <- await updateAssignmentQuery status assignmentId now ;;
            match updateResult with
            | [] => Throw Other
            | (new_status, updated_at) :: _ =>
                Return {| status_message := "Assignment status updated successfully";
                          status_assignmentId := assignmentId;
                          status_status := new_status;
                          status_updatedAt := updated_at |}
            end in
          match validStatusMap (ar_status assignment) with
          | Undefined => refuse
          | Inherited => Throw Other
          | Own targets =>
              if negb (mem status targets) then refuse
              else if String.eqb status "en_route" then update
              else if String.eqb status "arrived" then update
              else if String.eqb status "completed" then
                _ <- await releaseDriverQuery driver now ;;
                _ <- await completeRequestQuery (ar_emergency_id assignment) now ;;
                update
              else update
          end
      end
  end.

Definition updateAssignmentStatus (sch : Schema) (now : timestamp)
  (assignmentId driverId : uuid) (status : string) (db : DB)
  : (ApiError + AssignmentStatusResponse) * DB :=
  transaction sch "Failed to update assignment status"
    (updateAssignmentStatus_body now assignmentId driverId status) db.

End DriverService.

(** ** The numbers and arrays of the host language *)

Module Js.

(** A [number] as far as comparisons see it: a double is [NaN], an
    infinity or a rational. *)
Inductive number :=
| NaN
| NegInf
| Fin (q : Q)
| PosInf.

(** [a <= b] *)
Definition leb (a b : number) : bool :=
  match a, b with
  | NaN, _ => false
  | _, NaN => false
  | NegInf, _ => true
  | _, PosInf => true
  | Fin p, Fin q => Qle_bool p q
  | _, _ => false
  end.

(** The sign of [a - b].  The rounded difference of two doubles has the
    sign of the exact one, and the difference of equal infinities is
    [NaN]. *)
Inductive sign := Negative | Zero | Positive | NotANumber.

Definition minus_sign (a b : number) : sign :=
  match a, b with
  | NaN, _ => NotANumber
  | _, NaN => NotANumber
  | PosInf, PosInf => NotANumber
  | NegInf, NegInf => NotANumber
  | PosInf, _ => Positive
  | _, NegInf => Positive
  | NegInf, _ => Negative
  | _, PosInf => Negative
  | Fin p, Fin q =>
      match Qcompare p q with
      | Lt => Negative
      | Eq => Zero
      | Gt => Positive
      end
  end.

(** [Array.prototype.sort(comparefn)]: the sort is stable, an element moves
    behind another one only when [comparefn] of the two is positive, and a
    [NaN] from [comparefn] counts as [+0]. *)
Fixpoint sort_insert {A} (comparefn : A -> A -> sign) (x : A) (l : list A)
  : list A :=
  match l with
  | [] => [x]
  | y :: l' =>
      match comparefn x y with
      | Positive => y :: sort_insert comparefn x l'
      | _ => x :: y :: l'
      end
  end.

Definition sort {A} (comparefn : A -> A -> sign) (l : list A) : list A :=
  fold_right (sort_insert comparefn) [] l.

(** [Array.prototype.slice(0, end)] for an integer [end]: a negative [end]
    counts from the end of the array. *)
Definition slice0 {A} (l : list A) (final : Z) : list A :=
  let len := Z.of_nat (List.length l) in
  let k := if final <? 0 then Z.max (len + final) 0 else Z.min final len in
  firstn (Z.to_nat k) l.

End Js.

(** ** emergency.service.ts *)

Module EmergencyService.

Record EmergencyRequestData := {
  userId : uuid;
  pickupLatitude : Q;
  pickupLongitude : Q;
  pickupAddress : string;
  medicalNotes : option string }.

Record EmergencyRequestResponse := {
  create_message : string;
  create_requestId : uuid;
  create_status : string;
  create_createdAt : timestamp }.

Record NearbyHospital := {
  nh_id : uuid;
  nh_name : string;
  nh_userId : uuid;
  nh_address : string;
  nh_latitude : Q;
  nh_longitude : Q;
  nh_distance : Js.number;
  nh_maxCapacity : Z;
  nh_currentRequests : Z }.

Record hospital_record := {
  hr_id : uuid;
  hr_name : string;
  hr_user_id : uuid;
  hr_address : string;
  hr_latitude : Q;
  hr_longitude : Q;
  hr_max_capacity : Z;
  hr_current_requests : Z }.

(** [COUNT(er.id) FILTER (WHERE er.status = 'accepted'
                           OR er.status = 'assigned')]
    over the requests joined to the hospital. *)
Definition current_requests (db : DB) (hospital : uuid) : Z :=
  Z.of_nat
    (List.length
       (filter
          (fun r =>
             match er_hospital_id r with
             | Some h => N.eqb h hospital
             | None => false
             end
             && (String.eqb (er_status r) "accepted"
                 || String.eqb (er_status r) "assigned"))
          (emergency_requests db))).

(** The query of [findNearbyHospitals] (101-109):
    [... FROM hospitals h LEFT JOIN emergency_requests er
         ON h.id = er.hospital_id
     WHERE h.is_active = true AND h.latitude IS NOT NULL
       AND h.longitude IS NOT NULL
     GROUP BY h.id]
    The text has no [ORDER BY]: the store returns the groups in an order
    of its choosing, which here is the order of the rows of [hospitals].
    The properties of [findNearbyHospitals] speak of the members of the
    list, of their number and of the order of their distances, none of
    which depends on that choice; which of two hospitals at the same
    distance comes first is not stated anywhere. *)
Definition nearbyQuery : statement (list hospital_record) :=
  select
    [("hospitals", "id"); ("hospitals", "name"); ("hospitals", "user_id");
     ("hospitals", "address"); ("hospitals", "latitude");
     ("hospitals", "longitude"); ("hospitals", "emergency_capacity");
     ("hospitals", "is_active"); ("emergency_requests", "id");
     ("emergency_requests", "status"); ("emergency_requests", "hospital_id")]
    ["accepted"; "assigned"]
    (fun db =>
       flat_map
         (fun h =>
            match h_is_active h, h_latitude h, h_longitude h with
            | true, Some la, Some lo =>
                [{| hr_id := h_id h; hr_name := h_name h;
                    hr_user_id := h_user_id h; hr_address := h_address h;
                    hr_latitude := la; hr_longitude := lo;
                    hr_max_capacity := h_emergency_capacity h;
                    hr_current_requests := current_requests db (h_id h) |}]
            | _, _, _ => []
            end)
         (hospitals db)).

Section Matcher.

(** [calculateDistance(lat1, lon1, lat2, lon2)] of
    [utils/locationUtils.ts]: the haversine distance in kilometres, a
    composition of [Math.sin], [Math.cos], [Math.atan2] and [Math.sqrt]
    on doubles.  The matcher only compares its results. *)
Variable calculateDistance : Q -> Q -> Q -> Q -> Js.number.

(** The [.map] callback (115-134). *)
Definition to_nearby (latitude longitude : Q) (hospital : hospital_record)
  : NearbyHospital :=
  {| nh_id := hr_id hospital;
     nh_name := hr_name hospital;
     nh_userId := hr_user_id hospital;
     nh_address := hr_address hospital;
     nh_latitude := hr_latitude hospital;
     nh_longitude := hr_longitude hospital;
     nh_distance :=
       calculateDistance latitude longitude
         (hr_latitude hospital) (hr_longitude hospital);
     nh_maxCapacity := hr_max_capacity hospital;
     nh_currentRequests := hr_current_requests hospital |}.

(** [.map(...).filter(h => h.distance <= maxDistance)
     .sort((a, b) => a.distance - b.distance).slice(0, limit)] (114-139) *)
Definition nearby (latitude longitude : Q) (maxDistance : Js.number)
  (limit : Z) (rows : list hospital_record) : list NearbyHospital :=
  Js.slice0
    (Js.sort (fun a b => Js.minus_sign (nh_distance a) (nh_distance b))
       (filter (fun h => Js.leb (nh_distance h) maxDistance)
          (map (to_nearby latitude longitude) rows)))
    limit.

Definition findNearbyHospitals_body (latitude longitude : Q)
  (maxDistance : Js.number) (limit : Z) : Prog (list NearbyHospital) :=
  result <- await nearbyQuery ;;
  Return (nearby latitude longitude maxDistance limit result).

(** [findNearbyHospitals] (93-146): one query on the pool, outside any
    transaction; whatever the [try] block throws becomes
    [ApiError(500, 'Failed to find nearby hospitals')]. *)
Definition findNearbyHospitals (sch : Schema) (latitude longitude : Q)
  (maxDistance : Js.number) (limit : Z) (db : DB)
  : ApiError + list NearbyHospital :=
  match run sch (findNearbyHospitals_body latitude longitude maxDistance limit) db with
  | (inr hospitals, _) => inr hospitals
  | (inl _, _) =>
      inl {| statusCode := 500; message := "Failed to find nearby hospitals" |}
  end.

End Matcher.

(** The row that the [INSERT] of [createEmergencyRequest] adds (162-177);
    [created_at] and [updated_at] take their default, [hospital_id] is
    [NULL].  The columns [pickup_latitude] and [pickup_longitude] are
    [DECIMAL(10, 8)] and [DECIMAL(11, 8)]: the store rounds a number to
    eight decimals, and it refuses the [INSERT] when the rounded latitude
    is 100 or more in absolute value, or the rounded longitude 1000 or
    more.  The coordinates of a request are taken to be numbers that these
    columns hold as they are; the route admits latitudes between -90 and
    90 and longitudes between -180 and 180 (emergency.validator.ts 9-15).
    For other numbers the row and the outcome of the call are not
    modelled: no property below names the coordinates of a new request,
    and those about [createEmergencyRequest] are about calls that
    return. *)
Definition new_request (id : uuid) (requestData : EmergencyRequestData)
  (now : timestamp) : emergency_requests_row :=
  {| er_id := id;
     er_user_id := userId requestData;
     er_emergency_type := "Medical Emergency";
     er_description :=
       match medicalNotes requestData with
       | Some notes => notes
       | None => ""%string
       end;
     er_pickup_address := pickupAddress requestData;
     er_pickup_latitude := pickupLatitude requestData;
     er_pickup_longitude := pickupLongitude requestData;
     er_status := "pending";
     er_hospital_id := None;
     er_created_at := now;
     er_updated_at := now |}.

(** The [INSERT] with its [RETURNING id, status, created_at].  The
    requester is the authenticated user, a row of [users]. *)
Definition createQuery (requestData : EmergencyRequestData) (now : timestamp)
  : statement emergency_requests_row :=
  {| sql_columns :=
       map (pair "emergency_requests")
         ["user_id"; "pickup_latitude"; "pickup_longitude"; "pickup_address";
          "emergency_type"; "description"; "status"; "id"; "created_at"];
     sql_labels := ["pending"];
     sql_run := fun db =>
       let row :=
         new_request (fresh (map er_id (emergency_requests db))) requestData now in
       (row, with_requests db (emergency_requests db ++ [row])) |}.

Definition createEmergencyRequest_body (now : timestamp)
  (requestData : EmergencyRequestData) : Prog EmergencyRequestResponse :=
  emergencyRequest <- await createQuery requestData now ;;
  Return {| create_message := "Emergency request created successfully";
            create_requestId := er_id emergencyRequest;
            create_status := er_status emergencyRequest;
            create_createdAt := er_created_at emergencyRequest |}.

(** [createEmergencyRequest] (153-235).  After [COMMIT] the function looks
    up the nearby hospitals and logs them inside a [try] of its own; the
    lookup reads only, and neither its result nor its failure reaches the
    response.  The outer [catch] turns every error into
    [ApiError(500, ...)]. *)
Definition createEmergencyRequest (sch : Schema) (now : timestamp)
  (requestData : EmergencyRequestData) (db : DB)
  : (ApiError + EmergencyRequestResponse) * DB :=
  match run sch (createEmergencyRequest_body now requestData) db with
  | (inr response, db') => (inr response, db')
  | (inl _, _) =>
      (inl {| statusCode := 500; message := "Failed to create emergency request" |},
       db)
  end.

End EmergencyService.

(** ** Joins, pages and text shared by the listing functions *)

Module Rows.

(** [a LEFT JOIN b ON ...] for one row of [a]: the matching rows of [b], or
    one row of [NULL]s when there is none. *)
Definition left_join {B} (matching : list B) : list (option B) :=
  match matching with
  | [] => [None]
  | _ => map Some matching
  end.

(** [LIMIT $2 OFFSET $3], once the store has accepted both numbers. *)
Definition limit_offset {A} (limit offset : Z) (rows : list A) : list A :=
  firstn (Z.to_nat limit) (skipn (Z.to_nat offset) rows).

(** [ORDER BY t DESC] on a column that is never [NULL], and on one that
    can be: in descending order the [NULL]s come first. *)
Definition newest_first (a b : timestamp) : bool := b <=? a.

Definition newest_first_null (a b : option timestamp) : bool :=
  match a, b with
  | None, _ => true
  | Some _, None => false
  | Some x, Some y => y <=? x
  end.

(** A value inside a template literal: [null] prints as the word. *)
Definition template (v : option string) : string :=
  match v with
  | Some s => s
  | None => "null"
  end.

(** [Number(v)] for a [DECIMAL] column: [Number(null)] is [+0]. *)
Definition Number (v : option Q) : Q :=
  match v with
  | Some q => q
  | None => 0%Q
  end.

(** A statement with [LIMIT $2 OFFSET $3].  Both parameters are [bigint]
    values for the store: it raises an error for a negative [LIMIT] or
    [OFFSET], and for one that is [2^63] or more. *)
Definition await_page {R A} (limit offset : Z) (s : statement R)
  (k : R -> Prog A) : Prog A :=
  if (limit <? 0) || (offset <? 0) || (2 ^ 63 <=? limit) || (2 ^ 63 <=? offset)
  then Throw Other
  else Await s k.

(** [try { ... pool.query ... } catch (error)
     { if (error instanceof ApiError) throw error;
       throw new ApiError(500, failure) }]: the statements of a function
    that reads only, on the pool. *)
Definition reading {A} (sch : Schema) (failure : string) (body : Prog A)
  (db : DB) : ApiError + A :=
  match run sch body db with
  | (inr a, _) => inr a
  | (inl e, _) => inl (rethrow failure e)
  end.

(** The chain
    [LEFT JOIN emergency_assignments ea ON er.id = ea.emergency_id
     LEFT JOIN drivers d ON ea.driver_id = d.id
     LEFT JOIN users u ON d.user_id = u.id]
    for one request: an assignment, with its driver, with the account of
    the driver, each as far as it exists. *)
Definition driver_account (db : DB) (d : drivers_row)
  : list (drivers_row * option users_row) :=
  map (pair d)
    (left_join (filter (fun u => N.eqb (d_user_id d) (u_id u)) (users db))).

Definition assignment_driver (db : DB) (ea : emergency_assignments_row)
  : list (emergency_assignments_row
          * option (drivers_row * option users_row)) :=
  map (pair ea)
    (left_join
       (flat_map (driver_account db)
          (filter (fun d => N.eqb (ea_driver_id ea) (d_id d)) (drivers db)))).

Definition request_assignment (db : DB) (er : emergency_requests_row)
  : list (option (emergency_assignments_row
                  * option (drivers_row * option users_row))) :=
  left_join
    (flat_map (assignment_driver db)
       (filter (fun ea => N.eqb (er_id er) (ea_emergency_id ea))
          (emergency_assignments db))).

End Rows.

Import Rows.

(** ** hospital.service.ts: the lists of the dashboard and the approval
    of drivers *)

Module HospitalOverview.

Import HospitalService.

(** *** [getActiveEmergencyRequests] *)

Record ActiveDriver := {
  acd_id : uuid;
  acd_name : string;
  acd_status : string }.

Record ActiveRequest := {
  act_requestId : uuid;
  act_user_name : string;
  act_user_phoneNumber : string;
  act_status : string;
  act_createdAt : timestamp;
  act_driver : option ActiveDriver }.

Record ActiveEmergencyResponse := {
  active_total : Z;
  active_requests : list ActiveRequest }.

Definition active_row : Type :=
  emergency_requests_row * users_row
  * option (emergency_assignments_row
            * option (drivers_row * option users_row)).

(** [er.status IN ('accepted', 'assigned', 'in_progress')] *)
Definition active_status (s : string) : bool :=
  mem s ["accepted"; "assigned"; "in_progress"].

(** The query of [getActiveEmergencyRequests] (441-455):
    [... FROM emergency_requests er JOIN users u ON er.user_id = u.id
         LEFT JOIN emergency_assignments ea ... LEFT JOIN drivers d ...
         LEFT JOIN users du ...
     WHERE er.hospital_id = $1
       AND er.status IN ('accepted', 'assigned', 'in_progress')
     ORDER BY er.created_at DESC] *)
Definition activeRequestsQuery (hospital : uuid) : statement (list active_row) :=
  select
    [("emergency_requests", "id"); ("emergency_requests", "status");
     ("emergency_requests", "created_at"); ("users", "first_name");
     ("users", "last_name"); ("users", "phone"); ("drivers", "id");
     ("emergency_assignments", "status"); ("emergency_requests", "user_id");
     ("users", "id"); ("emergency_assignments", "emergency_id");
     ("emergency_assignments", "driver_id"); ("drivers", "user_id");
     ("emergency_requests", "hospital_id")]
    ["accepted"; "assigned"; "in_progress"]
    (fun db =>
       order_by
         (fun a b : active_row =>
            newest_first (er_created_at (fst (fst a)))
              (er_created_at (fst (fst b))))
         (flat_map
            (fun er =>
               flat_map
                 (fun u => map (fun j => (er, u, j)) (request_assignment db er))
                 (filter (fun u => N.eqb (er_user_id er) (u_id u)) (users db)))
            (filter
               (fun er =>
                  match er_hospital_id er with
                  | Some h => N.eqb h hospital
                  | None => false
                  end
                  && active_status (er_status er))
               (emergency_requests db)))).

(** The [.map] callback (459-481). *)
Definition to_active (row : active_row) : ActiveRequest :=
  let '(er, u, j) := row in
  {| act_requestId := er_id er;
     act_user_name := u_first_name u ++ " " ++ u_last_name u;
     act_user_phoneNumber := u_phone u;
     act_status := er_status er;
     act_createdAt := er_created_at er;
     act_driver :=
       match j with
       | Some (ea, Some (d, du)) =>
           Some {| acd_id := d_id d;
                   acd_name :=
                     template (option_map u_first_name du) ++ " "
                     ++ template (option_map u_last_name du);
                   acd_status := ea_status ea |}
       | _ => None
       end |}.

Definition getActiveEmergencyRequests_body (hospitalId : uuid)
  : Prog ActiveEmergencyResponse :=
  hospitalResult <- await hospitalQuery hospitalId ;;
  match hospitalResult with
  | [] => throw 404 "Hospital not found"
  | hospital :: _ =>
      requestsResult <- await activeRequestsQuery hospital ;;
      let requests := map to_active requestsResult in
      Return {| active_total := Z.of_nat (List.length requests);
                active_requests := requests |}
  end.

(** [getActiveEmergencyRequests] (423-497) *)
Definition getActiveEmergencyRequests (sch : Schema) (hospitalId : uuid)
  (db : DB) : ApiError + ActiveEmergencyResponse :=
  reading sch "Failed to get active emergency requests"
    (getActiveEmergencyRequests_body hospitalId) db.

(** *** [getHospitalDrivers] and [approveDriver] *)

Section Columns.

(** [users.email], [drivers.license_number] and [drivers.created_at]: the
    rows of the store do not carry these columns; the services never
    write them after the row is inserted, so each is a function of the
    key of its row. *)
Variable users_email : uuid -> string.
Variable drivers_license_number : uuid -> string.
Variable drivers_created_at : uuid -> timestamp.

Record HospitalDriver := {
  hd_id : uuid;
  hd_name : string;
  hd_email : string;
  hd_phoneNumber : string;
  hd_licenseNumber : string;
  hd_isAvailable : bool;
  hd_isApproved : bool;
  hd_createdAt : timestamp }.

Record HospitalDriversResponse := {
  listed_total : Z;
  listed_drivers : list HospitalDriver }.

(** The text that [statusFilter] adds to the [WHERE] clause (511-519). *)
Definition statusFilter (status : string) (d : drivers_row) : bool :=
  if String.eqb status "available" then d_is_available d
  else if String.eqb status "unavailable" then negb (d_is_available d)
  else if String.eqb status "pending" then negb (d_is_approved d)
  else true.

(** The query of [getHospitalDrivers] (521-529), already mapped to the
    response (533-542):
    [... FROM drivers d JOIN users u ON d.user_id = u.id
     WHERE d.is_active = true <statusFilter>
     ORDER BY d.created_at DESC] *)
Definition hospitalDriversQuery (status : string)
  : statement (list HospitalDriver) :=
  select
    [("drivers", "id"); ("drivers", "license_number");
     ("drivers", "is_available"); ("drivers", "is_approved");
     ("drivers", "created_at"); ("users", "first_name");
     ("users", "last_name"); ("users", "email"); ("users", "phone");
     ("drivers", "user_id"); ("users", "id"); ("drivers", "is_active")]
    []
    (fun db =>
       order_by (fun a b => newest_first (hd_createdAt a) (hd_createdAt b))
         (flat_map
            (fun d =>
               map (fun u =>
                      {| hd_id := d_id d;
                         hd_name := u_first_name u ++ " " ++ u_last_name u;
                         hd_email := users_email (u_id u);
                         hd_phoneNumber := u_phone u;
                         hd_licenseNumber := drivers_license_number (d_id d);
                         hd_isAvailable := d_is_available d;
                         hd_isApproved := d_is_approved d;
                         hd_createdAt := drivers_created_at (d_id d) |})
                 (filter (fun u => N.eqb (d_user_id d) (u_id u)) (users db)))
            (filter (fun d => d_is_active d && statusFilter status d)
               (drivers db)))).

Definition getHospitalDrivers_body (status : string)
  : Prog HospitalDriversResponse :=
  driversResult <- await hospitalDriversQuery status ;;
  Return {| listed_total := Z.of_nat (List.length driversResult);
            listed_drivers := driversResult |}.

(** [getHospitalDrivers] (505-558).  The function does not use its
    [hospitalId]: the schema has no relation between hospitals and
    drivers. *)
Definition getHospitalDrivers (sch : Schema) (hospitalId : uuid)
  (status : string) (db : DB) : ApiError + HospitalDriversResponse :=
  reading sch "Failed to get hospital drivers"
    (getHospitalDrivers_body status) db.

Record approval_record := {
  apr_id : uuid;
  apr_is_approved : bool;
  apr_first_name : string;
  apr_last_name : string;
  apr_email : string }.

(** [SELECT d.id, d.is_approved, u.first_name, u.last_name, u.email
     FROM drivers d JOIN users u ON d.user_id = u.id
     WHERE d.id = $1] (576-581) *)
Definition approvalQuery (driverId : uuid) : statement (list approval_record) :=
  select
    [("drivers", "id"); ("drivers", "is_approved"); ("users", "first_name");
     ("users", "last_name"); ("users", "email"); ("drivers", "user_id");
     ("users", "id")]
    []
    (fun db =>
       flat_map
         (fun d =>
            map (fun u =>
                   {| apr_id := d_id d;
                      apr_is_approved := d_is_approved d;
                      apr_first_name := u_first_name u;
                      apr_last_name := u_last_name u;
                      apr_email := users_email (u_id u) |})
              (filter (fun u => N.eqb (d_user_id d) (u_id u)) (users db)))
         (filter (fun d => N.eqb (d_id d) driverId) (drivers db))).

(** [SET is_approved = true, updated_at = NOW()] on a driver. *)
Definition d_set_approved (now : timestamp) (d : drivers_row) : drivers_row :=
  {| d_id := d_id d; d_user_id := d_user_id d;
     d_is_available := d_is_available d;
     d_is_active := d_is_active d; d_is_approved := true;
     d_updated_at := now |}.

(** [UPDATE drivers SET is_approved = true, updated_at = NOW()
     WHERE id = $1] (596-600) *)
Definition approvalUpdateQuery (driverId : uuid) (now : timestamp)
  : statement unit :=
  modify
    [("drivers", "is_approved"); ("drivers", "updated_at"); ("drivers", "id")]
    []
    (fun db =>
       with_drivers db
         (update_where (fun d => N.eqb (d_id d) driverId)
            (d_set_approved now) (drivers db))).

Record ApproveDriverResponse := {
  approve_message : string;
  approve_driverId : uuid;
  approve_name : string;
  approve_email : string }.

(** The body of [approveDriver] between [BEGIN] and [COMMIT] (570-614). *)
Definition approveDriver_body (now : timestamp) (driverId : uuid)
  : Prog ApproveDriverResponse :=
  driverResult <- await approvalQuery driverId ;;
  match driverResult with
  | [] => throw 404 "Driver not found"
  | driver :: _ =>
      if apr_is_approved driver
      then throw 400 "Driver is already approved"
      else
        _ <- await approvalUpdateQuery driverId now ;;
        Return {| approve_message := "Driver approved successfully";
                  approve_driverId := apr_id driver;
                  approve_name :=
                    apr_first_name driver ++ " " ++ apr_last_name driver;
                  approve_email := apr_email driver |}
  end.

(** [approveDriver] (566-625).  As [getHospitalDrivers], the function does
    not use its [hospitalId]. *)
Definition approveDriver (sch : Schema) (now : timestamp)
  (driverId hospitalId : uuid) (db : DB)
  : (ApiError + ApproveDriverResponse) * DB :=
  transaction sch "Failed to approve driver"
    (approveDriver_body now driverId) db.

End Columns.

(** *** [getPendingEmergencyRequests] *)

Record PendingRequest := {
  pnd_requestId : uuid;
  pnd_user_name : string;
  pnd_user_phoneNumber : string;
  pnd_latitude : Q;
  pnd_longitude : Q;
  pnd_address : string;
  pnd_medicalNotes : string;
  pnd_distance : string;
  pnd_createdAt : timestamp }.

(** [SELECT latitude, longitude FROM hospitals WHERE user_id = $1]
    (113-117) *)
Definition hospitalLocationQuery (userId : uuid)
  : statement (list (option Q * option Q)) :=
  select
    [("hospitals", "latitude"); ("hospitals", "longitude");
     ("hospitals", "user_id")] []
    (fun db =>
       map (fun h => (h_latitude h, h_longitude h))
         (filter (fun h => N.eqb (h_user_id h) userId) (hospitals db))).

(** [... FROM emergency_requests er JOIN users u ON er.user_id = u.id
     WHERE er.status = 'pending' ORDER BY er.created_at DESC] (128-137) *)
Definition pendingRequestsQuery
  : statement (list (emergency_requests_row * users_row)) :=
  select
    [("emergency_requests", "id"); ("emergency_requests", "user_id");
     ("emergency_requests", "description");
     ("emergency_requests", "pickup_address");
     ("emergency_requests", "pickup_latitude");
     ("emergency_requests", "pickup_longitude");
     ("emergency_requests", "created_at"); ("users", "first_name");
     ("users", "last_name"); ("users", "phone"); ("users", "id");
     ("emergency_requests", "status")]
    ["pending"]
    (fun db =>
       order_by
         (fun a b : emergency_requests_row * users_row =>
            newest_first (er_created_at (fst a)) (er_created_at (fst b)))
         (flat_map
            (fun er =>
               map (pair er)
                 (filter (fun u => N.eqb (er_user_id er) (u_id u)) (users db)))
            (filter (fun er => String.eqb (er_status er) "pending")
               (emergency_requests db)))).

Section Distances.

(** [calculateDistance] of [utils/locationUtils.ts], which applies
    [Number] to its arguments, and [Number.prototype.toFixed]. *)
Variable calculateDistance : Q -> Q -> Q -> Q -> Js.number.
Variable toFixed : Js.number -> nat -> string.

(** The [.map] callback (142-166). *)
Definition to_pending (hospital : option Q * option Q)
  (row : emergency_requests_row * users_row) : PendingRequest :=
  let (er, u) := row in
  let distance :=
    calculateDistance (Number (fst hospital)) (Number (snd hospital))
      (er_pickup_latitude er) (er_pickup_longitude er) in
  {| pnd_requestId := er_id er;
     pnd_user_name := u_first_name u ++ " " ++ u_last_name u;
     pnd_user_phoneNumber := u_phone u;
     pnd_latitude := er_pickup_latitude er;
     pnd_longitude := er_pickup_longitude er;
     pnd_address := er_pickup_address er;
     pnd_medicalNotes := er_description er;
     pnd_distance := toFixed distance 1 ++ " km";
     pnd_createdAt := er_created_at er |}.

Definition getPendingEmergencyRequests_body (hospitalId : uuid)
  : Prog (list PendingRequest) :=
  hospitalResult <- await hospitalLocationQuery hospitalId ;;
  match hospitalResult with
  | [] => throw 404 "Hospital not found"
  | hospital :: _ =>
      requestsResult <- await pendingRequestsQuery ;;
      Return (map (to_pending hospital) requestsResult)
  end.

(** [getPendingEmergencyRequests] (110-181) *)
Definition getPendingEmergencyRequests (sch : Schema) (hospitalId : uuid)
  (db : DB) : ApiError + list PendingRequest :=
  reading sch "Failed to get pending emergency requests"
    (getPendingEmergencyRequests_body hospitalId) db.

End Distances.

End HospitalOverview.

(** ** driver.service.ts: the current assignment and the history *)

Module DriverOverview.

Import DriverService.

Record CurrentAssignment := {
  cur_assignmentId : uuid;
  cur_requestId : uuid;
  cur_status : string;
  cur_user_name : string;
  cur_user_phoneNumber : string;
  cur_latitude : Q;
  cur_longitude : Q;
  cur_address : string;
  cur_hospital_name : option string;
  cur_hospital_address : option string;
  cur_medicalNotes : string;
  cur_assignedAt : option timestamp }.

Definition current_row : Type :=
  emergency_assignments_row * emergency_requests_row * users_row
  * option hospitals_row.

(** [... LEFT JOIN hospitals h ON er.hospital_id = h.id] for one request. *)
Definition request_hospital (db : DB) (er : emergency_requests_row)
  : list (option hospitals_row) :=
  left_join
    (filter
       (fun h =>
          match er_hospital_id er with
          | Some x => N.eqb x (h_id h)
          | None => false
          end)
       (hospitals db)).

(** [... FROM emergency_assignments ea
         JOIN emergency_requests er ON ea.emergency_id = er.id
         JOIN users u ON er.user_id = u.id
         LEFT JOIN hospitals h ON er.hospital_id = h.id] for the
    assignments that satisfy [p]. *)
Definition assignment_rows (p : emergency_assignments_row -> bool) (db : DB)
  : list current_row :=
  flat_map
    (fun ea =>
       flat_map
         (fun er =>
            flat_map
              (fun u => map (fun h => (ea, er, u, h)) (request_hospital db er))
              (filter (fun u => N.eqb (er_user_id er) (u_id u)) (users db)))
         (filter (fun er => N.eqb (ea_emergency_id ea) (er_id er))
            (emergency_requests db)))
    (filter p (emergency_assignments db)).

Definition by_assigned_at (a b : current_row) : bool :=
  newest_first_null (ea_assigned_at (fst (fst (fst a))))
    (ea_assigned_at (fst (fst (fst b)))).

(** The query of [getCurrentAssignment] (172-186):
    [... WHERE ea.driver_id = $1
         AND ea.status IN ('assigned', 'en_route', 'arrived')
     ORDER BY ea.assigned_at DESC LIMIT 1] *)
Definition currentAssignmentQuery (driver : uuid)
  : statement (list current_row) :=
  select
    [("emergency_assignments", "id"); ("emergency_assignments", "emergency_id");
     ("emergency_assignments", "status");
     ("emergency_assignments", "assigned_at");
     ("emergency_requests", "description");
     ("emergency_requests", "pickup_address");
     ("emergency_requests", "pickup_latitude");
     ("emergency_requests", "pickup_longitude"); ("users", "first_name");
     ("users", "last_name"); ("users", "phone"); ("hospitals", "name");
     ("hospitals", "address"); ("emergency_requests", "id");
     ("emergency_requests", "user_id"); ("users", "id");
     ("emergency_requests", "hospital_id"); ("hospitals", "id");
     ("emergency_assignments", "driver_id")]
    ["assigned"; "en_route"; "arrived"]
    (fun db =>
       firstn 1
         (order_by by_assigned_at
            (assignment_rows
               (fun ea =>
                  N.eqb (ea_driver_id ea) driver && non_terminal (ea_status ea))
               db))).

(** The response built from the first row (200-222). *)
Definition to_current (row : current_row) : CurrentAssignment :=
  let '(ea, er, u, h) := row in
  {| cur_assignmentId := ea_id ea;
     cur_requestId := ea_emergency_id ea;
     cur_status := ea_status ea;
     cur_user_name := u_first_name u ++ " " ++ u_last_name u;
     cur_user_phoneNumber := u_phone u;
     cur_latitude := er_pickup_latitude er;
     cur_longitude := er_pickup_longitude er;
     cur_address := er_pickup_address er;
     cur_hospital_name := option_map h_name h;
     cur_hospital_address := option_map h_address h;
     cur_medicalNotes := er_description er;
     cur_assignedAt := ea_assigned_at ea |}.

Definition getCurrentAssignment_body (driverId : uuid)
  : Prog (option CurrentAssignment) :=
  driverResult <- await driverByUserQuery driverId ;;
  match driverResult with
  | [] => throw 404 "Driver not found"
  | driver :: _ =>
      assignmentResult <- await currentAssignmentQuery driver ;;
      match assignmentResult with
      | [] => Return None
      | assignment :: _ => Return (Some (to_current assignment))
      end
  end.

(** [getCurrentAssignment] (154-230): [data] is [null] when the driver has
    no assignment that is under way. *)
Definition getCurrentAssignment (sch : Schema) (driverId : uuid) (db : DB)
  : ApiError + option CurrentAssignment :=
  reading sch "Failed to get current assignment"
    (getCurrentAssignment_body driverId) db.

Record HistoryAssignment := {
  ha_assignmentId : uuid;
  ha_requestId : uuid;
  ha_user : string;
  ha_pickup : string;
  ha_status : string;
  ha_completedAt : option timestamp }.

Record AssignmentHistoryResponse := {
  history_total : Z;
  history_page : Z;
  history_limit : Z;
  history_assignments : list HistoryAssignment }.

(** [SELECT COUNT( * ) as total FROM emergency_assignments
     WHERE driver_id = $1] (382-386) *)
Definition assignmentCountQuery (driver : uuid) : statement Z :=
  select [("emergency_assignments", "driver_id")] []
    (fun db =>
       Z.of_nat
         (List.length
            (filter (fun ea => N.eqb (ea_driver_id ea) driver)
               (emergency_assignments db)))).

Definition history_row : Type :=
  emergency_assignments_row * emergency_requests_row * users_row.

(** The query of the page (392-403):
    [... FROM emergency_assignments ea
         JOIN emergency_requests er ON ea.emergency_id = er.id
         JOIN users u ON er.user_id = u.id
     WHERE ea.driver_id = $1 ORDER BY ea.assigned_at DESC
     LIMIT $2 OFFSET $3] *)
Definition assignmentHistoryQuery (driver : uuid) (limit offset : Z)
  : statement (list history_row) :=
  select
    [("emergency_assignments", "id"); ("emergency_assignments", "emergency_id");
     ("emergency_assignments", "status");
     ("emergency_assignments", "completed_at"); ("users", "first_name");
     ("users", "last_name"); ("emergency_requests", "pickup_address");
     ("emergency_requests", "id"); ("emergency_requests", "user_id");
     ("users", "id"); ("emergency_assignments", "driver_id");
     ("emergency_assignments", "assigned_at")]
    []
    (fun db =>
       limit_offset limit offset
         (order_by
            (fun a b : history_row =>
               newest_first_null (ea_assigned_at (fst (fst a)))
                 (ea_assigned_at (fst (fst b))))
            (flat_map
               (fun ea =>
                  flat_map
                    (fun er =>
                       map (fun u => (ea, er, u))
                         (filter (fun u => N.eqb (er_user_id er) (u_id u))
                            (users db)))
                    (filter (fun er => N.eqb (ea_emergency_id ea) (er_id er))
                       (emergency_requests db)))
               (filter (fun ea => N.eqb (ea_driver_id ea) driver)
                  (emergency_assignments db))))).

(** The [.map] callback (408-415); [completed_at || null] is the column,
    a date or [null]. *)
Definition to_history (row : history_row) : HistoryAssignment :=
  let '(ea, er, u) := row in
  {| ha_assignmentId := ea_id ea;
     ha_requestId := ea_emergency_id ea;
     ha_user := u_first_name u ++ " " ++ u_last_name u;
     ha_pickup := er_pickup_address er;
     ha_status := ea_status ea;
     ha_completedAt := ea_completed_at ea |}.

Definition getAssignmentHistory_body (driverId : uuid) (page limit : Z)
  : Prog AssignmentHistoryResponse :=
  driverResult <- await driverByUserQuery driverId ;;
  match driverResult with
  | [] => throw 404 "Driver not found"
  | driver :: _ =>
      let offset := (page - 1) * limit in
      total <- await assignmentCountQuery driver ;;
      await_page limit offset (assignmentHistoryQuery driver limit offset)
        (fun historyResult =>
           Return {| history_total := total;
                     history_page := page;
                     history_limit := limit;
                     history_assignments := map to_history historyResult |})
  end.

(** [getAssignmentHistory] (357-433).  [page] and [limit] are integers
    that a double holds exactly, and so is [page * limit]. *)
Definition getAssignmentHistory (sch : Schema) (driverId : uuid)
  (page limit : Z) (db : DB) : ApiError + AssignmentHistoryResponse :=
  reading sch "Failed to get assignment history"
    (getAssignmentHistory_body driverId page limit) db.

End DriverOverview.

(** ** emergency.service.ts: status, history and location of a request *)

Module EmergencyOverview.

Import EmergencyService.

Section Columns.

(** [hospitals.phone], a column that the rows of the store do not carry
    and that the services never write: a function of the key. *)
Variable hospitals_phone : uuid -> string.

Record StatusHospital := {
  sh_id : uuid;
  sh_name : string;
  sh_address : string;
  sh_phoneNumber : string }.

Record StatusDriver := {
  sd_id : uuid;
  sd_name : string;
  sd_phoneNumber : option string;
  sd_status : string;
  sd_estimatedArrival : string }.

Record EmergencyStatus := {
  est_requestId : uuid;
  est_status : string;
  est_hospital : option StatusHospital;
  est_driver : option StatusDriver;
  est_createdAt : timestamp;
  est_acceptedAt : timestamp }.

Definition status_row : Type :=
  emergency_requests_row * option hospitals_row
  * option (emergency_assignments_row
            * option (drivers_row * option users_row)).

(** The query of [getEmergencyRequestStatus] (249-262):
    [... FROM emergency_requests er
         LEFT JOIN hospitals h ON er.hospital_id = h.id
         LEFT JOIN emergency_assignments ea ON er.id = ea.emergency_id
         LEFT JOIN drivers d ON ea.driver_id = d.id
         LEFT JOIN users u ON d.user_id = u.id
     WHERE er.id = $1 AND er.user_id = $2] *)
Definition statusQuery (requestId userId : uuid) : statement (list status_row) :=
  select
    [("emergency_requests", "id"); ("emergency_requests", "status");
     ("emergency_requests", "created_at"); ("emergency_requests", "updated_at");
     ("hospitals", "id"); ("hospitals", "name"); ("hospitals", "address");
     ("hospitals", "phone"); ("emergency_assignments", "id");
     ("emergency_assignments", "status");
     ("emergency_assignments", "assigned_at"); ("drivers", "id");
     ("users", "first_name"); ("users", "last_name"); ("users", "phone");
     ("emergency_requests", "hospital_id");
     ("emergency_assignments", "emergency_id");
     ("emergency_assignments", "driver_id"); ("drivers", "user_id");
     ("users", "id"); ("emergency_requests", "user_id")]
    []
    (fun db =>
       flat_map
         (fun er =>
            flat_map
              (fun h => map (fun j => (er, h, j)) (request_assignment db er))
              (DriverOverview.request_hospital db er))
         (filter
            (fun er => N.eqb (er_id er) requestId && N.eqb (er_user_id er) userId)
            (emergency_requests db))).

(** The response built from the first row (273-307). *)
Definition to_status (row : status_row) : EmergencyStatus :=
  let '(er, h, j) := row in
  {| est_requestId := er_id er;
     est_status := er_status er;
     est_hospital :=
       match h with
       | Some h =>
           Some {| sh_id := h_id h; sh_name := h_name h;
                   sh_address := h_address h;
                   sh_phoneNumber := hospitals_phone (h_id h) |}
       | None => None
       end;
     est_driver :=
       match j with
       | Some (ea, Some (d, u)) =>
           Some {| sd_id := d_id d;
                   sd_name :=
                     template (option_map u_first_name u) ++ " "
                     ++ template (option_map u_last_name u);
                   sd_phoneNumber := option_map u_phone u;
                   sd_status := ea_status ea;
                   sd_estimatedArrival := "5 minutes" |}
       | _ => None
       end;
     est_createdAt := er_created_at er;
     est_acceptedAt := er_updated_at er |}.

Definition getEmergencyRequestStatus_body (requestId userId : uuid)
  : Prog EmergencyStatus :=
  result <- await statusQuery requestId userId ;;
  match result with
  | [] => throw 404 "Emergency request not found"
  | request :: _ => Return (to_status request)
  end.

(** [getEmergencyRequestStatus] (243-317) *)
Definition getEmergencyRequestStatus (sch : Schema) (requestId userId : uuid)
  (db : DB) : ApiError + EmergencyStatus :=
  reading sch "Failed to get emergency request status"
    (getEmergencyRequestStatus_body requestId userId) db.

End Columns.

Record HistoryRequest := {
  uh_requestId : uuid;
  uh_status : string;
  uh_hospital : option string;
  uh_createdAt : timestamp;
  uh_completedAt : option timestamp }.

Record EmergencyHistoryResponse := {
  requests_total : Z;
  requests_page : Z;
  requests_limit : Z;
  requests_list : list HistoryRequest }.

(** [SELECT COUNT( * ) as total FROM emergency_requests WHERE user_id = $1]
    (336-340) *)
Definition requestCountQuery (userId : uuid) : statement Z :=
  select [("emergency_requests", "user_id")] []
    (fun db =>
       Z.of_nat
         (List.length
            (filter (fun er => N.eqb (er_user_id er) userId)
               (emergency_requests db)))).

(** The query of the page (346-355):
    [... FROM emergency_requests er
         LEFT JOIN hospitals h ON er.hospital_id = h.id
     WHERE er.user_id = $1 ORDER BY er.created_at DESC
     LIMIT $2 OFFSET $3] *)
Definition requestHistoryQuery (userId : uuid) (limit offset : Z)
  : statement (list (emergency_requests_row * option hospitals_row)) :=
  select
    [("emergency_requests", "id"); ("emergency_requests", "status");
     ("emergency_requests", "created_at"); ("emergency_requests", "updated_at");
     ("hospitals", "name"); ("emergency_requests", "hospital_id");
     ("hospitals", "id"); ("emergency_requests", "user_id")]
    []
    (fun db =>
       limit_offset limit offset
         (order_by
            (fun a b : emergency_requests_row * option hospitals_row =>
               newest_first (er_created_at (fst a)) (er_created_at (fst b)))
            (flat_map
               (fun er => map (pair er) (DriverOverview.request_hospital db er))
               (filter (fun er => N.eqb (er_user_id er) userId)
                  (emergency_requests db))))).

(** The [.map] callback (360-366): [hospital_name || null] turns an empty
    name into [null] as well; [completed_at] is [er.updated_at], a date. *)
Definition to_request_history (row : emergency_requests_row * option hospitals_row)
  : HistoryRequest :=
  let (er, h) := row in
  {| uh_requestId := er_id er;
     uh_status := er_status er;
     uh_hospital :=
       match h with
       | Some h => if String.eqb (h_name h) "" then None else Some (h_name h)
       | None => None
       end;
     uh_createdAt := er_created_at er;
     uh_completedAt := Some (er_updated_at er) |}.

Definition getUserEmergencyHistory_body (userId : uuid) (page limit : Z)
  : Prog EmergencyHistoryResponse :=
  let offset := (page - 1) * limit in
  total <- await requestCountQuery userId ;;
  await_page limit offset (requestHistoryQuery userId limit offset)
    (fun historyResult =>
       Return {| requests_total := total;
                 requests_page := page;
                 requests_limit := limit;
                 requests_list := map to_request_history historyResult |}).

(** [getUserEmergencyHistory] (326-381).  [page] and [limit] are integers
    that a double holds exactly, and so is [page * limit].  The [catch]
    turns every error into [ApiError(500, ...)]. *)
Definition getUserEmergencyHistory (sch : Schema) (userId : uuid)
  (page limit : Z) (db : DB) : ApiError + EmergencyHistoryResponse :=
  match run sch (getUserEmergencyHistory_body userId page limit) db with
  | (inr response, _) => inr response
  | (inl _, _) =>
      inl {| statusCode := 500;
             message := "Failed to get emergency request history" |}
  end.

Record EmergencyLocation := {
  loc_pickupLatitude : Q;
  loc_pickupLongitude : Q;
  loc_pickupAddress : string }.

(** [SELECT pickup_latitude, pickup_longitude, pickup_address
     FROM emergency_requests WHERE id = $1] (390-394) *)
Definition locationQuery (requestId : uuid)
  : statement (list EmergencyLocation) :=
  select
    [("emergency_requests", "pickup_latitude");
     ("emergency_requests", "pickup_longitude");
     ("emergency_requests", "pickup_address"); ("emergency_requests", "id")]
    []
    (fun db =>
       map (fun er =>
              {| loc_pickupLatitude := er_pickup_latitude er;
                 loc_pickupLongitude := er_pickup_longitude er;
                 loc_pickupAddress := er_pickup_address er |})
         (filter (fun er => N.eqb (er_id er) requestId) (emergency_requests db))).

Definition getEmergencyLocationById_body (requestId : uuid)
  : Prog (option EmergencyLocation) :=
  result <- await locationQuery requestId ;;
  match result with
  | [] => Return None
  | row :: _ => Return (Some row)
  end.

(** [getEmergencyLocationById] (388-412): [null] when there is no such
    request. *)
Definition getEmergencyLocationById (sch : Schema) (requestId : uuid) (db : DB)
  : ApiError + option EmergencyLocation :=
  match run sch (getEmergencyLocationById_body requestId) db with
  | (inr location, _) => inr location
  | (inl _, _) =>
      inl {| statusCode := 500;
             message := "Failed to get emergency location data" |}
  end.

End EmergencyOverview.

(** ** controllers/emergency.controller.ts and middleware/errorHandler.ts *)

Module EmergencyController.

Import EmergencyService EmergencyOverview.

(** What a handler sends: [res.status(status).json(...)] with the data of
    a success, or with [{ success: false, error: { message } }]; the
    message of an error that is not an [ApiError] is not modelled. *)
Inductive reply (A : Type) : Type :=
| Success (status : Z) (data : A)
| Failure (status : Z) (message : option string).
Arguments Success {A} _ _.
Arguments Failure {A} _ _.

(** [errorHandler] of [middleware/errorHandler.ts]:
    [statusCode = err.statusCode || 500;
     message = err.message || 'Internal Server Error'] *)
Definition errorHandler {A} (err : exn) : reply A :=
  match err with
  | Api e =>
      Failure (if statusCode e =? 0 then 500 else statusCode e)
        (Some (if String.eqb (message e) "" then "Internal Server Error"
               else message e))
  | Other => Failure 500 None
  end.

(** [parseInt(req.query.x as string) || fallback]: [parseInt] gives an
    integer or [NaN], and both [NaN] and [0] are replaced. *)
Definition or_default (parsed : option Z) (fallback : Z) : Z :=
  match parsed with
  | Some n => if n =? 0 then fallback else n
  | None => fallback
  end.

(** An integer in a template literal. *)
Definition print (n : Z) : string := NilZero.string_of_int (Z.to_int n).

Record ListedHospital := {
  lh_id : uuid;
  lh_name : string;
  lh_address : string;
  lh_distance : string;
  lh_currentLoad : string;
  lh_availability : string }.

Record NearbyHospitalsData := {
  nearby_totalHospitals : Z;
  nearby_hospitals : list ListedHospital }.

Section Controller.

Variable hospitals_phone : uuid -> string.
Variable calculateDistance : Q -> Q -> Q -> Q -> Js.number.
Variable toFixed : Js.number -> nat -> string.

(** The [.map] callback of the response (130-137). *)
Definition to_listed (hospital : NearbyHospital) : ListedHospital :=
  {| lh_id := nh_id hospital;
     lh_name := nh_name hospital;
     lh_address := nh_address hospital;
     lh_distance := toFixed (nh_distance hospital) 2 ++ " km";
     lh_currentLoad :=
       print (nh_currentRequests hospital) ++ "/"
       ++ print (nh_maxCapacity hospital);
     lh_availability :=
       if nh_currentRequests hospital <? nh_maxCapacity hospital
       then "Available" else "Busy" |}.

(** [getNearbyHospitals] (90-144) for the authenticated [userId]; every
    error of a service goes to [next(error)], that is to [errorHandler].
    The status that the first service returns always has its data, so
    the check of it never answers. *)
Definition getNearbyHospitals (sch : Schema) (userId requestId : uuid)
  (maxDistance limit : option Z) (db : DB) : reply NearbyHospitalsData :=
  let maxDistance := or_default maxDistance 50 in
  let limit := or_default limit 10 in
  match getEmergencyRequestStatus hospitals_phone sch requestId userId db with
  | inl e => errorHandler (Api e)
  | inr _ =>
      match getEmergencyLocationById sch requestId db with
      | inl e => errorHandler (Api e)
      | inr None =>
          Failure 404 (Some "Emergency request location data not available")
      | inr (Some emergencyRequest) =>
          match
            findNearbyHospitals calculateDistance sch
              (loc_pickupLatitude emergencyRequest)
              (loc_pickupLongitude emergencyRequest)
              (Js.Fin (inject_Z maxDistance)) limit db
          with
          | inl e => errorHandler (Api e)
          | inr nearbyHospitals =>
              Success 200
                {| nearby_totalHospitals :=
                     Z.of_nat (List.length nearbyHospitals);
                   nearby_hospitals := map to_listed nearbyHospitals |}
          end
      end
  end.

End Controller.

(** [getEmergencyHistory] (69-82) *)
Definition getEmergencyHistory (sch : Schema) (userId : uuid)
  (page limit : option Z) (db : DB) : reply EmergencyHistoryResponse :=
  let page := or_default page 1 in
  let limit := or_default limit 10 in
  match getUserEmergencyHistory sch userId page limit db with
  | inl e => errorHandler (Api e)
  | inr result => Success 200 result
  end.

End EmergencyController.

(** ** The operations of the core, one after the other *)

Module Dispatch.

Import HospitalService DriverService EmergencyService.

Inductive operation :=
| CreateRequest (requestData : EmergencyRequestData)
| AcceptRequest (requestId hospitalId : uuid)
| AssignDriver (requestId hospitalId driverId : uuid)
| AdvanceAssignment (assignmentId driverId : uuid) (status : string)
| SetAvailability (driverId : uuid) (isAvailable : bool).

(** The store after a call at time [now], whether the call succeeded or
    not. *)
Definition step (sch : Schema) (db : DB) (call : timestamp * operation) : DB :=
  let (now, o) := call in
  match o with
  | CreateRequest requestData =>
      snd (createEmergencyRequest sch now requestData db)
  | AcceptRequest requestId hospitalId =>
      snd (acceptEmergencyRequest sch now requestId hospitalId db)
  | AssignDriver requestId hospitalId driverId =>
      snd (assignDriverToEmergency sch now requestId hospitalId driverId db)
  | AdvanceAssignment assignmentId driverId status =>
      snd (updateAssignmentStatus sch now assignmentId driverId status db)
  | SetAvailability driverId isAvailable =>
      snd (updateAvailabilityStatus sch now driverId isAvailable db)
  end.

Definition steps (sch : Schema) (db : DB) (calls : list (timestamp * operation))
  : DB :=
  fold_left (step sch) calls db.

End Dispatch.

(** ** Transactions that are open at the same time *)

Module Concurrent.

(** A connection between its [BEGIN] and the end of its transaction: the
    statements still to run and the writes made so far, which the other
    connections do not see; or the result it has returned to its caller. *)
Inductive connection (A : Type) : Type :=
| Open (rest : Prog A) (writes : DB -> DB)
| Committed (a : A)
| RolledBack (e : ApiError).
Arguments Open {A} _ _.
Arguments Committed {A} _.
Arguments RolledBack {A} _.

Definition begin {A} (body : Prog A) : connection A := Open body (fun db => db).

(** One connection runs its next statement.  At the default isolation level
    (the services issue a plain [BEGIN]) a statement sees what was
    committed before it started, together with the writes of its own
    transaction; an [UPDATE] evaluates its [WHERE] clause against the latest
    committed version of a row.  The writes are therefore kept as a function
    of the committed store.  [COMMIT] publishes them, [ROLLBACK] drops
    them. *)
Definition advance {A} (sch : Schema) (failure : string) (committed : DB)
  (c : connection A) : DB * connection A :=
  match c with
  | Open (Return a) writes => (writes committed, Committed a)
  | Open (Throw e) _ => (committed, RolledBack (rethrow failure e))
  | Open (Await s k) writes =>
      if accepts sch s
      then let (r, _) := sql_run s (writes committed) in
           (committed, Open (k r) (fun db => snd (sql_run s (writes db))))
      else (committed, RolledBack (rethrow failure Other))
  | _ => (committed, c)
  end.

(** Two callers; the schedule says whose turn it is, [false] for the first
    and [true] for the second. *)
Fixpoint interleave {A} (sch : Schema) (failure : string)
  (schedule : list bool) (committed : DB) (c1 c2 : connection A)
  : DB * connection A * connection A :=
  match schedule with
  | [] => (committed, c1, c2)
  | false :: rest =>
      let (db, c1') := advance sch failure committed c1 in
      interleave sch failure rest db c1' c2
  | true :: rest =>
      let (db, c2') := advance sch failure committed c2 in
      interleave sch failure rest db c1 c2'
  end.

End Concurrent.

(** ** Vocabulary of the properties *)

Import HospitalService DriverService EmergencyService Dispatch Concurrent.
Import HospitalOverview DriverOverview EmergencyOverview EmergencyController.

(** The services signal the error kinds of the design with the status code
    of the [ApiError]: 404 for "not found", 400 for a violated precondition
    of a state transition ("conflict"), 500 for a failure of the store. *)
Definition NotFound : Z := 404.
Definition Conflict : Z := 400.
Definition InternalError : Z := 500.

(** The call raised an [ApiError] with this code and the store is the one
    the call started from. *)
Definition fails_with {A} (code : Z) (db : DB) (result : (ApiError + A) * DB)
  : Prop :=
  exists e, result = (inl e, db) /\ statusCode e = code.

(** The call returned a response and left this store. *)
Definition succeeds_with {A} (db' : DB) (result : (ApiError + A) * DB) : Prop :=
  exists response, result = (inr response, db').

(** What the statements of a program compute once the store accepts all of
    them. *)
Fixpoint exec {A} (p : Prog A) (db : DB) : (exn + A) * DB :=
  match p with
  | Return a => (inr a, db)
  | Throw e => (inl e, db)
  | Await s k => let (r, db') := sql_run s db in exec (k r) db'
  end.

(** The store after each kind of successful call. *)
Definition created (now : timestamp) (requestData : EmergencyRequestData)
  (db : DB) : DB :=
  with_requests db
    (emergency_requests db
       ++ [new_request (fresh (map er_id (emergency_requests db))) requestData now]).

Definition accepted (now : timestamp) (requestId hospital : uuid) (db : DB) : DB :=
  with_requests db
    (update_where (fun r => N.eqb (er_id r) requestId)
       (fun r => er_set_hospital hospital (er_set_status "accepted" now r))
       (emergency_requests db)).

Definition assigned (now : timestamp) (requestId driverId : uuid) (db : DB) : DB :=
  {| users := users db;
     hospitals := hospitals db;
     drivers :=
       update_where (fun d => N.eqb (d_id d) driverId)
         (d_set_available false now) (drivers db);
     emergency_requests :=
       update_where (fun r => N.eqb (er_id r) requestId)
         (er_set_status "assigned" now) (emergency_requests db);
     emergency_assignments :=
       emergency_assignments db
         ++ [new_assignment (fresh (map ea_id (emergency_assignments db)))
               requestId driverId now] |}.

Definition advanced (now : timestamp) (assignmentId : uuid) (status : string)
  (db : DB) : DB :=
  with_assignments db
    (update_where (fun a => N.eqb (ea_id a) assignmentId)
       (ea_advance status now) (emergency_assignments db)).

Definition completed (now : timestamp) (assignmentId driver requestId : uuid)
  (db : DB) : DB :=
  {| users := users db;
     hospitals := hospitals db;
     drivers :=
       update_where (fun d => N.eqb (d_id d) driver)
         (d_set_available true now) (drivers db);
     emergency_requests :=
       update_where (fun r => N.eqb (er_id r) requestId)
         (er_set_status "completed" now) (emergency_requests db);
     emergency_assignments :=
       update_where (fun a => N.eqb (ea_id a) assignmentId)
         (ea_advance "completed" now) (emergency_assignments db) |}.

Definition toggled (now : timestamp) (driver : uuid) (isAvailable : bool)
  (db : DB) : DB :=
  with_drivers db
    (update_where (fun d => N.eqb (d_id d) driver)
       (d_set_available isAvailable now) (drivers db)).

(** What a successful [assignDriverToEmergency] leaves: one more assignment,
    for this request and driver, with status [assigned] and [assigned_at]
    the time of the call; the request [assigned]; the driver unavailable;
    and nothing else changed. *)
Definition assignment_applied (now : timestamp) (requestId driverId : uuid)
  (db : DB) (assignmentId : uuid) (db' : DB) : Prop :=
  db' = assigned now requestId driverId db
  /\ emergency_assignments db' =
       (emergency_assignments db
          ++ [ {| ea_id := assignmentId;
                  ea_emergency_id := requestId;
                  ea_driver_id := driverId;
                  ea_assigned_at := Some now;
                  ea_en_route_at := None;
                  ea_arrived_at := None;
                  ea_completed_at := None;
                  ea_status := "assigned";
                  ea_updated_at := None |} ])%list
  /\ (exists request, In request (emergency_requests db')
                      /\ er_id request = requestId)
  /\ (forall request, In request (emergency_requests db') ->
        er_id request = requestId -> er_status request = "assigned")
  /\ (exists driver, In driver (drivers db') /\ d_id driver = driverId)
  /\ (forall driver, In driver (drivers db') ->
        d_id driver = driverId -> d_is_available driver = false).

(** The committed store after a connection has run [n] steps while no other
    connection commits. *)
Definition observed {A} (sch : Schema) (failure : string) (body : Prog A)
  (db : DB) (n : nat) : DB :=
  fst (Nat.iter n (fun state => advance sch failure (fst state) (snd state))
         (db, begin body)).

(** The states that the connection of a call passes through, whatever the
    other connections commit between two of its statements. *)
Inductive in_flight {A} (sch : Schema) (failure : string) (body : Prog A)
  : connection A -> Prop :=
| in_flight_begin :
    in_flight sch failure body (begin body)
| in_flight_advance committed c :
    in_flight sch failure body c ->
    in_flight sch failure body (snd (advance sch failure committed c)).

(** On every path of a program to its [COMMIT], the writes made since
    [BEGIN] satisfy [P]. *)
Fixpoint publishes {A} (P : (DB -> DB) -> Prop) (writes : DB -> DB)
  (p : Prog A) : Prop :=
  match p with
  | Return _ => P writes
  | Throw _ => True
  | Await s k =>
      forall r, publishes P (fun db => snd (sql_run s (writes db))) (k r)
  end.

(** The writes of a successful [assignDriverToEmergency], and those of a
    completing [updateAssignmentStatus], as what a connection publishes. *)
Definition assigns (now : timestamp) (requestId driverId : uuid)
  (writes : DB -> DB) : Prop :=
  forall db, writes db = assigned now requestId driverId db.



(** The stores that one call other than [updateAvailabilityStatus] can
    leave. *)
Inductive dispatch_effect (db : DB) : DB -> Prop :=
| effect_none :
    dispatch_effect db db
| effect_created now requestData :
    dispatch_effect db (created now requestData db)
| effect_accepted now requestId hospital :
    dispatch_effect db (accepted now requestId hospital db)
| effect_assigned now requestId driver :
    In driver (drivers db) -> d_is_available driver = true ->
    dispatch_effect db (assigned now requestId (d_id driver) db)
| effect_advanced now assignment status :
    In assignment (emergency_assignments db) ->
    non_terminal (ea_status assignment) = true ->
    non_terminal status = true ->
    dispatch_effect db (advanced now (ea_id assignment) status db)
| effect_completed now assignment driver :
    In assignment (emergency_assignments db) ->
    In driver (drivers db) ->
    ea_driver_id assignment = d_id driver ->
    non_terminal (ea_status assignment) = true ->
    dispatch_effect db
      (completed now (ea_id assignment) (d_id driver)
         (ea_emergency_id assignment) db).

(** An assignment of the driver that is not terminal. *)
Definition active_for (driver : uuid) (a : emergency_assignments_row) : bool :=
  N.eqb (ea_driver_id a) driver && non_terminal (ea_status a).

(** The number of assignments of a driver that are not terminal. *)
Definition active_assignments (db : DB) (driver : uuid) : nat :=
  List.length (filter (active_for driver) (emergency_assignments db)).

(** Candidates in the order of their distance, and the comparison function
    that [findNearbyHospitals] hands to the sort. *)
Definition closer (a b : NearbyHospital) : Prop :=
  Js.leb (nh_distance a) (nh_distance b) = true.

Definition by_distance (a b : NearbyHospital) : Js.sign :=
  Js.minus_sign (nh_distance a) (nh_distance b).

(** An available driver holds no assignment that is not terminal, an
    unavailable one holds exactly one; the keys of the assignments are
    distinct. *)
Definition availability_coupled (db : DB) : Prop :=
  NoDup (map ea_id (emergency_assignments db))
  /\ forall d, In d (drivers db) ->
       active_assignments db (d_id d) = if d_is_available d then 0%nat else 1%nat.

Definition is_toggle (call : timestamp * operation) : bool :=
  match snd call with
  | SetAvailability _ _ => true
  | _ => false
  end.

Definition no_in_progress (db : DB) : Prop :=
  forall r, In r (emergency_requests db) -> er_status r <> "in_progress".

(** The next status of the chain Assigned, EnRoute, Arrived, Completed. *)
Definition one_step_forward (current target : string) : bool :=
  (String.eqb current "assigned" && String.eqb target "en_route")
  || (String.eqb current "en_route" && String.eqb target "arrived")
  || (String.eqb current "arrived" && String.eqb target "completed").

(** A store that declares what the statements of [updateAssignmentStatus]
    name: the three stamps and [updated_at] on [emergency_assignments], and
    the status labels of the chain. *)
Definition declares_progress (sch : Schema) : bool :=
  forallb (has_column sch)
    [("drivers", "id"); ("drivers", "user_id"); ("drivers", "is_available");
     ("drivers", "updated_at");
     ("emergency_requests", "status"); ("emergency_requests", "updated_at");
     ("emergency_requests", "id");
     ("emergency_assignments", "id"); ("emergency_assignments", "status");
     ("emergency_assignments", "emergency_id");
     ("emergency_assignments", "driver_id");
     ("emergency_assignments", "en_route_at");
     ("emergency_assignments", "arrived_at");
     ("emergency_assignments", "completed_at");
     ("emergency_assignments", "updated_at")]
  && forallb (has_label sch) ["en_route"; "arrived"; "completed"].

(** *** Stores and calls used as examples *)

Module Example.

Open Scope N_scope.

(** A requester, a hospital account with its hospital, and a driver
    account with its approved, available driver. *)
Definition registered : DB :=
  {| users :=
       [ {| u_id := 1; u_first_name := "Ann"; u_last_name := "Lee";
            u_phone := "+15550000001" |};
         {| u_id := 2; u_first_name := "City"; u_last_name := "Hospital";
            u_phone := "+15550000002" |};
         {| u_id := 3; u_first_name := "Dan"; u_last_name := "Roe";
            u_phone := "+15550000003" |} ];
     hospitals :=
       [ {| h_id := 10; h_user_id := 2; h_name := "City Hospital";
            h_address := "1 Main Street";
            h_latitude := Some (0 # 1)%Q; h_longitude := Some (0 # 1)%Q;
            h_emergency_capacity := 5%Z; h_is_active := true |} ];
     drivers :=
       [ {| d_id := 20; d_user_id := 3; d_is_available := true;
            d_is_active := true; d_is_approved := true;
            d_updated_at := 0%Z |} ];
     emergency_requests := [];
     emergency_assignments := [] |}.

Definition requestData : EmergencyRequestData :=
  {| userId := 1; pickupLatitude := (0 # 1)%Q; pickupLongitude := (0 # 1)%Q;
     pickupAddress := "12 Elm Street"; medicalNotes := None |}.

(** Request 1 is pending. *)
Definition pending : DB :=
  steps migration_001 registered [(1%Z, CreateRequest requestData)].

(** Request 1 is accepted by hospital 10. *)
Definition accepted : DB :=
  steps migration_001 pending [(2%Z, AcceptRequest 1 2)].

(** Driver 20 is assigned to request 1: assignment 1. *)
Definition assigned : DB :=
  steps migration_001 accepted [(3%Z, AssignDriver 1 2 20)].

(** As [accepted], but the driver has not been approved yet. *)
Definition unapproved : DB :=
  with_drivers accepted
    [ {| d_id := 20; d_user_id := 3; d_is_available := true;
         d_is_active := true; d_is_approved := false;
         d_updated_at := 0%Z |} ].

(** Two requests, both accepted by hospital 10; the driver is assigned to
    the first, declares itself available, and is assigned to the second. *)
Definition double_booking : list (timestamp * operation) :=
  [ (1%Z, CreateRequest requestData);
    (2%Z, CreateRequest requestData);
    (3%Z, AcceptRequest 1 2);
    (4%Z, AcceptRequest 2 2);
    (5%Z, AssignDriver 1 2 20);
    (6%Z, SetAvailability 3 true);
    (7%Z, AssignDriver 2 2 20) ].

(** One call of every kind, in the order of the life cycle. *)
Definition lifecycle : list (timestamp * operation) :=
  [ (1%Z, CreateRequest requestData);
    (2%Z, AcceptRequest 1 2);
    (3%Z, AssignDriver 1 2 20);
    (4%Z, AdvanceAssignment 1 3 "en_route");
    (5%Z, AdvanceAssignment 1 3 "arrived");
    (6%Z, AdvanceAssignment 1 3 "completed");
    (7%Z, SetAvailability 3 false) ].

(** A second hospital account with its hospital, next to the first. *)
Definition two_hospitals : DB :=
  {| users :=
       users pending
         ++ [ {| u_id := 4; u_first_name := "Lake"; u_last_name := "Clinic";
                 u_phone := "+15550000004" |} ];
     hospitals :=
       hospitals pending
         ++ [ {| h_id := 11; h_user_id := 4; h_name := "Lake Clinic";
                 h_address := "2 Shore Road";
                 h_latitude := Some (0 # 1)%Q; h_longitude := Some (0 # 1)%Q;
                 h_emergency_capacity := 3%Z; h_is_active := true |} ];
     drivers := drivers pending;
     emergency_requests := emergency_requests pending;
     emergency_assignments := emergency_assignments pending |}.

(** A schema that also declares what [driver.service.ts] names. *)
Definition with_progress_columns : Schema :=
  {| relations :=
       [ ("drivers", ["id"; "user_id"; "is_available"; "updated_at"]);
         ("emergency_requests", ["id"; "status"; "updated_at"]);
         ("emergency_assignments",
          ["id"; "emergency_id"; "driver_id"; "assigned_at"; "en_route_at";
           "arrived_at"; "completed_at"; "status"; "updated_at"]) ];
     emergency_status :=
       ["pending"; "accepted"; "assigned"; "en_route"; "arrived";
        "in_progress"; "completed"; "cancelled"] |}.



(** The distance of a point to itself, which the haversine formula gives
    as 0; the examples place every hospital at the pickup point. *)
Definition distance_at_pickup (lat1 lon1 lat2 lon2 : Q) : Js.number :=
  if Qeq_bool lat1 lat2 && Qeq_bool lon1 lon2 then Js.Fin (0 # 1) else Js.NaN.

End Example.

Module Race.

Import Example.
Open Scope N_scope.

(** Two hospital accounts accept request 1 of [two_hospitals]. *)
Definition first_accept : connection AcceptEmergencyResponse :=
  begin (acceptEmergencyRequest_body 2%Z 1 2).
Definition second_accept : connection AcceptEmergencyResponse :=
  begin (acceptEmergencyRequest_body 2%Z 1 4).

(** Both read the status of the request before either writes. *)
Definition both_read_first : list bool :=
  [false; true; false; false; false; false; true; true; true; true].

(** The first transaction ends before the second begins. *)
Definition one_after_the_other : list bool :=
  [false; false; false; false; false; true; true; true; true; true].

(** Two callers assign driver 20 to request 1 of [accepted]. *)
Definition first_assign : connection AssignDriverResponse :=
  begin (assignDriverToEmergency_body 3%Z 1 2 20).
Definition second_assign : connection AssignDriverResponse :=
  begin (assignDriverToEmergency_body 3%Z 1 2 20).

(** Both run their three checks before either writes. *)
Definition both_check_first : list bool :=
  [false; false; false; true; true; true;
   false; false; false; false; true; true; true; true].

End Race.

(** *** Vocabulary of the lists *)

(** The store after a successful [approveDriver]. *)
Definition approved (now : timestamp) (driverId : uuid) (db : DB) : DB :=
  with_drivers db
    (update_where (fun d => N.eqb (d_id d) driverId)
       (d_set_approved now) (drivers db)).

(** A list in the order of [ORDER BY ... DESC] on a timestamp. *)
Definition newest_to_oldest {A} (at_ : A -> timestamp) (l : list A) : Prop :=
  Sorted (fun a b => at_ b <= at_ a) l.

(** A store that declares what the statements of [getCurrentAssignment]
    name, among them the labels [en_route] and [arrived]. *)
Definition declares_current (sch : Schema) : bool :=
  accepts sch (driverByUserQuery 0%N) && accepts sch (currentAssignmentQuery 0%N).

(** The assignment rows among which [getCurrentAssignment] picks one: those
    of the driver that are under way, with their request and requester. *)
Definition under_way (driver : uuid) (db : DB) : list current_row :=
  assignment_rows
    (fun ea => N.eqb (ea_driver_id ea) driver && non_terminal (ea_status ea)) db.

(** Page numbers and page sizes for which [(page - 1) * limit] is exact:
    positive integers with a product that a double holds. *)
Definition exact_page (page limit : Z) : Prop :=
  1 <= page /\ 1 <= limit /\ page * limit <= 2 ^ 53.

(** An active hospital with both coordinates that lies within the maximal
    distance of a point: a candidate of [findNearbyHospitals]. *)
Definition in_range (calculateDistance : Q -> Q -> Q -> Q -> Js.number)
  (latitude longitude : Q) (maxDistance : Js.number) (h : hospitals_row)
  : bool :=
  match h_is_active h, h_latitude h, h_longitude h with
  | true, Some la, Some lo =>
      Js.leb (calculateDistance latitude longitude la lo) maxDistance
  | _, _, _ => false
  end.

(** The list of drivers that [acceptEmergencyRequest] returns has the
    available drivers before the others. *)
Definition available_first (l : list AvailableDriver) : Prop :=
  Sorted (fun a b => ad_isAvailable b = true -> ad_isAvailable a = true) l.

(** *** Columns, schema and text used in the examples of the lists *)

Module Registry.

(** The columns that the rows do not carry, for the accounts, drivers and
    hospitals of [Example.registered]. *)
Definition email (user : uuid) : string :=
  if N.eqb user 3 then "dan.roe@example.org" else "account@example.org".

Definition license_number (driver : uuid) : string := "DL-0020".

Definition created_at (driver : uuid) : timestamp := 0.

Definition phone (hospital : uuid) : string := "+15550000010".

(** [toFixed] on the distances of the examples, which are all 0. *)
Definition toFixed (x : Js.number) (digits : nat) : string :=
  match x with
  | Js.NaN => "NaN"
  | Js.NegInf => "-Infinity"
  | Js.PosInf => "Infinity"
  | Js.Fin _ =>
      match digits with
      | O => "0"
      | S _ => "0." ++ String.concat "" (repeat "0" digits)
      end
  end.

(** The schema of the migration with the two labels that
    [driver.service.ts] uses added to [emergency_status]. *)
Definition progress_labels : Schema :=
  {| relations := relations migration_001;
     emergency_status :=
       (emergency_status migration_001 ++ ["en_route"; "arrived"])%list |}.

End Registry.

(** *** A second driver *)

Module Fleet.

(** The store [Example.assigned] with a second driver, driver 21 of
    account 5, which holds no assignment. *)
Definition two_drivers : DB :=
  {| users :=
       (users Example.assigned
          ++ [ {| u_id := 5%N; u_first_name := "Eve"; u_last_name := "Poe";
                  u_phone := "+15550000005" |} ])%list;
     hospitals := hospitals Example.assigned;
     drivers :=
       (drivers Example.assigned
          ++ [ {| d_id := 21%N; d_user_id := 5%N; d_is_available := true;
                  d_is_active := true; d_is_approved := true;
                  d_updated_at := 0 |} ])%list;
     emergency_requests := emergency_requests Example.assigned;
     emergency_assignments := emergency_assignments Example.assigned |}.

End Fleet.

(** *** The calls that write, one after the other *)

(** A call of one of the five operations of the core or of
    [approveDriver]: the functions of the services that write to the
    store. *)
Inductive service_call :=
| Core (call : timestamp * operation)
| Approve (now : timestamp) (driverId hospitalId : uuid).

(** The store after a call, whether the call succeeded or not. *)
Definition service_step (users_email : uuid -> string) (sch : Schema)
  (db : DB) (call : service_call) : DB :=
  match call with
  | Core call => step sch db call
  | Approve now driverId hospitalId =>
      snd (approveDriver users_email sch now driverId hospitalId db)
  end.

Definition service_steps (users_email : uuid -> string) (sch : Schema)
  (db : DB) (calls : list service_call) : DB :=
  fold_left (service_step users_email sch) calls db.

(** A call of [updateAvailabilityStatus]. *)
Definition declares_availability (call : service_call) : bool :=
  match call with
  | Core call => is_toggle call
  | Approve _ _ _ => false
  end.

(** A request with this key exists and no request with this key is
    [pending]. *)
Definition beyond_pending (requestId : uuid) (db : DB) : Prop :=
  (exists r, In r (emergency_requests db) /\ er_id r = requestId)
  /\ forall r, In r (emergency_requests db) -> er_id r = requestId ->
       er_status r <> "pending".

(** A driver with this key has an account and every driver with this key
    is approved. *)
Definition approved_already (driverId : uuid) (db : DB) : Prop :=
  (exists d u, In d (drivers db) /\ d_id d = driverId
               /\ In u (users db) /\ d_user_id d = u_id u)
  /\ forall d, In d (drivers db) -> d_id d = driverId -> d_is_approved d = true.

(** Every driver with this key is unavailable. *)
Definition unavailable (driverId : uuid) (db : DB) : Prop :=
  forall d, In d (drivers db) -> d_id d = driverId -> d_is_available d = false.

(** * Properties *)

(** ** Rows and tables *)

Lemma in_update_where {A} (p : A -> bool) (f : A -> A) (l : list A) (y : A) :
  In y (update_where p f l) <->
  exists x, In x l /\ y = (if p x then f x else x).
Proof.
  unfold update_where. rewrite in_map_iff.
  split; intros [x [H1 H2]]; exists x; auto.
Qed.

Lemma filter_head_in {A} (p : A -> bool) (l : list A) (x : A) (rest : list A) :
  filter p l = x :: rest -> In x l /\ p x = true.
Proof.
  intros H. apply filter_In. rewrite H. left; reflexivity.
Qed.

Lemma map_filter_head {A B} (f : A -> B) (p : A -> bool) (l : list A)
  (y : B) (rest : list B) :
  map f (filter p l) = y :: rest ->
  exists x, In x l /\ p x = true /\ f x = y.
Proof.
  destruct (filter p l) as [|x tl] eqn:E; [discriminate|].
  cbn. intros H. injection H as H _.
  exists x. destruct (filter_head_in _ _ _ _ E). auto.
Qed.

(** ** assignDriverToEmergency *)

(** A call to [assignDriverToEmergency] that returns has applied its three
    writes, and a call that throws has applied none. *)
Lemma assign_all_or_nothing
  (now : timestamp) (requestId hospitalId driverId : uuid) (db : DB) :
  match assignDriverToEmergency migration_001 now requestId hospitalId driverId db with
  | (inr response, db') =>
      assignment_applied now requestId driverId db
        (assign_assignmentId response) db'
  | (inl _, db') => db' = db
  end.
Proof.
  unfold assignDriverToEmergency, transaction, assignDriverToEmergency_body.
  cbn.
  destruct (map h_id _) as [|hospital hs]; cbn; [reflexivity|].
  destruct (map er_status _) as [|status ss] eqn:Erequest; cbn; [reflexivity|].
  destruct (String.eqb status "accepted"); cbn; [|reflexivity].
  destruct (flat_map _ _) as [|driver ds] eqn:Edriver; cbn; [reflexivity|].
  destruct (dr_is_available driver); cbn; [|reflexivity].
  apply map_filter_head in Erequest as [request [Hin [Hid _]]].
  apply andb_prop in Hid as [Hid _]. apply N.eqb_eq in Hid.
  assert (Hd : exists d, In d (drivers db) /\ d_id d = driverId).
  { assert (Hm : In driver (driver :: ds)) by (left; reflexivity).
    rewrite <- Edriver in Hm. apply in_flat_map in Hm as [d [Hd _]].
    apply filter_In in Hd as [Hd Hp].
    apply andb_prop in Hp as [Hp _]. apply andb_prop in Hp as [Hp _].
    apply N.eqb_eq in Hp. exists d; auto. }
  destruct Hd as [d [Hd Hdid]].
  unfold assignment_applied. repeat split.
  - exists (er_set_status "assigned" now request). split; [|exact Hid].
    apply in_update_where. exists request. split; [exact Hin|].
    rewrite Hid, N.eqb_refl. reflexivity.
  - intros r Hr Hrid. apply in_update_where in Hr as [x [_ Hx]].
    destruct (N.eqb (er_id x) requestId) eqn:E; subst r; [reflexivity|].
    apply N.eqb_neq in E. contradiction.
  - exists (d_set_available false now d). split; [|exact Hdid].
    apply in_update_where. exists d. split; [exact Hd|].
    rewrite Hdid, N.eqb_refl. reflexivity.
  - intros r Hr Hrid. apply in_update_where in Hr as [x [_ Hx]].
    destruct (N.eqb (d_id x) driverId) eqn:E; subst r; [reflexivity|].
    apply N.eqb_neq in E. contradiction.
Qed.

(** C5, as the code has it.  [assignDriverToEmergency] throws 404 when no
    hospital belongs to the calling account or the request is not bound to
    that hospital, 400 when the request is not [accepted], 404 when no
    approved and active driver has the given key, and 400 when that driver
    is unavailable; in each of these cases the store is unchanged.  In the
    remaining case it succeeds. *)
Theorem assignDriverToEmergency_outcome
  (now : timestamp) (requestId hospitalId driverId : uuid) (db : DB) :
  let result :=
    assignDriverToEmergency migration_001 now requestId hospitalId driverId db in
  match filter (fun h => N.eqb (h_user_id h) hospitalId) (hospitals db) with
  | [] => fails_with NotFound db result
  | hospital :: _ =>
      match
        filter
          (fun r =>
             N.eqb (er_id r) requestId
             && match er_hospital_id r with
                | Some h => N.eqb h (h_id hospital)
                | None => false
                end)
          (emergency_requests db)
      with
      | [] => fails_with NotFound db result
      | request :: _ =>
          if String.eqb (er_status request) "accepted"
          then
            match fst (sql_run (driverQuery driverId) db) with
            | [] => fails_with NotFound db result
            | driver :: _ =>
                if dr_is_available driver
                then succeeds_with (assigned now requestId driverId db) result
                else fails_with Conflict db result
            end
          else fails_with Conflict db result
      end
  end.
Proof.
  unfold assignDriverToEmergency, transaction, assignDriverToEmergency_body.
  cbn.
  destruct (filter _ (hospitals db)) as [|hospital hs]; cbn.
  { eexists; split; reflexivity. }
  destruct (filter _ (emergency_requests db)) as [|request rs]; cbn.
  { eexists; split; reflexivity. }
  destruct (String.eqb (er_status request) "accepted"); cbn.
  2: { eexists; split; reflexivity. }
  destruct (flat_map _ _) as [|driver ds]; cbn.
  { eexists; split; reflexivity. }
  destruct (dr_is_available driver); cbn.
  - eexists; reflexivity.
  - eexists; split; reflexivity.
Qed.

(** A driver that is not approved, or not active, is not among the rows of
    [driverQuery]. *)
Lemma driverQuery_unapproved (driverId : uuid) (db : DB) :
  (forall d, In d (drivers db) -> d_id d = driverId ->
             d_is_approved d && d_is_active d = false) ->
  fst (sql_run (driverQuery driverId) db) = [].
Proof.
  intros H. cbn.
  replace (filter _ (drivers db)) with (@nil drivers_row); [reflexivity|].
  symmetry. induction (drivers db) as [|d l IH]; [reflexivity|].
  cbn. destruct (N.eqb (d_id d) driverId) eqn:E; cbn.
  - apply N.eqb_eq in E. rewrite (H d (or_introl eq_refl) E).
    apply IH. intros d' Hd'. apply H. right; exact Hd'.
  - apply IH. intros d' Hd'. apply H. right; exact Hd'.
Qed.

(** C5, the counterexample.  Request 1 is accepted by the hospital of
    account 2 and driver 20 exists, available but not approved: the call
    throws 404, not 400. *)
Lemma assign_unapproved_driver_is_not_found :
  (exists r, In r (emergency_requests Example.unapproved)
             /\ er_id r = 1%N /\ er_hospital_id r = Some 10%N
             /\ er_status r = "accepted")
  /\ (exists d, In d (drivers Example.unapproved)
                /\ d_id d = 20%N /\ d_is_approved d = false)
  /\ assignDriverToEmergency migration_001 3 1%N 2%N 20%N Example.unapproved
     = (inl {| statusCode := 404;
               message := "Driver not found or not approved" |},
        Example.unapproved)
  /\ 404 <> Conflict.
Proof.
  split; [|split; [|split]].
  - eexists. split; [left; reflexivity|]. repeat split.
  - eexists. split; [left; reflexivity|]. repeat split.
  - vm_compute. reflexivity.
  - discriminate.
Qed.

(** ** acceptEmergencyRequest *)

(** C4, as the code has it.  [acceptEmergencyRequest] throws 404 when no
    request has the key, 400 when the request is not [pending], and 404 when
    no hospital belongs to the calling account, each time leaving the store
    unchanged; otherwise it binds the request to that hospital and sets its
    status to [accepted], and changes nothing else. *)
Theorem acceptEmergencyRequest_outcome
  (now : timestamp) (requestId hospitalId : uuid) (db : DB) :
  let result := acceptEmergencyRequest migration_001 now requestId hospitalId db in
  match filter (fun r => N.eqb (er_id r) requestId) (emergency_requests db) with
  | [] => fails_with NotFound db result
  | request :: _ =>
      if String.eqb (er_status request) "pending"
      then
        match filter (fun h => N.eqb (h_user_id h) hospitalId) (hospitals db) with
        | [] => fails_with NotFound db result
        | hospital :: _ =>
            succeeds_with (accepted now requestId (h_id hospital) db) result
            /\ forall r, In r (emergency_requests (accepted now requestId (h_id hospital) db)) ->
                 er_id r = requestId ->
                 er_status r = "accepted" /\ er_hospital_id r = Some (h_id hospital)
        end
      else fails_with Conflict db result
  end.
Proof.
  unfold acceptEmergencyRequest, transaction, acceptEmergencyRequest_body.
  cbn.
  destruct (filter _ (emergency_requests db)) as [|request rest]; cbn.
  { eexists; split; reflexivity. }
  destruct (String.eqb (er_status request) "pending"); cbn.
  2: { eexists; split; reflexivity. }
  destruct (filter _ (hospitals db)) as [|hospital rest']; cbn.
  { eexists; split; reflexivity. }
  split; [eexists; reflexivity|].
  intros r Hr Hid. apply in_update_where in Hr as [x [_ Hx]].
  destruct (N.eqb (er_id x) requestId) eqn:E; subst r; [split; reflexivity|].
  apply N.eqb_neq in E. contradiction.
Qed.

(** C4, the counterexample.  Request 1 is pending, and account 99 has no
    hospital: the call does not set the hospital and the status, it throws
    404. *)
Lemma accept_without_hospital_is_not_found :
  (exists r, In r (emergency_requests Example.pending)
             /\ er_id r = 1%N /\ er_status r = "pending")
  /\ acceptEmergencyRequest migration_001 2 1%N 99%N Example.pending
     = (inl {| statusCode := 404; message := "Hospital not found" |},
        Example.pending).
Proof.
  split.
  - eexists. split; [left; reflexivity|]. split; reflexivity.
  - vm_compute. reflexivity.
Qed.

(** ** updateAssignmentStatus *)

(** The relation [emergency_assignments] of the migration has neither the
    stamps [en_route_at] and [arrived_at] nor [updated_at], and its status
    type has neither [en_route] nor [arrived]. *)
Lemma migration_001_lacks_progress :
  has_column migration_001 ("emergency_assignments", "en_route_at") = false
  /\ has_column migration_001 ("emergency_assignments", "arrived_at") = false
  /\ has_column migration_001 ("emergency_assignments", "updated_at") = false
  /\ has_label migration_001 "en_route" = false
  /\ has_label migration_001 "arrived" = false
  /\ declares_progress migration_001 = false.
Proof. repeat split. Qed.

(** Whatever the target status, the store of the migration refuses the
    assignment update: its text always names [updated_at]. *)
Lemma updateAssignmentQuery_refused (status : string) (assignmentId : uuid)
  (now : timestamp) :
  accepts migration_001 (updateAssignmentQuery status assignmentId now) = false.
Proof.
  unfold accepts, updateAssignmentQuery, stamp_column. cbn [sql_columns sql_labels].
  destruct (String.eqb status "en_route"); [reflexivity|].
  destruct (String.eqb status "arrived"); [reflexivity|].
  destruct (String.eqb status "completed"); reflexivity.
Qed.

(** On the store of the migration no call to [updateAssignmentStatus]
    returns. *)
Lemma updateAssignmentStatus_never_returns
  (now : timestamp) (assignmentId driverId : uuid) (status : string) (db : DB) :
  exists e, updateAssignmentStatus migration_001 now assignmentId driverId status db
            = (inl e, db).
Proof.
  unfold updateAssignmentStatus, transaction, updateAssignmentStatus_body.
  cbn.
  destruct (map d_id _) as [|driver ds]; cbn; [eexists; reflexivity|].
  destruct (map _ (filter _ (emergency_assignments db))) as [|assignment rest];
    cbn; [eexists; reflexivity|].
  destruct (validStatusMap (ar_status assignment)) as [targets| |]; cbn;
    try (eexists; reflexivity).
  destruct (mem status targets); cbn; [|eexists; reflexivity].
  destruct (String.eqb status "en_route") eqn:E1; cbn.
  { rewrite updateAssignmentQuery_refused. eexists; reflexivity. }
  destruct (String.eqb status "arrived") eqn:E2; cbn.
  { rewrite updateAssignmentQuery_refused. eexists; reflexivity. }
  destruct (String.eqb status "completed") eqn:E3; cbn;
    rewrite updateAssignmentQuery_refused; eexists; reflexivity.
Qed.

(** The refusals do work on the store of the migration: for an assignment
    of the calling driver whose status is one of the chain, every target
    other than the next status of the chain makes the call throw 400, with
    the store unchanged. *)
Lemma updateAssignmentStatus_refuses
  (now : timestamp) (assignmentId driverId : uuid) (status : string) (db : DB) :
  let result :=
    updateAssignmentStatus migration_001 now assignmentId driverId status db in
  match filter (fun d => N.eqb (d_user_id d) driverId) (drivers db) with
  | [] => fails_with NotFound db result
  | driver :: _ =>
      match
        filter
          (fun a => N.eqb (ea_id a) assignmentId
                    && N.eqb (ea_driver_id a) (d_id driver))
          (emergency_assignments db)
      with
      | [] => fails_with NotFound db result
      | assignment :: _ =>
          mem (ea_status assignment)
            ["assigned"; "en_route"; "arrived"; "completed"] = true ->
          one_step_forward (ea_status assignment) status = false ->
          fails_with Conflict db result
      end
  end.
Proof.
  unfold updateAssignmentStatus, transaction, updateAssignmentStatus_body,
    fails_with.
  cbn.
  destruct (filter _ (drivers db)) as [|driver ds]; cbn.
  { eexists; split; reflexivity. }
  destruct (filter _ (emergency_assignments db)) as [|assignment rest]; cbn.
  { eexists; split; reflexivity. }
  unfold one_step_forward, validStatusMap.
  destruct (String.eqb (ea_status assignment) "assigned") eqn:S1.
  { apply String.eqb_eq in S1. rewrite S1. cbn. intros _ T.
    rewrite orb_false_r in T. rewrite T. cbn. eexists; split; reflexivity. }
  destruct (String.eqb (ea_status assignment) "en_route") eqn:S2.
  { apply String.eqb_eq in S2. rewrite S2. cbn. intros _ T.
    rewrite orb_false_r in T. rewrite T. cbn. eexists; split; reflexivity. }
  destruct (String.eqb (ea_status assignment) "arrived") eqn:S3.
  { apply String.eqb_eq in S3. rewrite S3. cbn. intros _ T.
    rewrite T. cbn. eexists; split; reflexivity. }
  cbn. rewrite orb_false_r. intros Hc _. apply String.eqb_eq in Hc.
  rewrite Hc. cbn. eexists; split; reflexivity.
Qed.

(** C2, the failing call.  Assignment 1 of driver 20 (account 3) has status
    [assigned], and [en_route] is one step forward: the store refuses the
    update, the transaction is rolled back and the call throws 500. *)
Lemma advance_to_en_route_is_rolled_back :
  (exists a, In a (emergency_assignments Example.assigned)
             /\ ea_id a = 1%N /\ ea_driver_id a = 20%N
             /\ ea_status a = "assigned")
  /\ one_step_forward "assigned" "en_route" = true
  /\ updateAssignmentStatus migration_001 4 1%N 3%N "en_route" Example.assigned
     = (inl {| statusCode := 500;
               message := "Failed to update assignment status" |},
        Example.assigned).
Proof.
  split; [|split].
  - eexists. split; [left; reflexivity|]. repeat split.
  - reflexivity.
  - vm_compute. reflexivity.
Qed.

(** C8, the failing calls.  After an assignment has been created, the three
    calls that should take it to [completed] change nothing: no stamp other
    than [assigned_at] is ever set. *)
Lemma progress_stamps_are_never_set :
  let db :=
    steps migration_001 Example.assigned
      [ (4, AdvanceAssignment 1%N 3%N "en_route");
        (5, AdvanceAssignment 1%N 3%N "arrived");
        (6, AdvanceAssignment 1%N 3%N "completed") ] in
  db = Example.assigned
  /\ map (fun a => (ea_status a, ea_assigned_at a, ea_en_route_at a,
                    ea_arrived_at a, ea_completed_at a))
       (emergency_assignments db)
     = [("assigned", Some 3, None, None, None)].
Proof. vm_compute. split; reflexivity. Qed.

(** *** The same calls on a store that declares the columns *)





Section Declared.

Variable sch : Schema.
Hypothesis declared : declares_progress sch = true.







End Declared.

(** The chain on a store that declares the columns: the three calls take
    the assignment to [completed], each stamps its own column, and the last
    one completes the request and releases the driver. *)
Lemma progress_on_declared_columns :
  let db :=
    steps Example.with_progress_columns Example.assigned
      [ (4, AdvanceAssignment 1%N 3%N "en_route");
        (5, AdvanceAssignment 1%N 3%N "arrived");
        (6, AdvanceAssignment 1%N 3%N "completed") ] in
  declares_progress Example.with_progress_columns = true
  /\ map (fun a => (ea_status a, ea_assigned_at a, ea_en_route_at a,
                    ea_arrived_at a, ea_completed_at a))
       (emergency_assignments db)
     = [("completed", Some 3, Some 4, Some 5, Some 6)]
  /\ map er_status (emergency_requests db) = ["completed"]
  /\ map d_is_available (drivers db) = [true].
Proof. vm_compute. repeat split. Qed.

(** ** What a call can do to the store *)

Lemma run_exec {A} (sch : Schema) (p : Prog A) (db : DB) (a : A) (db' : DB) :
  run sch p db = (inr a, db') -> exec p db = (inr a, db').
Proof.
  revert db. induction p as [x|e|R s k IH]; intros db; cbn.
  - auto.
  - discriminate.
  - destruct (accepts sch s); [|discriminate].
    destruct (sql_run s db) as [r db1]. apply IH.
Qed.

(** A transaction leaves the store as it was, or as its statements leave it
    when all of them run. *)
Lemma transaction_effect {A} (sch : Schema) (failure : string) (p : Prog A)
  (db : DB) :
  snd (transaction sch failure p db) = db
  \/ exists a, exec p db = (inr a, snd (transaction sch failure p db)).
Proof.
  unfold transaction.
  destruct (run sch p db) as [[e|a] db'] eqn:E; cbn; [left; reflexivity|].
  right. exists a. eapply run_exec; eassumption.
Qed.

Lemma exec_create (now : timestamp) (requestData : EmergencyRequestData)
  (db : DB) (a : EmergencyRequestResponse) (db' : DB) :
  exec (createEmergencyRequest_body now requestData) db = (inr a, db') ->
  db' = created now requestData db.
Proof. cbn. intros H. injection H as _ H. symmetry; exact H. Qed.

Lemma exec_accept (now : timestamp) (requestId hospitalId : uuid) (db : DB)
  (a : AcceptEmergencyResponse) (db' : DB) :
  exec (acceptEmergencyRequest_body now requestId hospitalId) db = (inr a, db') ->
  exists hospital, db' = accepted now requestId hospital db.
Proof.
  unfold acceptEmergencyRequest_body. cbn.
  destruct (map er_status _) as [|status ss]; cbn; [discriminate|].
  destruct (String.eqb status "pending"); cbn; [|discriminate].
  destruct (map h_id _) as [|hospital hs]; cbn; [discriminate|].
  intros H. injection H as _ H. exists hospital. symmetry; exact H.
Qed.

Lemma exec_assign (now : timestamp) (requestId hospitalId driverId : uuid)
  (db : DB) (a : AssignDriverResponse) (db' : DB) :
  exec (assignDriverToEmergency_body now requestId hospitalId driverId) db
  = (inr a, db') ->
  db' = assigned now requestId driverId db
  /\ exists driver, In driver (drivers db) /\ d_id driver = driverId
                    /\ d_is_available driver = true.
Proof.
  unfold assignDriverToEmergency_body. cbn.
  destruct (map h_id _) as [|hospital hs]; cbn; [discriminate|].
  destruct (map er_status _) as [|status ss]; cbn; [discriminate|].
  destruct (String.eqb status "accepted"); cbn; [|discriminate].
  destruct (flat_map _ _) as [|driver ds] eqn:Edriver; cbn; [discriminate|].
  destruct (dr_is_available driver) eqn:Eavailable; cbn; [|discriminate].
  intros H. injection H as _ H. split; [symmetry; exact H|].
  assert (Hm : In driver (driver :: ds)) by (left; reflexivity).
  rewrite <- Edriver in Hm. apply in_flat_map in Hm as [d [Hd Hu]].
  apply filter_In in Hd as [Hd Hp].
  apply andb_prop in Hp as [Hp _]. apply andb_prop in Hp as [Hp _].
  apply N.eqb_eq in Hp.
  apply in_map_iff in Hu as [u [Hu _]]. subst driver. cbn in Eavailable.
  exists d. auto.
Qed.

Lemma validStatusMap_own (current target : string) (targets : list string) :
  validStatusMap current = Own targets -> mem target targets = true ->
  non_terminal current = true
  /\ (target = "en_route" \/ target = "arrived" \/ target = "completed").
Proof.
  unfold validStatusMap, non_terminal.
  destruct (String.eqb current "assigned") eqn:S1.
  { intros H Hm. injection H as H. subst targets. cbn in Hm.
    rewrite orb_false_r in Hm. apply String.eqb_eq in Hm, S1. subst.
    split; [reflexivity|auto]. }
  destruct (String.eqb current "en_route") eqn:S2.
  { intros H Hm. injection H as H. subst targets. cbn in Hm.
    rewrite orb_false_r in Hm. apply String.eqb_eq in Hm, S2. subst.
    split; [reflexivity|auto]. }
  destruct (String.eqb current "arrived") eqn:S3.
  { intros H Hm. injection H as H. subst targets. cbn in Hm.
    rewrite orb_false_r in Hm. apply String.eqb_eq in Hm, S3. subst.
    split; [reflexivity|auto]. }
  destruct (mem current object_prototype); discriminate.
Qed.

Lemma exec_advance (now : timestamp) (assignmentId driverId : uuid)
  (status : string) (db : DB) (a : AssignmentStatusResponse) (db' : DB) :
  exec (updateAssignmentStatus_body now assignmentId driverId status) db
  = (inr a, db') ->
  exists driver assignment,
    In driver (drivers db) /\ In assignment (emergency_assignments db)
    /\ ea_id assignment = assignmentId
    /\ ea_driver_id assignment = d_id driver
    /\ non_terminal (ea_status assignment) = true
    /\ ((non_terminal status = true
         /\ db' = advanced now assignmentId status db)
        \/ db' = completed now assignmentId (d_id driver)
                   (ea_emergency_id assignment) db).
Proof.
  unfold updateAssignmentStatus_body. cbn.
  destruct (map d_id _) as [|driver ds] eqn:Edriver; cbn; [discriminate|].
  apply map_filter_head in Edriver as [d [Hd [_ Hdid]]]. subst driver.
  destruct (filter _ (emergency_assignments db)) as [|assignment rest] eqn:Ea;
    cbn; [discriminate|].
  apply filter_head_in in Ea as [Hin Hp].
  apply andb_prop in Hp as [Hid Hdr]. apply N.eqb_eq in Hid, Hdr.
  destruct (validStatusMap (ea_status assignment)) as [targets| |] eqn:Ev; cbn;
    try discriminate.
  destruct (mem status targets) eqn:Em; cbn; [|discriminate].
  destruct (validStatusMap_own _ _ _ Ev Em) as [Hnt Htarget].
  intros H. exists d, assignment. repeat (split; [assumption|]).
  destruct Htarget as [T|[T|T]]; subst status; cbn in H.
  - left. split; [reflexivity|].
    destruct (map _ (filter _ _)) as [|[s t] more]; cbn in H; try discriminate.
    injection H as _ H. symmetry; exact H.
  - left. split; [reflexivity|].
    destruct (map _ (filter _ _)) as [|[s t] more]; cbn in H; try discriminate.
    injection H as _ H. symmetry; exact H.
  - right.
    destruct (map _ (filter _ _)) as [|[s t] more]; cbn in H; try discriminate.
    injection H as _ H. symmetry; exact H.
Qed.

Lemma exec_toggle (now : timestamp) (driverId : uuid) (isAvailable : bool)
  (db : DB) (a : AvailabilityStatusResponse) (db' : DB) :
  exec (updateAvailabilityStatus_body now driverId isAvailable) db = (inr a, db') ->
  exists driver, db' = toggled now driver isAvailable db.
Proof.
  unfold updateAvailabilityStatus_body. cbn.
  destruct (map d_id _) as [|driver ds]; cbn; [discriminate|].
  intros H. exists driver.
  destruct isAvailable; cbn in H.
  - destruct (map _ (filter _ _)) as [|[b t] more]; cbn in H; try discriminate.
    injection H as _ H. symmetry; exact H.
  - match type of H with
    | exec (if ?c then _ else _) _ = _ => destruct c
    end; cbn in H; [discriminate|].
    destruct (map _ (filter _ _)) as [|[b t] more]; cbn in H; try discriminate.
    injection H as _ H. symmetry; exact H.
Qed.

Lemma step_effect (sch : Schema) (db : DB) (call : timestamp * operation) :
  if is_toggle call
  then step sch db call = db
       \/ exists now driver isAvailable,
            step sch db call = toggled now driver isAvailable db
  else dispatch_effect db (step sch db call).
Proof.
  destruct call as [now [requestData|requestId hospitalId
                        |requestId hospitalId driverId
                        |assignmentId driverId status|driverId isAvailable]];
    cbn [step is_toggle snd].
  - unfold createEmergencyRequest.
    destruct (run sch _ db) as [[e|a] db'] eqn:E; cbn; [constructor|].
    apply run_exec, exec_create in E. subst db'. constructor.
  - unfold acceptEmergencyRequest.
    destruct (transaction_effect sch "Failed to accept emergency request"
                (acceptEmergencyRequest_body now requestId hospitalId) db)
      as [H|[a H]]; [rewrite H; constructor|].
    apply exec_accept in H as [hospital H]. rewrite H. constructor.
  - unfold assignDriverToEmergency.
    destruct (transaction_effect sch "Failed to assign driver to emergency"
                (assignDriverToEmergency_body now requestId hospitalId driverId) db)
      as [H|[a H]]; [rewrite H; constructor|].
    apply exec_assign in H as [H [driver [Hd [Hid Hav]]]].
    rewrite H. subst driverId. constructor; assumption.
  - unfold updateAssignmentStatus.
    destruct (transaction_effect sch "Failed to update assignment status"
                (updateAssignmentStatus_body now assignmentId driverId status) db)
      as [H|[a H]]; [rewrite H; constructor|].
    apply exec_advance in H
      as [driver [assignment [Hd [Ha [Hid [Hdr [Hnt [[Hs H]|H]]]]]]]];
      rewrite H; subst assignmentId.
    + constructor; assumption.
    + constructor; assumption.
  - unfold updateAvailabilityStatus.
    destruct (transaction_effect sch "Failed to update driver availability status"
                (updateAvailabilityStatus_body now driverId isAvailable) db)
      as [H|[a H]].
    + left. exact H.
    + right. apply exec_toggle in H as [driver H]. rewrite H. eauto.
Qed.

(** ** What a connection publishes *)

(** What a program publishes at its [COMMIT] does not depend on what the
    other connections commit while it runs. *)
Lemma in_flight_publishes {A} (sch : Schema) (failure : string) (body : Prog A)
  (P : (DB -> DB) -> Prop) (c : connection A) :
  publishes P (fun db => db) body ->
  in_flight sch failure body c ->
  match c with
  | Open rest writes => publishes P writes rest
  | _ => True
  end.
Proof.
  intros HW H. induction H as [|committed c H IH]; [exact HW|].
  destruct c as [rest writes|a|e]; cbn; try exact I.
  destruct rest as [a|e|R s k]; cbn; try exact I.
  destruct (accepts sch s); cbn; [|exact I].
  destruct (sql_run s (writes committed)) as [r db1]. cbn.
  apply IH.
Qed.

(** Each step of a connection leaves the committed store as it is, or
    publishes all the writes of its program at once and ends. *)
Lemma advance_publishes {A} (sch : Schema) (failure : string)
  (P : (DB -> DB) -> Prop) (committed : DB) (c : connection A) :
  match c with
  | Open rest writes => publishes P writes rest
  | _ => True
  end ->
  fst (advance sch failure committed c) = committed
  \/ exists writes a,
       P writes
       /\ fst (advance sch failure committed c) = writes committed
       /\ snd (advance sch failure committed c) = Committed a.
Proof.
  destruct c as [rest writes|a|e]; cbn; auto.
  destruct rest as [a|e|R s k]; cbn; auto.
  - intros H. right. exists writes, a. auto.
  - intros _. destruct (accepts sch s); cbn; auto.
    destruct (sql_run s (writes committed)); cbn; auto.
Qed.

(** ** The completing call of updateAssignmentStatus *)






(** ** The status of a request is never [in_progress] *)

(** The status of a request after a call is the status it had before, or
    one of the four constants that the operations write. *)
Lemma effect_request_status (db db' : DB) :
  dispatch_effect db db' ->
  forall r, In r (emergency_requests db') ->
    (exists r0, In r0 (emergency_requests db) /\ er_status r0 = er_status r)
    \/ In (er_status r) ["pending"; "accepted"; "assigned"; "completed"].
Proof.
  intros E r Hr. destruct E; cbn in Hr.
  - left. eauto.
  - apply in_app_iff in Hr as [Hr|[Hr|[]]]; [left; eauto|].
    subst r. right. cbn. auto.
  - apply in_update_where in Hr as [x [Hx Hr]].
    destruct (N.eqb (er_id x) requestId); subst r;
      [right; cbn; auto|left; eauto].
  - apply in_update_where in Hr as [x [Hx Hr]].
    destruct (N.eqb (er_id x) requestId); subst r;
      [right; cbn; auto|left; eauto].
  - left. eauto.
  - apply in_update_where in Hr as [x [Hx Hr]].
    destruct (N.eqb (er_id x) (ea_emergency_id assignment)); subst r;
      [right; cbn; auto 6|left; eauto].
Qed.

Lemma effect_no_in_progress (db db' : DB) :
  dispatch_effect db db' -> no_in_progress db -> no_in_progress db'.
Proof.
  intros E H r Hr.
  destruct (effect_request_status db db' E r Hr) as [[r0 [H0 E0]]|Hw].
  - rewrite <- E0. apply H. exact H0.
  - cbn in Hw. intros Es. rewrite Es in Hw.
    destruct Hw as [Hw|[Hw|[Hw|[Hw|[]]]]]; discriminate.
Qed.

(** C10.  Whatever the store declares and whatever calls are made, in any
    order and with any arguments, if no request has the status
    [in_progress] before the calls then none has it after them:
    [createEmergencyRequest] writes [pending], [acceptEmergencyRequest]
    [accepted], [assignDriverToEmergency] [assigned] and the completing
    [updateAssignmentStatus] [completed]. *)
Theorem in_progress_unreachable
  (sch : Schema) (calls : list (timestamp * operation)) (db : DB) :
  no_in_progress db -> no_in_progress (steps sch db calls).
Proof.
  unfold steps. revert db.
  induction calls as [|call calls IH]; intros db H; cbn; [exact H|].
  apply IH. pose proof (step_effect sch db call) as E.
  destruct (is_toggle call).
  - destruct E as [E|[now [driver [b E]]]]; rewrite E; exact H.
  - eapply effect_no_in_progress; eassumption.
Qed.

(** One call of every kind on a store without requests. *)
Lemma in_progress_unreachable_witness :
  no_in_progress (steps migration_001 Example.registered Example.lifecycle).
Proof.
  apply (in_progress_unreachable migration_001 Example.lifecycle
           Example.registered).
  intros r []. 
Defined.

(** ** Availability and assignments *)

Lemma NoDup_map_injective {A B} (f : A -> B) (l : list A) (x y : A) :
  NoDup (map f l) -> In x l -> In y l -> f x = f y -> x = y.
Proof.
  induction l as [|z l IH]; [contradiction|].
  cbn. intros N Hx Hy E. apply NoDup_cons_iff in N as [Hz N].
  destruct Hx as [Hx|Hx], Hy as [Hy|Hy]; subst; auto.
  - exfalso. apply Hz. rewrite E. apply in_map. exact Hy.
  - exfalso. apply Hz. rewrite <- E. apply in_map. exact Hx.
Qed.

Lemma fresh_above (keys : list uuid) (k : uuid) :
  In k keys -> (k < fresh keys)%N.
Proof.
  unfold fresh. induction keys as [|x keys IH]; [contradiction|].
  cbn. intros [H|H]; [subst; lia|]. specialize (IH H). lia.
Qed.

Lemma fresh_is_new (keys : list uuid) : ~ In (fresh keys) keys.
Proof. intros H. apply fresh_above in H. lia. Qed.

Lemma map_id_update_where (f : emergency_assignments_row -> emergency_assignments_row)
  (p : emergency_assignments_row -> bool) (l : list emergency_assignments_row) :
  (forall a, ea_id (f a) = ea_id a) ->
  map ea_id (update_where p f l) = map ea_id l.
Proof.
  intros H. unfold update_where. rewrite map_map. apply map_ext.
  intros a. destruct (p a); auto.
Qed.

(** With distinct keys, an update by key rewrites one row. *)
Lemma update_where_unique (g : emergency_assignments_row -> emergency_assignments_row)
  (l : list emergency_assignments_row) (x : emergency_assignments_row) :
  NoDup (map ea_id l) -> In x l ->
  exists l1 l2,
    l = (l1 ++ x :: l2)%list
    /\ update_where (fun a => N.eqb (ea_id a) (ea_id x)) g l
       = (l1 ++ g x :: l2)%list.
Proof.
  intros N Hx. destruct (in_split _ _ Hx) as [l1 [l2 E]].
  exists l1, l2. split; [exact E|]. subst l.
  assert (Hother : forall y, In y (l1 ++ l2)%list -> N.eqb (ea_id y) (ea_id x) = false).
  { intros y Hy. apply N.eqb_neq. intros Eid.
    rewrite map_app in N. cbn in N. apply NoDup_remove_2 in N.
    apply N. rewrite <- map_app, <- Eid. apply in_map. exact Hy. }
  unfold update_where. rewrite map_app. cbn. rewrite N.eqb_refl.
  f_equal; [|f_equal].
  - rewrite <- (map_id l1) at 2. apply map_ext_in. intros y Hy.
    rewrite Hother; [reflexivity|]. apply in_or_app; left; exact Hy.
  - rewrite <- (map_id l2) at 2. apply map_ext_in. intros y Hy.
    rewrite Hother; [reflexivity|]. apply in_or_app; right; exact Hy.
Qed.

Lemma count_after_update (g : emergency_assignments_row -> emergency_assignments_row)
  (db : DB) (x : emergency_assignments_row) (driver : uuid) :
  NoDup (map ea_id (emergency_assignments db)) ->
  In x (emergency_assignments db) ->
  (List.length
     (filter (active_for driver)
        (update_where (fun a => N.eqb (ea_id a) (ea_id x)) g
           (emergency_assignments db)))
   + (if active_for driver x then 1 else 0)
   = active_assignments db driver + (if active_for driver (g x) then 1 else 0))%nat.
Proof.
  intros N Hx. unfold active_assignments. fold (active_for driver).
  destruct (update_where_unique g _ x N Hx) as [l1 [l2 [E1 E2]]].
  rewrite E2, E1. rewrite !filter_app. cbn.
  destruct (active_for driver x), (active_for driver (g x));
    rewrite !length_app; cbn; lia.
Qed.

Lemma coupled_assigned (now : timestamp) (requestId : uuid)
  (driver : drivers_row) (db : DB) :
  In driver (drivers db) -> d_is_available driver = true ->
  availability_coupled db ->
  availability_coupled (assigned now requestId (d_id driver) db).
Proof.
  intros Hd Hav [N H]. split.
  - cbn. rewrite map_app. apply NoDup_app; [exact N| |].
    + cbn. constructor; [intros []|constructor].
    + cbn. intros k Hk [Hf|[]]. subst k. exact (fresh_is_new _ Hk).
  - intros d' Hd'. cbn in Hd'. apply in_update_where in Hd' as [x [Hx E]].
    assert (C : forall k,
               active_assignments (assigned now requestId (d_id driver) db) k
               = (active_assignments db k
                  + if N.eqb (d_id driver) k then 1 else 0)%nat).
    { intros k. unfold active_assignments. cbn.
      rewrite filter_app, length_app. cbn. unfold active_for. cbn.
      destruct (N.eqb (d_id driver) k); cbn; reflexivity. }
    rewrite C. destruct (N.eqb (d_id x) (d_id driver)) eqn:Eid; subst d'.
    + apply N.eqb_eq in Eid. cbn. rewrite Eid, N.eqb_refl.
      rewrite (H driver Hd), Hav. reflexivity.
    + rewrite N.eqb_sym, Eid. rewrite (H x Hx). lia.
Qed.

Lemma coupled_advanced (now : timestamp) (assignment : emergency_assignments_row)
  (status : string) (db : DB) :
  In assignment (emergency_assignments db) ->
  non_terminal (ea_status assignment) = true ->
  non_terminal status = true ->
  availability_coupled db ->
  availability_coupled (advanced now (ea_id assignment) status db).
Proof.
  intros Ha Hnt Hs [N H]. split.
  - cbn. rewrite map_id_update_where; [exact N|reflexivity].
  - intros d Hd. cbn in Hd. rewrite <- (H d Hd).
    pose proof (count_after_update (ea_advance status now) db assignment
                  (d_id d) N Ha) as C.
    unfold active_for in C at 2 3.
    cbn [ea_advance ea_status ea_driver_id] in C. rewrite Hnt, Hs in C.
    unfold active_assignments at 1, advanced.
    cbn [emergency_assignments with_assignments]. fold (active_for (d_id d)).
    lia.
Qed.

Lemma coupled_completed (now : timestamp) (assignment : emergency_assignments_row)
  (driver : drivers_row) (db : DB) :
  In assignment (emergency_assignments db) ->
  In driver (drivers db) ->
  ea_driver_id assignment = d_id driver ->
  non_terminal (ea_status assignment) = true ->
  availability_coupled db ->
  availability_coupled
    (completed now (ea_id assignment) (d_id driver)
       (ea_emergency_id assignment) db).
Proof.
  intros Ha Hd Edr Hnt [N H]. split.
  - cbn. rewrite map_id_update_where; [exact N|reflexivity].
  - intros d' Hd'. cbn in Hd'. apply in_update_where in Hd' as [x [Hx E]].
    assert (C : forall k,
               (active_assignments
                  (completed now (ea_id assignment) (d_id driver)
                     (ea_emergency_id assignment) db) k
                + (if N.eqb (d_id driver) k then 1 else 0)
                = active_assignments db k)%nat).
    { intros k.
      pose proof (count_after_update (ea_advance "completed" now) db assignment
                    k N Ha) as C.
      unfold active_for in C at 2 3.
      cbn [ea_advance ea_status ea_driver_id] in C.
      change (non_terminal "completed") with false in C.
      rewrite Hnt, Edr, andb_true_r, andb_false_r in C.
      unfold active_assignments at 1, completed.
      cbn [emergency_assignments]. fold (active_for k). lia. }
    destruct (N.eqb (d_id x) (d_id driver)) eqn:Eid; subst d'.
    + apply N.eqb_eq in Eid. cbn [d_id d_is_available d_set_available].
      rewrite Eid. specialize (C (d_id driver)). rewrite N.eqb_refl in C.
      specialize (H driver Hd). destruct (d_is_available driver); lia.
    + specialize (C (d_id x)). rewrite N.eqb_sym, Eid in C.
      rewrite <- (H x Hx). lia.
Qed.

Lemma effect_coupled (db db' : DB) :
  dispatch_effect db db' -> availability_coupled db -> availability_coupled db'.
Proof.
  intros E H. destruct E.
  - exact H.
  - exact H.
  - exact H.
  - apply coupled_assigned; assumption.
  - apply coupled_advanced; assumption.
  - apply coupled_completed; assumption.
Qed.

(** C7, as the code has it.  Start from a store in which every available
    driver holds no assignment that is not terminal and every unavailable
    driver holds exactly one.  After any sequence of calls to
    [createEmergencyRequest], [acceptEmergencyRequest],
    [assignDriverToEmergency] and [updateAssignmentStatus], with no call to
    [updateAvailabilityStatus] among them, every unavailable driver holds
    exactly one assignment that is not terminal, and every driver that holds
    none is available. *)
Theorem availability_coupled_without_toggle
  (sch : Schema) (calls : list (timestamp * operation)) (db : DB) :
  availability_coupled db ->
  existsb is_toggle calls = false ->
  forall d, In d (drivers (steps sch db calls)) ->
    (d_is_available d = false ->
     active_assignments (steps sch db calls) (d_id d) = 1%nat)
    /\ (active_assignments (steps sch db calls) (d_id d) = 0%nat ->
        d_is_available d = true).
Proof.
  intros H Hcalls.
  assert (I : availability_coupled (steps sch db calls)).
  { unfold steps. revert db H.
    induction calls as [|call calls IH]; intros db H; cbn; [exact H|].
    cbn in Hcalls. apply orb_false_elim in Hcalls as [Hcall Hcalls].
    apply IH; [exact Hcalls|].
    pose proof (step_effect sch db call) as E. rewrite Hcall in E.
    eapply effect_coupled; eassumption. }
  intros d Hd. destruct I as [_ I]. specialize (I d Hd).
  destruct (d_is_available d); split; intros; try congruence; lia.
Qed.

(** ** findNearbyHospitals *)

Section Matcher.

Variable calculateDistance : Q -> Q -> Q -> Q -> Js.number.

Lemma leb_not_NaN (a b : Js.number) : Js.leb a b = true -> a <> Js.NaN.
Proof. destruct a; cbn; congruence. Qed.

(** On numbers other than [NaN] the comparison function of the sort
    agrees with [<=]. *)
Lemma minus_sign_total (a b : Js.number) :
  a <> Js.NaN -> b <> Js.NaN ->
  match Js.minus_sign a b with
  | Js.Positive => Js.leb b a = true
  | _ => Js.leb a b = true
  end.
Proof.
  destruct a as [| |p|], b as [| |q|]; cbn; try congruence; intros _ _.
  destruct (Qcompare p q) eqn:E.
  - apply Qle_bool_iff. apply Qeq_alt in E. rewrite E. apply Qle_refl.
  - apply Qle_bool_iff. apply Qlt_alt in E. apply Qlt_le_weak. exact E.
  - apply Qle_bool_iff. apply Qgt_alt in E. apply Qlt_le_weak. exact E.
Qed.

Lemma in_sort_insert (x y : NearbyHospital) (l : list NearbyHospital) :
  In y (Js.sort_insert by_distance x l) <-> y = x \/ In y l.
Proof.
  induction l as [|z l IH]; cbn.
  - intuition congruence.
  - destruct (by_distance x z); cbn; rewrite ?IH; intuition congruence.
Qed.

Lemma in_sort (y : NearbyHospital) (l : list NearbyHospital) :
  In y (Js.sort by_distance l) <-> In y l.
Proof.
  induction l as [|x l IH]; cbn; [reflexivity|].
  rewrite in_sort_insert, IH. intuition congruence.
Qed.

Lemma sort_insert_sorted (x : NearbyHospital) (l : list NearbyHospital) :
  nh_distance x <> Js.NaN ->
  (forall y, In y l -> nh_distance y <> Js.NaN) ->
  Sorted closer l -> Sorted closer (Js.sort_insert by_distance x l).
Proof.
  intros Hx. induction l as [|z l IH]; intros Hl S; cbn.
  - constructor; constructor.
  - pose proof (minus_sign_total (nh_distance x) (nh_distance z) Hx
                  (Hl z (or_introl eq_refl))) as T.
    unfold by_distance.
    destruct (Js.minus_sign (nh_distance x) (nh_distance z));
      try (constructor; [exact S|constructor; exact T]).
    apply Sorted_inv in S as [S Hd].
    constructor.
    + apply IH; [|exact S]. intros y Hy. apply Hl. right; exact Hy.
    + destruct l as [|w l]; cbn.
      * constructor. exact T.
      * destruct (Js.minus_sign (nh_distance x) (nh_distance w)); constructor;
          try exact T; apply HdRel_inv in Hd; exact Hd.
Qed.

Lemma sort_sorted (l : list NearbyHospital) :
  (forall y, In y l -> nh_distance y <> Js.NaN) ->
  Sorted closer (Js.sort by_distance l).
Proof.
  induction l as [|x l IH]; intros Hl; cbn; [constructor|].
  apply sort_insert_sorted.
  - apply Hl. left; reflexivity.
  - intros y Hy. apply Hl. right. apply (proj1 (in_sort y l)). exact Hy.
  - apply IH. intros y Hy. apply Hl. right; exact Hy.
Qed.

Lemma in_firstn {A} (n : nat) (l : list A) (x : A) :
  In x (firstn n l) -> In x l.
Proof.
  revert l. induction n as [|n IH]; intros [|y l]; cbn; try contradiction.
  intros [H|H]; [left; exact H|right; apply IH; exact H].
Qed.

Lemma firstn_sorted {A} (R : A -> A -> Prop) (n : nat) (l : list A) :
  Sorted R l -> Sorted R (firstn n l).
Proof.
  revert l. induction n as [|n IH]; intros [|y l] S; cbn; try constructor.
  - apply IH. apply Sorted_inv in S as [S _]. exact S.
  - apply Sorted_inv in S as [_ Hd].
    destruct n, l; cbn; constructor. apply HdRel_inv in Hd. exact Hd.
Qed.

Lemma in_slice0 {A} (l : list A) (final : Z) (x : A) :
  In x (Js.slice0 l final) -> In x l.
Proof. apply in_firstn. Qed.

Lemma slice0_length {A} (l : list A) (final : Z) :
  0 <= final -> Z.of_nat (List.length (Js.slice0 l final)) <= final.
Proof.
  intros H. unfold Js.slice0.
  destruct (Z.ltb_spec final 0) as [H'|_]; [lia|].
  rewrite length_firstn. lia.
Qed.

Lemma accepts_nearbyQuery : accepts migration_001 nearbyQuery = true.
Proof. reflexivity. Qed.

(** C6.  For every store, pickup point and maximal distance and for every
    limit, which is a count and so not negative,
    [findNearbyHospitals] returns a list; each of its members is an
    active hospital of the store with both coordinates, carries the
    distance from the pickup point to those coordinates, and that
    distance is at most the maximal one; the list is in order of
    distance and has at most [limit] members. *)
Theorem findNearbyHospitals_sound
  (latitude longitude : Q) (maxDistance : Js.number) (limit : Z) (db : DB) :
  0 <= limit ->
  exists nearbyHospitals,
    findNearbyHospitals calculateDistance migration_001
      latitude longitude maxDistance limit db = inr nearbyHospitals
    /\ (forall n, In n nearbyHospitals ->
          exists h, In h (hospitals db)
                    /\ h_id h = nh_id n
                    /\ h_is_active h = true
                    /\ h_latitude h = Some (nh_latitude n)
                    /\ h_longitude h = Some (nh_longitude n)
                    /\ nh_distance n
                       = calculateDistance latitude longitude
                           (nh_latitude n) (nh_longitude n))
    /\ (forall n, In n nearbyHospitals ->
          Js.leb (nh_distance n) maxDistance = true)
    /\ Sorted closer nearbyHospitals
    /\ Z.of_nat (List.length nearbyHospitals) <= limit.
Proof.
  intros Hlimit. unfold findNearbyHospitals, findNearbyHospitals_body.
  cbn [run]. rewrite accepts_nearbyQuery.
  cbn [sql_run nearbyQuery select]. cbn [run].
  eexists. split; [reflexivity|].
  unfold nearby. fold by_distance.
  set (rows := flat_map _ (hospitals db)).
  set (inside := filter _ (map (to_nearby calculateDistance latitude longitude) rows)).
  assert (Hinside : forall n, In n inside ->
            Js.leb (nh_distance n) maxDistance = true
            /\ exists r, In r rows
                         /\ n = to_nearby calculateDistance latitude longitude r).
  { intros n Hn. apply filter_In in Hn as [Hn Hle]. split; [exact Hle|].
    apply in_map_iff in Hn as [r [E Hr]]. exists r. auto. }
  split; [|split; [|split]].
  - intros n Hn. apply in_slice0 in Hn. apply (proj1 (in_sort _ _)) in Hn.
    apply Hinside in Hn as [_ [r [Hr E]]].
    apply in_flat_map in Hr as [h [Hh Hr]].
    exists h. split; [exact Hh|].
    destruct (h_is_active h), (h_latitude h) as [la|], (h_longitude h) as [lo|];
      cbn in Hr; try contradiction.
    destruct Hr as [Hr|[]]. subst r n. cbn. repeat split.
  - intros n Hn. apply in_slice0 in Hn. apply (proj1 (in_sort _ _)) in Hn.
    apply Hinside in Hn as [Hle _]. exact Hle.
  - apply firstn_sorted, sort_sorted.
    intros n Hn. apply Hinside in Hn as [Hle _].
    eapply leb_not_NaN; exact Hle.
  - apply slice0_length. exact Hlimit.
Qed.

End Matcher.

(** Two hospitals at the pickup point, within 50 km and with the default
    limit of 10. *)
Lemma findNearbyHospitals_sound_witness :
  exists nearbyHospitals,
    findNearbyHospitals Example.distance_at_pickup migration_001
      (0 # 1) (0 # 1) (Js.Fin (50 # 1)) 10 Example.two_hospitals
    = inr nearbyHospitals
    /\ (forall n, In n nearbyHospitals ->
          exists h, In h (hospitals Example.two_hospitals)
                    /\ h_id h = nh_id n
                    /\ h_is_active h = true
                    /\ h_latitude h = Some (nh_latitude n)
                    /\ h_longitude h = Some (nh_longitude n)
                    /\ nh_distance n
                       = Example.distance_at_pickup (0 # 1) (0 # 1)
                           (nh_latitude n) (nh_longitude n))
    /\ (forall n, In n nearbyHospitals ->
          Js.leb (nh_distance n) (Js.Fin (50 # 1)) = true)
    /\ Sorted closer nearbyHospitals
    /\ Z.of_nat (List.length nearbyHospitals) <= 10.
Proof.
  apply (findNearbyHospitals_sound Example.distance_at_pickup
           (0 # 1) (0 # 1) (Js.Fin (50 # 1)) 10 Example.two_hospitals).
  lia.
Defined.

(** ** Availability: the counterexample and the witness *)

(** Declaring oneself available is always allowed: the call returns for
    every driver account, whatever assignments the driver holds. *)
Lemma declaring_available_returns (now : timestamp) (driverId : uuid) (db : DB) :
  match filter (fun d => N.eqb (d_user_id d) driverId) (drivers db) with
  | [] =>
      fails_with NotFound db
        (updateAvailabilityStatus migration_001 now driverId true db)
  | driver :: _ =>
      succeeds_with (toggled now (d_id driver) true db)
        (updateAvailabilityStatus migration_001 now driverId true db)
  end.
Proof.
  unfold updateAvailabilityStatus, transaction, updateAvailabilityStatus_body,
    fails_with, succeeds_with.
  cbn.
  destruct (filter _ (drivers db)) as [|driver ds] eqn:E; cbn.
  { eexists; split; reflexivity. }
  apply filter_head_in in E as [Hin _].
  assert (R : exists more,
             map (fun d => (d_is_available d, d_updated_at d))
               (filter (fun d => N.eqb (d_id d) (d_id driver))
                  (update_where (fun d => N.eqb (d_id d) (d_id driver))
                     (d_set_available true now) (drivers db)))
             = (true, now) :: more).
  { revert Hin. unfold update_where.
    induction (drivers db) as [|x l IH]; [contradiction|].
    intros Hin. cbn.
    destruct (N.eqb (d_id x) (d_id driver)) eqn:Ex; cbn.
    - rewrite Ex. cbn. eexists; reflexivity.
    - rewrite Ex. destruct Hin as [Hx|Hin].
      + subst x. rewrite N.eqb_refl in Ex. discriminate.
      + apply IH. exact Hin. }
  destruct R as [more R]. rewrite R. cbn. eexists; reflexivity.
Qed.

(** Declaring oneself unavailable reads the assignments with
    [status IN ('assigned', 'en_route', 'arrived')]; the status type of the
    migration has two of these labels missing, so that call never returns
    on its store, while on a store with the labels it returns for a driver
    that holds no assignment. *)
Lemma declaring_unavailable :
  (forall now driverId db,
      exists e,
        updateAvailabilityStatus migration_001 now driverId false db = (inl e, db))
  /\ succeeds_with (toggled 1 20%N false Example.registered)
       (updateAvailabilityStatus Example.with_progress_columns 1 3%N false
          Example.registered).
Proof.
  split.
  - intros now driverId db.
    unfold updateAvailabilityStatus, transaction, updateAvailabilityStatus_body.
    cbn. destruct (map d_id _) as [|driver ds]; cbn; eexists; reflexivity.
  - eexists. vm_compute. reflexivity.
Qed.

(** C7, the counterexample.  The store [registered] couples availability
    and assignments.  The driver is assigned to a first request, declares
    itself available, which is always allowed, and is assigned to a second
    request: it is unavailable and holds two assignments that are not
    terminal. *)
Lemma double_booking_breaks_exactly_one :
  let db := steps migration_001 Example.registered Example.double_booking in
  availability_coupled Example.registered
  /\ exists d, In d (drivers db)
               /\ d_is_available d = false
               /\ active_assignments db (d_id d) = 2%nat.
Proof.
  split.
  - split; [constructor|]. intros d [<-|[]]. reflexivity.
  - eexists. split; [left; reflexivity|]. split; reflexivity.
Qed.

(** After a request has been created, accepted and assigned, the driver is
    unavailable and holds one assignment. *)
Lemma availability_coupled_without_toggle_witness :
  active_assignments Example.assigned 20%N = 1%nat.
Proof.
  refine
    (proj1
       (availability_coupled_without_toggle migration_001
          [ (1, CreateRequest Example.requestData);
            (2, AcceptRequest 1%N 2%N);
            (3, AssignDriver 1%N 2%N 20%N) ]
          Example.registered _ _
          {| d_id := 20%N; d_user_id := 3%N; d_is_available := false;
             d_is_active := true; d_is_approved := true; d_updated_at := 3 |}
          _)
       _).
  - split; [constructor|]. intros d [<-|[]]. reflexivity.
  - reflexivity.
  - left. reflexivity.
  - reflexivity.
Defined.

(** ** Transactions side by side *)

(** A transaction that runs while no other connection commits ends as
    [transaction] says, and until its [COMMIT] the committed store is the
    one it started from. *)
Lemma advance_alone {A} (sch : Schema) (failure : string) (body : Prog A)
  (db : DB) (n : nat) :
  match
    Nat.iter n (fun state => advance sch failure (fst state) (snd state))
      (db, begin body)
  with
  | (committed, Open rest writes) =>
      committed = db /\ run sch rest (writes db) = run sch body db
  | (committed, Committed a) =>
      transaction sch failure body db = (inr a, committed)
  | (committed, RolledBack e) =>
      transaction sch failure body db = (inl e, committed) /\ committed = db
  end.
Proof.
  induction n as [|n IH].
  - cbn. auto.
  - rewrite Nat.iter_succ.
    destruct (Nat.iter n _ _) as [committed [rest writes|a|e]]; cbn [fst snd].
    + destruct IH as [-> IH].
      destruct rest as [a|e|R s k]; cbn in *.
      * unfold transaction. rewrite <- IH. reflexivity.
      * unfold transaction. rewrite <- IH. auto.
      * destruct (accepts sch s); cbn.
        -- destruct (sql_run s (writes db)) as [r db1] eqn:E. cbn.
           rewrite E. cbn. auto.
        -- unfold transaction. rewrite <- IH. auto.
    + exact IH.
    + exact IH.
Qed.

(** Every path of [assignDriverToEmergency] to its [COMMIT] has made the
    three writes and no other. *)
Lemma assign_publishes (now : timestamp) (requestId hospitalId driverId : uuid) :
  publishes (assigns now requestId driverId) (fun db => db)
    (assignDriverToEmergency_body now requestId hospitalId driverId).
Proof.
  unfold assignDriverToEmergency_body, assigns. cbn [publishes].
  intros [|hospital hs]; [exact I|]. cbn [publishes].
  intros [|status ss]; [exact I|].
  destruct (negb (String.eqb status "accepted")); [exact I|]. cbn [publishes].
  intros [|driver ds]; [exact I|].
  destruct (negb (dr_is_available driver)); [exact I|]. cbn [publishes].
  intros _ assignmentId _ db. reflexivity.
Qed.

(** C1.  When the account has a hospital, the request is bound to that
    hospital and [accepted], and the driver is approved, active and
    available, [assignDriverToEmergency] returns, and the store it leaves
    is the one it found with the three writes.  Every call that returns
    has added one assignment for the request, with status [assigned] and
    [assigned_at] the time of the call, has set the status of the request
    to [assigned] and has made the driver unavailable, and it has changed
    nothing else; a call that throws leaves the store as it found it.
    While the call runs alone, the committed store, which is all that
    another connection can read, is the store the call started from or
    that store with the three writes.  Whatever other connections commit
    between the statements of the call, each step of its connection
    leaves the committed store as it is, or adds the three writes to it
    at once, at [COMMIT]. *)
Theorem assignDriverToEmergency_atomic
  (now : timestamp) (requestId hospitalId driverId : uuid) (db : DB) :
  let call :=
    assignDriverToEmergency migration_001 now requestId hospitalId driverId db in
  (forall hospital request driver,
      hd_error (filter (fun h => N.eqb (h_user_id h) hospitalId) (hospitals db))
      = Some hospital ->
      hd_error
        (filter
           (fun r =>
              N.eqb (er_id r) requestId
              && match er_hospital_id r with
                 | Some h => N.eqb h (h_id hospital)
                 | None => false
                 end)
           (emergency_requests db))
      = Some request ->
      er_status request = "accepted" ->
      hd_error (fst (sql_run (driverQuery driverId) db)) = Some driver ->
      dr_is_available driver = true ->
      exists response,
        call = (inr response, assigned now requestId driverId db)
        /\ assign_requestId response = requestId
        /\ asd_id (assign_driver response) = driverId
        /\ assignment_applied now requestId driverId db
             (assign_assignmentId response) (assigned now requestId driverId db))
  /\ match call with
     | (inr response, db') =>
         assignment_applied now requestId driverId db
           (assign_assignmentId response) db'
     | (inl _, db') => db' = db
     end
  /\ (forall n,
        let seen :=
          observed migration_001 "Failed to assign driver to emergency"
            (assignDriverToEmergency_body now requestId hospitalId driverId) db n in
        seen = db \/ seen = assigned now requestId driverId db)
  /\ (forall caller committed,
        in_flight migration_001 "Failed to assign driver to emergency"
          (assignDriverToEmergency_body now requestId hospitalId driverId)
          caller ->
        let after :=
          advance migration_001 "Failed to assign driver to emergency"
            committed caller in
        fst after = committed
        \/ (fst after = assigned now requestId driverId committed
            /\ exists response, snd after = Committed response)).
Proof.
  cbn zeta.
  pose proof (assign_all_or_nothing now requestId hospitalId driverId db) as T.
  split; [|split; [exact T|split]].
  - intros hospital request driver Hh Hr Hs Hd Ha.
    revert T.
    unfold assignDriverToEmergency, transaction, assignDriverToEmergency_body.
    cbn in Hd |- *.
    destruct (filter _ (hospitals db)) as [|h hs]; [discriminate|].
    injection Hh as ->. cbn.
    destruct (filter _ (emergency_requests db)) as [|r rs]; [discriminate|].
    injection Hr as ->. cbn. rewrite Hs. cbn.
    destruct (flat_map _ _) as [|d ds] eqn:Ed; [discriminate|].
    injection Hd as ->. cbn. rewrite Ha. cbn.
    intros T. eexists. split; [reflexivity|]. cbn.
    split; [reflexivity|]. split; [|exact T].
    assert (Hm : In driver (driver :: ds)) by (left; reflexivity).
    rewrite <- Ed in Hm. apply in_flat_map in Hm as [d [Hin Hu]].
    apply filter_In in Hin as [_ Hp].
    apply andb_prop in Hp as [Hp _]. apply andb_prop in Hp as [Hp _].
    apply N.eqb_eq in Hp.
    apply in_map_iff in Hu as [u [Hu _]]. subst driver. exact Hp.
  - intros n. unfold observed.
    pose proof (advance_alone migration_001 "Failed to assign driver to emergency"
                  (assignDriverToEmergency_body now requestId hospitalId driverId)
                  db n) as H.
    unfold assignDriverToEmergency in T.
    destruct (Nat.iter n _ _) as [committed [rest writes|a|e]]; cbn [fst].
    + left. apply H.
    + right. rewrite H in T. apply T.
    + left. apply H.
  - intros c committed Hc.
    destruct (advance_publishes migration_001
                "Failed to assign driver to emergency"
                (assigns now requestId driverId) committed c)
      as [H|[writes [a [Hw [H Ha]]]]].
    + eapply in_flight_publishes; [|exact Hc]. apply assign_publishes.
    + left. exact H.
    + right. rewrite H, Ha, Hw. eauto.
Qed.

(** The hospital of account 2 assigns driver 20 to request 1 of
    [Example.accepted]: the call returns and leaves [Example.assigned]. *)
Lemma assignDriverToEmergency_atomic_witness :
  exists response,
    assignDriverToEmergency migration_001 3 1%N 2%N 20%N Example.accepted
    = (inr response, Example.assigned)
    /\ assign_requestId response = 1%N
    /\ asd_id (assign_driver response) = 20%N
    /\ assignment_applied 3 1%N 20%N Example.accepted
         (assign_assignmentId response) Example.assigned.
Proof.
  refine (proj1 (assignDriverToEmergency_atomic 3 1%N 2%N 20%N Example.accepted)
            _ _ _ _ _ _ _ _);
    reflexivity.
Defined.

(** When the first transaction ends before the second begins, the second
    finds the request accepted and throws 400. *)
Lemma accepts_one_after_the_other :
  match
    interleave migration_001 "Failed to accept emergency request"
      Race.one_after_the_other Example.two_hospitals
      Race.first_accept Race.second_accept
  with
  | (db, Committed _, RolledBack e) =>
      statusCode e = Conflict
      /\ map (fun r => (er_status r, er_hospital_id r)) (emergency_requests db)
         = [("accepted", Some 10%N)]
  | _ => False
  end.
Proof. vm_compute. split; reflexivity. Qed.

(** C9, the failing schedules.  Two hospital accounts accept the same
    pending request and both read its status before either writes: both
    calls return, and the request is left bound to the second hospital.
    Two callers assign the same available driver to the same accepted
    request and both run their checks before either writes: both calls
    return, and the request has two assignments. *)
Lemma racing_calls_both_return :
  match
    interleave migration_001 "Failed to accept emergency request"
      Race.both_read_first Example.two_hospitals
      Race.first_accept Race.second_accept
  with
  | (db, Committed _, Committed _) =>
      map (fun r => (er_status r, er_hospital_id r)) (emergency_requests db)
      = [("accepted", Some 11%N)]
  | _ => False
  end
  /\ match
       interleave migration_001 "Failed to assign driver to emergency"
         Race.both_check_first Example.accepted
         Race.first_assign Race.second_assign
     with
     | (db, Committed r1, Committed r2) =>
         assign_assignmentId r1 <> assign_assignmentId r2
         /\ map (fun a => (ea_emergency_id a, ea_driver_id a, ea_status a))
              (emergency_assignments db)
            = [(1%N, 20%N, "assigned"); (1%N, 20%N, "assigned")]
     | _ => False
     end.
Proof. vm_compute. split; [reflexivity|]. split; [discriminate|reflexivity]. Qed.

(** * Further properties of the services *)

(** ** Ordered, joined and paged rows *)

Lemma filter_update_where {A} (p : A -> bool) (f : A -> A) (l : list A) :
  (forall x, p (f x) = p x) ->
  filter p (update_where p f l) = map f (filter p l).
Proof.
  intros Hp. unfold update_where. induction l as [|x l IH]; [reflexivity|].
  cbn. destruct (p x) eqn:E.
  - rewrite Hp, E. cbn. rewrite IH. reflexivity.
  - rewrite E. exact IH.
Qed.

Lemma in_insert_by {A} (le : A -> A -> bool) (x y : A) (l : list A) :
  In y (insert_by le x l) <-> y = x \/ In y l.
Proof.
  induction l as [|z l IH]; cbn.
  - split; [intros [H|[]]; auto|intros [H|[]]; auto].
  - destruct (le x z); cbn.
    + split; [intros [H|H]; auto|intros [H|H]; auto].
    + rewrite IH. split.
      * intros [H|[H|H]]; auto.
      * intros [H|[H|H]]; auto.
Qed.

Lemma in_order_by {A} (le : A -> A -> bool) (y : A) (l : list A) :
  In y (order_by le l) <-> In y l.
Proof.
  unfold order_by. induction l as [|x l IH]; cbn; [reflexivity|].
  rewrite in_insert_by, IH. split; intros [H|H]; auto.
Qed.

Lemma insert_by_sorted {A} (le : A -> A -> bool) (x : A) (l : list A) :
  (forall a b, le a b = false -> le b a = true) ->
  Sorted (fun a b => le a b = true) l ->
  Sorted (fun a b => le a b = true) (insert_by le x l).
Proof.
  intros total. induction l as [|y l IH]; cbn; intros S.
  - constructor; constructor.
  - destruct (le x y) eqn:E.
    + constructor; [exact S|]. constructor. exact E.
    + apply Sorted_inv in S as [S Hd]. constructor; [apply IH; exact S|].
      destruct l as [|z l]; cbn.
      * constructor. apply total. exact E.
      * destruct (le x z); constructor.
        -- apply total. exact E.
        -- apply HdRel_inv in Hd. exact Hd.
Qed.

(** [ORDER BY] with a total order gives an ordered list. *)
Lemma order_by_sorted {A} (le : A -> A -> bool) (l : list A) :
  (forall a b, le a b = false -> le b a = true) ->
  Sorted (fun a b => le a b = true) (order_by le l).
Proof.
  intros total. unfold order_by. induction l as [|x l IH]; cbn.
  - constructor.
  - apply insert_by_sorted; assumption.
Qed.

Lemma Sorted_map {A B} (f : A -> B) (R : B -> B -> Prop) (l : list A) :
  Sorted (fun a b => R (f a) (f b)) l -> Sorted R (map f l).
Proof.
  induction l as [|x l IH]; cbn; intros S; [constructor|].
  apply Sorted_inv in S as [S Hd]. constructor; [apply IH; exact S|].
  destruct l as [|y l]; cbn; constructor. apply HdRel_inv in Hd. exact Hd.
Qed.

Lemma Sorted_weaken {A} (R R' : A -> A -> Prop) (l : list A) :
  (forall a b, R a b -> R' a b) -> Sorted R l -> Sorted R' l.
Proof.
  intros HR. induction l as [|x l IH]; intros S; [constructor|].
  apply Sorted_inv in S as [S Hd]. constructor; [apply IH; exact S|].
  destruct l as [|y l]; constructor. apply HdRel_inv in Hd. apply HR. exact Hd.
Qed.

(** Rows ordered by a timestamp, newest first. *)
Lemma order_by_newest {A} (at_ : A -> timestamp) (l : list A) :
  newest_to_oldest at_
    (order_by (fun a b => newest_first (at_ a) (at_ b)) l).
Proof.
  unfold newest_to_oldest.
  apply Sorted_weaken with (R := fun a b => newest_first (at_ a) (at_ b) = true).
  - unfold newest_first. intros a b H. apply Z.leb_le. exact H.
  - apply order_by_sorted. unfold newest_first. intros a b H.
    apply Z.leb_gt in H. apply Z.leb_le. lia.
Qed.

(** The first row of an ordered list comes before every row of the list. *)
Lemma order_by_head {A} (le : A -> A -> bool) (l : list A) (x : A) (rest : list A) :
  (forall a, le a a = true) ->
  (forall a b, le a b = false -> le b a = true) ->
  (forall a b c, le a b = true -> le b c = true -> le a c = true) ->
  order_by le l = x :: rest ->
  In x l /\ forall y, In y l -> le x y = true.
Proof.
  intros Hrefl Htotal Htrans E. split.
  - apply (in_order_by le). rewrite E. left; reflexivity.
  - intros y Hy. apply (in_order_by le) in Hy. rewrite E in Hy.
    destruct Hy as [<-|Hy]; [apply Hrefl|].
    pose proof (order_by_sorted le l Htotal) as S. rewrite E in S.
    apply Sorted_StronglySorted in S.
    + apply StronglySorted_inv in S as [_ F].
      rewrite Forall_forall in F. apply F. exact Hy.
    + intros a b c. apply Htrans.
Qed.

Lemma in_skipn {A} (n : nat) (l : list A) (x : A) :
  In x (skipn n l) -> In x l.
Proof.
  revert l. induction n as [|n IH]; intros [|y l]; cbn; auto.
Qed.

Lemma skipn_sorted {A} (R : A -> A -> Prop) (n : nat) (l : list A) :
  Sorted R l -> Sorted R (skipn n l).
Proof.
  revert l. induction n as [|n IH]; intros [|x l] S; cbn; auto.
  apply IH. apply Sorted_inv in S as [S _]. exact S.
Qed.

Lemma limit_offset_length {A} (limit offset : Z) (rows : list A) :
  0 <= limit -> Z.of_nat (List.length (limit_offset limit offset rows)) <= limit.
Proof.
  intros H. unfold limit_offset.
  pose proof (firstn_le_length (Z.to_nat limit) (skipn (Z.to_nat offset) rows)).
  lia.
Qed.

Lemma in_limit_offset {A} (limit offset : Z) (rows : list A) (x : A) :
  In x (limit_offset limit offset rows) -> In x rows.
Proof.
  unfold limit_offset. intros H.
  apply (in_skipn (Z.to_nat offset)).
  apply (in_firstn (Z.to_nat limit)). exact H.
Qed.

Lemma limit_offset_sorted {A} (R : A -> A -> Prop) (limit offset : Z)
  (rows : list A) :
  Sorted R rows -> Sorted R (limit_offset limit offset rows).
Proof.
  intros S. unfold limit_offset. apply firstn_sorted. apply skipn_sorted.
  exact S.
Qed.

(** For a page number and a page size that are positive, with a product
    of at most [2^53], the store accepts [LIMIT] and [OFFSET]. *)
Lemma await_page_exact {R A} (page limit : Z) (s : statement R)
  (k : R -> Prog A) :
  exact_page page limit ->
  await_page limit ((page - 1) * limit) s k = Await s k.
Proof.
  intros [Hp [Hl Hpl]]. unfold await_page.
  assert (Hbig : 2 ^ 53 < 2 ^ 63) by reflexivity.
  replace (limit <? 0) with false by (symmetry; apply Z.ltb_ge; lia).
  replace ((page - 1) * limit <? 0) with false
    by (symmetry; apply Z.ltb_ge; nia).
  replace (2 ^ 63 <=? limit) with false
    by (symmetry; apply Z.leb_gt; nia).
  replace (2 ^ 63 <=? (page - 1) * limit) with false
    by (symmetry; apply Z.leb_gt; nia).
  reflexivity.
Qed.

Lemma in_left_join {B} (matching : list B) (x : B) :
  In (Some x) (left_join matching) <-> In x matching.
Proof.
  destruct matching as [|y l]; cbn.
  - split; [intros [H|[]]; discriminate|intros []].
  - split.
    + intros [H|H]; [injection H as H; auto|].
      apply in_map_iff in H as [z [Hz H]]. injection Hz as Hz. subst z. auto.
    + intros [H|H]; [left; congruence|right; apply in_map; exact H].
Qed.

Lemma left_join_not_empty {B} (matching : list B) : left_join matching <> [].
Proof. destruct matching; discriminate. Qed.

Lemma request_assignment_not_empty (db : DB) (er : emergency_requests_row) :
  exists j, In j (request_assignment db er).
Proof.
  unfold request_assignment.
  destruct (left_join _) as [|j l] eqn:E.
  - apply left_join_not_empty in E. destruct E.
  - exists j. left; reflexivity.
Qed.

(** A joined driver comes with an assignment of the request. *)
Lemma in_request_assignment (db : DB) (er : emergency_requests_row)
  (ea : emergency_assignments_row) (d : drivers_row) (u : option users_row) :
  In (Some (ea, Some (d, u))) (request_assignment db er) ->
  In ea (emergency_assignments db) /\ ea_emergency_id ea = er_id er
  /\ In d (drivers db) /\ d_id d = ea_driver_id ea.
Proof.
  unfold request_assignment. intros H. apply (proj1 (in_left_join _ _)) in H.
  apply in_flat_map in H as [a [Ha H]].
  apply filter_In in Ha as [Ha Hid]. apply N.eqb_eq in Hid.
  unfold assignment_driver in H. apply in_map_iff in H as [j [Hj H]].
  injection Hj as -> ->. apply (proj1 (in_left_join _ _)) in H.
  apply in_flat_map in H as [x [Hx H]].
  apply filter_In in Hx as [Hx Hd]. apply N.eqb_eq in Hd.
  unfold driver_account in H. apply in_map_iff in H as [y [Hy _]].
  injection Hy as -> _. auto.
Qed.

Lemma request_hospital_not_empty (db : DB) (er : emergency_requests_row) :
  exists h hs, request_hospital db er = h :: hs.
Proof.
  unfold request_hospital. destruct (left_join _) as [|h hs] eqn:E.
  - apply left_join_not_empty in E. destruct E.
  - eauto.
Qed.

Lemma in_request_hospital (db : DB) (er : emergency_requests_row)
  (h : hospitals_row) :
  In (Some h) (request_hospital db er) <->
  In h (hospitals db) /\ er_hospital_id er = Some (h_id h).
Proof.
  unfold request_hospital. rewrite in_left_join, filter_In.
  destruct (er_hospital_id er) as [x|].
  - rewrite N.eqb_eq. split; intros [H1 H2]; split; congruence.
  - split; intros [_ H]; discriminate.
Qed.

(** ** Requests, acceptances and assignments one after the other *)

(** X1.  A call to [createEmergencyRequest] that returns has added exactly
    one request to the store: its key is one that no request carried
    before, it belongs to the requester, it is [pending], it is bound to no
    hospital and it is stamped with the time of the call; the response
    carries that key and status.  No other request and no other relation
    is touched. *)
Theorem createEmergencyRequest_effect
  (now : timestamp) (requestData : EmergencyRequestData) (db db' : DB)
  (response : EmergencyRequestResponse) :
  createEmergencyRequest migration_001 now requestData db = (inr response, db') ->
  create_status response = "pending"
  /\ create_createdAt response = now
  /\ ~ In (create_requestId response) (map er_id (emergency_requests db))
  /\ (exists row,
         emergency_requests db' = (emergency_requests db ++ [row])%list
         /\ er_id row = create_requestId response
         /\ er_user_id row = userId requestData
         /\ er_status row = "pending"
         /\ er_hospital_id row = None
         /\ er_pickup_address row = pickupAddress requestData
         /\ er_created_at row = now
         /\ er_updated_at row = now)
  /\ users db' = users db
  /\ hospitals db' = hospitals db
  /\ drivers db' = drivers db
  /\ emergency_assignments db' = emergency_assignments db.
Proof.
  cbn. intros H. injection H as <- <-. cbn.
  split; [reflexivity|]. split; [reflexivity|].
  split; [apply fresh_is_new|].
  split; [|repeat split].
  eexists. split; [reflexivity|]. cbn. repeat split.
Qed.

(** The first request of [Example.registered]. *)
Lemma createEmergencyRequest_effect_witness :
  let response :=
    {| create_message := "Emergency request created successfully";
       create_requestId := 1%N;
       create_status := "pending";
       create_createdAt := 1 |} in
  create_status response = "pending"
  /\ create_createdAt response = 1
  /\ ~ In (create_requestId response)
         (map er_id (emergency_requests Example.registered))
  /\ (exists row,
         emergency_requests Example.pending
         = (emergency_requests Example.registered ++ [row])%list
         /\ er_id row = create_requestId response
         /\ er_user_id row = userId Example.requestData
         /\ er_status row = "pending"
         /\ er_hospital_id row = None
         /\ er_pickup_address row = pickupAddress Example.requestData
         /\ er_created_at row = 1
         /\ er_updated_at row = 1)
  /\ users Example.pending = users Example.registered
  /\ hospitals Example.pending = hospitals Example.registered
  /\ drivers Example.pending = drivers Example.registered
  /\ emergency_assignments Example.pending
     = emergency_assignments Example.registered.
Proof.
  apply (createEmergencyRequest_effect 1 Example.requestData
           Example.registered Example.pending).
  reflexivity.
Defined.

Lemma drivers_order_total (a b : AvailableDriver) :
  drivers_order a b = false -> drivers_order b a = true.
Proof.
  unfold drivers_order.
  destruct (ad_isAvailable a), (ad_isAvailable b); cbn; try congruence;
    destruct (ad_lastAssignment a) as [x|], (ad_lastAssignment b) as [y|];
    try congruence; intros H; apply Z.leb_gt in H; apply Z.leb_le; lia.
Qed.

(** X3.  The [availableDrivers] that a successful [acceptEmergencyRequest]
    returns are the approved and active drivers that have an account,
    all of them: each entry mirrors the availability of its driver, so
    the list holds unavailable drivers as well, and the available ones
    come first. *)
Theorem accepting_lists_the_approved_drivers
  (now : timestamp) (requestId hospitalId : uuid) (db db' : DB)
  (response : AcceptEmergencyResponse) :
  acceptEmergencyRequest migration_001 now requestId hospitalId db
  = (inr response, db') ->
  (forall a, In a (accept_availableDrivers response) ->
     exists d u, In d (drivers db) /\ In u (users db)
                 /\ d_user_id d = u_id u
                 /\ d_id d = ad_id a
                 /\ d_is_approved d = true /\ d_is_active d = true
                 /\ d_is_available d = ad_isAvailable a)
  /\ (forall d u, In d (drivers db) -> In u (users db) ->
        d_user_id d = u_id u ->
        d_is_approved d = true -> d_is_active d = true ->
        exists a, In a (accept_availableDrivers response)
                  /\ ad_id a = d_id d /\ ad_isAvailable a = d_is_available d)
  /\ available_first (accept_availableDrivers response).
Proof.
  unfold acceptEmergencyRequest, transaction, acceptEmergencyRequest_body.
  cbn. intros H.
  destruct (filter _ (emergency_requests db)) as [|request rest]; cbn in H;
    [discriminate|].
  destruct (String.eqb (er_status request) "pending"); cbn in H; [|discriminate].
  destruct (filter _ (hospitals db)) as [|hospital hs]; cbn in H; [discriminate|].
  injection H as H _. subst response. cbn. split; [|split].
  - intros a Ha. apply in_order_by in Ha.
    apply in_flat_map in Ha as [d [Hd Ha]].
    apply filter_In in Hd as [Hd Hp]. apply andb_prop in Hp as [Happ Hact].
    apply in_map_iff in Ha as [u [Ha Hu]].
    apply filter_In in Hu as [Hu Hj]. apply N.eqb_eq in Hj.
    exists d, u. subst a. cbn. repeat split; auto.
  - intros d u Hd Hu Hj Happ Hact. eexists. split.
    + apply in_order_by. apply in_flat_map. exists d. split.
      * apply filter_In. split; [exact Hd|]. rewrite Happ, Hact. reflexivity.
      * apply in_map_iff. exists u. split; [reflexivity|].
        apply filter_In. split; [exact Hu|]. apply N.eqb_eq. exact Hj.
    + split; reflexivity.
  - unfold available_first.
    apply Sorted_weaken with (R := fun a b => drivers_order a b = true).
    + unfold drivers_order. intros a b Hab Hb. rewrite Hb in Hab.
      destruct (ad_isAvailable a); [reflexivity|exact Hab].
    + apply order_by_sorted. apply drivers_order_total.
Qed.

(** The acceptance of request 1 of [Example.pending] lists driver 20. *)
Lemma accepting_lists_the_approved_drivers_witness :
  let response :=
    {| accept_message := "Emergency request accepted successfully";
       accept_requestId := 1%N;
       accept_availableDrivers :=
         [ {| ad_id := 20%N; ad_name := "Dan Roe"; ad_isAvailable := true;
              ad_lastAssignment := None |} ] |} in
  (forall a, In a (accept_availableDrivers response) ->
     exists d u, In d (drivers Example.pending) /\ In u (users Example.pending)
                 /\ d_user_id d = u_id u
                 /\ d_id d = ad_id a
                 /\ d_is_approved d = true /\ d_is_active d = true
                 /\ d_is_available d = ad_isAvailable a)
  /\ (forall d u, In d (drivers Example.pending) -> In u (users Example.pending) ->
        d_user_id d = u_id u ->
        d_is_approved d = true -> d_is_active d = true ->
        exists a, In a (accept_availableDrivers response)
                  /\ ad_id a = d_id d /\ ad_isAvailable a = d_is_available d)
  /\ available_first (accept_availableDrivers response).
Proof.
  apply (accepting_lists_the_approved_drivers 2 1%N 2%N Example.pending
           Example.accepted).
  reflexivity.
Defined.

Lemma unavailable_after_update (driverId : uuid) (now : timestamp)
  (l : list drivers_row) (d : drivers_row) :
  In d (update_where (fun d => N.eqb (d_id d) driverId)
          (d_set_available false now) l) ->
  d_id d = driverId -> d_is_available d = false.
Proof.
  intros Hin Hid. apply in_update_where in Hin as [x [_ Hx]].
  destruct (N.eqb (d_id x) driverId) eqn:E; subst d; [reflexivity|].
  apply N.eqb_neq in E. contradiction.
Qed.

Lemma assignDriverToEmergency_effect
  (now : timestamp) (requestId hospitalId driverId : uuid) (db db' : DB) :
  succeeds_with db'
    (assignDriverToEmergency migration_001 now requestId hospitalId driverId db) ->
  db' = assigned now requestId driverId db.
Proof.
  intros [response H]. unfold assignDriverToEmergency, transaction in H.
  destruct (run _ _ db) as [[e|a] db0] eqn:R; [discriminate|].
  apply run_exec in R. apply exec_assign in R as [R _].
  injection H as _ H. congruence.
Qed.

Lemma filter_account_update (account driverId : uuid) (b : bool)
  (now : timestamp) (l : list drivers_row) :
  filter (fun d => N.eqb (d_user_id d) account)
    (update_where (fun d => N.eqb (d_id d) driverId) (d_set_available b now) l)
  = map (fun d => if N.eqb (d_id d) driverId then d_set_available b now d else d)
      (filter (fun d => N.eqb (d_user_id d) account) l).
Proof.
  unfold update_where. induction l as [|d l IH]; [reflexivity|].
  cbn [map filter].
  destruct (N.eqb (d_id d) driverId) eqn:E; cbn [d_user_id d_set_available];
    destruct (N.eqb (d_user_id d) account); cbn [map]; rewrite ?E, IH;
    reflexivity.
Qed.

(** X5.  [updateAvailabilityStatus(true)] does not look at the
    assignments of the driver: right after [assignDriverToEmergency] has
    returned, the call of the driver's account returns as well, and then
    the driver is available again while it still holds the assignment
    that is under way. *)
Theorem released_driver_keeps_its_assignment
  (now now' : timestamp) (requestId hospitalId driverId account : uuid)
  (db db1 : DB) :
  succeeds_with db1
    (assignDriverToEmergency migration_001 now requestId hospitalId driverId db) ->
  (exists driver rest,
      filter (fun d => N.eqb (d_user_id d) account) (drivers db) = driver :: rest
      /\ d_id driver = driverId) ->
  exists db2,
    succeeds_with db2
      (updateAvailabilityStatus migration_001 now' account true db1)
    /\ (forall d, In d (drivers db2) -> d_id d = driverId ->
          d_is_available d = true)
    /\ (1 <= active_assignments db2 driverId)%nat.
Proof.
  intros H [driver [rest [Hacc Hid]]].
  apply assignDriverToEmergency_effect in H. subst db1.
  pose proof (declaring_available_returns now' account
                (assigned now requestId driverId db)) as Hret.
  assert (Hfirst : filter (fun d => N.eqb (d_user_id d) account)
                     (drivers (assigned now requestId driverId db))
                   = map (fun d => if N.eqb (d_id d) driverId
                                   then d_set_available false now d else d)
                       (driver :: rest)).
  { rewrite <- Hacc. apply filter_account_update. }
  rewrite Hfirst in Hret. cbn [map] in Hret.
  replace (d_id (if N.eqb (d_id driver) driverId
                 then d_set_available false now driver else driver))
    with driverId in Hret
    by (destruct (N.eqb (d_id driver) driverId); cbn; congruence).
  eexists. split; [exact Hret|]. split.
  - intros d Hd Hdid. cbn in Hd. apply in_update_where in Hd as [x [_ Hx]].
    destruct (N.eqb (d_id x) driverId) eqn:Ex; subst d; [reflexivity|].
    apply N.eqb_neq in Ex. contradiction.
  - unfold active_assignments.
    cbn [emergency_assignments toggled with_drivers assigned].
    rewrite filter_app, length_app. cbn [filter].
    unfold active_for at 2. cbn [new_assignment ea_driver_id ea_status].
    rewrite N.eqb_refl. cbn. lia.
Qed.

(** Driver 20, the driver of account 3, right after its assignment to
    request 1. *)
Lemma released_driver_keeps_its_assignment_witness :
  exists db2,
    succeeds_with db2
      (updateAvailabilityStatus migration_001 4 3%N true Example.assigned)
    /\ (forall d, In d (drivers db2) -> d_id d = 20%N ->
          d_is_available d = true)
    /\ (1 <= active_assignments db2 20%N)%nat.
Proof.
  apply (released_driver_keeps_its_assignment 3 4 1%N 2%N 20%N 3%N
           Example.accepted Example.assigned).
  - eexists. vm_compute. reflexivity.
  - eexists. eexists. split; reflexivity.
Defined.

(** ** updateAssignmentStatus: what it refuses *)

(** X6.  [updateAssignmentStatus] refuses every transition that is not
    the next step of the chain: for an assignment of the calling driver
    with status [assigned], [en_route], [arrived] or [completed], a
    target other than the next status makes the call throw 400, and the
    store stays as it is. *)
Theorem skipping_or_reversing_is_refused
  (now : timestamp) (assignmentId driverId : uuid) (status : string) (db : DB)
  (driver : drivers_row) (drivers' : list drivers_row)
  (assignment : emergency_assignments_row)
  (assignments' : list emergency_assignments_row) :
  filter (fun d => N.eqb (d_user_id d) driverId) (drivers db)
  = driver :: drivers' ->
  filter
    (fun a => N.eqb (ea_id a) assignmentId && N.eqb (ea_driver_id a) (d_id driver))
    (emergency_assignments db)
  = assignment :: assignments' ->
  In (ea_status assignment) ["assigned"; "en_route"; "arrived"; "completed"] ->
  one_step_forward (ea_status assignment) status = false ->
  fails_with Conflict db
    (updateAssignmentStatus migration_001 now assignmentId driverId status db).
Proof.
  intros Hdriver Hassignment Hchain Hstep.
  pose proof (updateAssignmentStatus_refuses now assignmentId driverId status db)
    as H.
  cbn zeta in H. rewrite Hdriver, Hassignment in H.
  apply H; [|exact Hstep].
  unfold mem. cbn [existsb].
  destruct Hchain as [<-|[<-|[<-|[<-|[]]]]]; reflexivity.
Qed.

(** Assignment 1 of driver 20 is [assigned]; its driver asks for
    [completed]. *)
Lemma skipping_or_reversing_is_refused_witness :
  fails_with Conflict Example.assigned
    (updateAssignmentStatus migration_001 4 1%N 3%N "completed" Example.assigned).
Proof.
  eapply (skipping_or_reversing_is_refused 4 1%N 3%N "completed"
            Example.assigned).
  - reflexivity.
  - reflexivity.
  - left. reflexivity.
  - reflexivity.
Defined.

(** X7.  A driver cannot touch the assignment of another driver: when
    no assignment with the key belongs to the driver of the calling
    account, [updateAssignmentStatus] throws 404, whatever the target
    status, and the store stays as it is. *)
Theorem foreign_assignment_is_not_found
  (now : timestamp) (assignmentId driverId : uuid) (status : string) (db : DB)
  (driver : drivers_row) (drivers' : list drivers_row) :
  filter (fun d => N.eqb (d_user_id d) driverId) (drivers db)
  = driver :: drivers' ->
  (forall a, In a (emergency_assignments db) -> ea_id a = assignmentId ->
             ea_driver_id a <> d_id driver) ->
  fails_with NotFound db
    (updateAssignmentStatus migration_001 now assignmentId driverId status db).
Proof.
  intros Hdriver Hforeign.
  pose proof (updateAssignmentStatus_refuses now assignmentId driverId status db)
    as H.
  cbn zeta in H. rewrite Hdriver in H.
  destruct (filter _ (emergency_assignments db)) as [|a rest] eqn:E;
    [exact H|].
  apply filter_head_in in E as [Hin Hp]. apply andb_prop in Hp as [Hid Hd].
  apply N.eqb_eq in Hid, Hd. exfalso. exact (Hforeign a Hin Hid Hd).
Qed.

(** Assignment 1 belongs to driver 20; the account of driver 21 asks to
    advance it. *)
Lemma foreign_assignment_is_not_found_witness :
  fails_with NotFound Fleet.two_drivers
    (updateAssignmentStatus migration_001 4 1%N 5%N "en_route" Fleet.two_drivers).
Proof.
  eapply (foreign_assignment_is_not_found 4 1%N 5%N "en_route"
            Fleet.two_drivers).
  - reflexivity.
  - intros a [<-|[]] _. discriminate.
Defined.

(** ** approveDriver and getHospitalDrivers *)

Section DriverColumns.

Variable users_email : uuid -> string.
Variable drivers_license_number : uuid -> string.
Variable drivers_created_at : uuid -> timestamp.

Lemma approvalQuery_rows (driverId : uuid) (db : DB) :
  fst (sql_run (approvalQuery users_email driverId) db) <> [] ->
  exists d u, In d (drivers db) /\ d_id d = driverId
              /\ In u (users db) /\ d_user_id d = u_id u.
Proof.
  cbn. intros H.
  destruct (flat_map _ _) as [|r rs] eqn:E; [contradiction|].
  assert (Hm : In r (r :: rs)) by (left; reflexivity).
  rewrite <- E in Hm. apply in_flat_map in Hm as [d [Hd Hu]].
  apply filter_In in Hd as [Hd Hid]. apply N.eqb_eq in Hid.
  apply in_map_iff in Hu as [u [_ Hu]].
  apply filter_In in Hu as [Hu Hj]. apply N.eqb_eq in Hj.
  exists d, u. auto.
Qed.

(** X8.  [approveDriver] throws 404 when no driver with the key has an
    account and 400 when the driver is approved already, each time
    leaving the store unchanged.  Otherwise it returns the key, name and
    email of the driver, and every driver row with that key is approved;
    the availability and the activity of every driver stay as they were
    and the other drivers are untouched.  The hospital account of the
    caller plays no part. *)
Theorem approveDriver_outcome
  (now : timestamp) (driverId hospitalId : uuid) (db : DB) :
  let result := approveDriver users_email migration_001 now driverId hospitalId db in
  match fst (sql_run (approvalQuery users_email driverId) db) with
  | [] => fails_with NotFound db result
  | driver :: _ =>
      if apr_is_approved driver
      then fails_with Conflict db result
      else
        fst result
        = inr {| approve_message := "Driver approved successfully";
                 approve_driverId := driverId;
                 approve_name :=
                   apr_first_name driver ++ " " ++ apr_last_name driver;
                 approve_email := apr_email driver |}
        /\ snd result = approved now driverId db
        /\ (forall d, In d (drivers (snd result)) -> d_id d = driverId ->
              d_is_approved d = true)
        /\ map (fun d => (d_id d, d_user_id d, d_is_available d, d_is_active d))
             (drivers (snd result))
           = map (fun d => (d_id d, d_user_id d, d_is_available d, d_is_active d))
               (drivers db)
        /\ (forall d, In d (drivers db) -> d_id d <> driverId ->
              In d (drivers (snd result)))
  end.
Proof.
  unfold approveDriver, transaction, approveDriver_body, fails_with. cbn.
  destruct (flat_map _ _) as [|driver ds] eqn:E; cbn.
  { eexists; split; reflexivity. }
  destruct (apr_is_approved driver) eqn:Ea; cbn.
  { eexists; split; reflexivity. }
  assert (Hid : apr_id driver = driverId).
  { assert (Hm : In driver (driver :: ds)) by (left; reflexivity).
    rewrite <- E in Hm. apply in_flat_map in Hm as [d [Hd Hu]].
    apply filter_In in Hd as [_ Hd]. apply N.eqb_eq in Hd.
    apply in_map_iff in Hu as [u [Hu _]]. subst driver. exact Hd. }
  rewrite Hid. repeat split.
  - intros d Hd Hdid. apply in_update_where in Hd as [x [_ Hx]].
    destruct (N.eqb (d_id x) driverId) eqn:Ex; subst d; [reflexivity|].
    apply N.eqb_neq in Ex. contradiction.
  - unfold update_where. rewrite map_map. apply map_ext.
    intros d. destruct (N.eqb (d_id d) driverId); reflexivity.
  - intros d Hd Hn. apply in_update_where. exists d. split; [exact Hd|].
    apply N.eqb_neq in Hn. rewrite Hn. reflexivity.
Qed.

Lemma approveDriver_effect (now : timestamp) (driverId hospitalId : uuid)
  (db db' : DB) :
  succeeds_with db' (approveDriver users_email migration_001 now driverId hospitalId db) ->
  db' = approved now driverId db
  /\ fst (sql_run (approvalQuery users_email driverId) db) <> [].
Proof.
  unfold succeeds_with, approveDriver, transaction, approveDriver_body. cbn.
  intros [response H].
  destruct (flat_map _ _) as [|driver ds]; cbn in H; [discriminate|].
  destruct (apr_is_approved driver); cbn in H; [discriminate|].
  injection H as _ H. split; [symmetry; exact H|discriminate].
Qed.

Lemma in_driverQuery (driverId : uuid) (db : DB) (r : driver_record) :
  In r (fst (sql_run (driverQuery driverId) db)) <->
  exists d u, In d (drivers db) /\ In u (users db)
              /\ d_id d = driverId /\ d_is_approved d = true
              /\ d_is_active d = true /\ d_user_id d = u_id u
              /\ r = {| dr_id := d_id d;
                        dr_is_available := d_is_available d;
                        dr_first_name := u_first_name u;
                        dr_last_name := u_last_name u;
                        dr_phone := u_phone u |}.
Proof.
  cbn. rewrite in_flat_map. split.
  - intros [d [Hd Hu]]. apply filter_In in Hd as [Hd Hp].
    apply andb_prop in Hp as [Hp Hact]. apply andb_prop in Hp as [Hid Happ].
    apply N.eqb_eq in Hid.
    apply in_map_iff in Hu as [u [Hr Hu]].
    apply filter_In in Hu as [Hu Hj]. apply N.eqb_eq in Hj.
    exists d, u. repeat split; auto.
  - intros [d [u [Hd [Hu [Hid [Happ [Hact [Hj Hr]]]]]]]]. exists d. split.
    + apply filter_In. split; [exact Hd|]. rewrite Happ, Hact.
      apply N.eqb_eq in Hid. rewrite Hid. reflexivity.
    + apply in_map_iff. exists u. split; [symmetry; exact Hr|].
      apply filter_In. split; [exact Hu|]. apply N.eqb_eq. exact Hj.
Qed.

(** X10.  Approval is what [assignDriverToEmergency] waits for: when a
    call has thrown 404 for the driver, the driver is active and
    available, and [approveDriver] has returned for it since, the same
    call succeeds. *)
Theorem approval_unlocks_assignment
  (now now' : timestamp) (requestId hospitalId hospitalId' driverId : uuid)
  (db db' : DB) :
  assignDriverToEmergency migration_001 now' requestId hospitalId driverId db
  = (inl {| statusCode := 404; message := "Driver not found or not approved" |},
     db) ->
  (forall d, In d (drivers db) -> d_id d = driverId ->
             d_is_active d = true /\ d_is_available d = true) ->
  succeeds_with db'
    (approveDriver users_email migration_001 now driverId hospitalId' db) ->
  succeeds_with (assigned now' requestId driverId db')
    (assignDriverToEmergency migration_001 now' requestId hospitalId driverId db').
Proof.
  intros Hbefore Hrows Happrove.
  apply approveDriver_effect in Happrove as [-> Hjoin].
  apply approvalQuery_rows in Hjoin as [d [u [Hd [Hid [Hu Hj]]]]].
  assert (Hafter : exists driver ds,
             fst (sql_run (driverQuery driverId) (approved now driverId db))
             = driver :: ds /\ dr_is_available driver = true).
  { destruct (fst (sql_run (driverQuery driverId) (approved now driverId db)))
      as [|driver ds] eqn:E.
    - exfalso.
      assert (Hin : In {| dr_id := d_id d; dr_is_available := d_is_available d;
                          dr_first_name := u_first_name u;
                          dr_last_name := u_last_name u;
                          dr_phone := u_phone u |} []).
      { rewrite <- E. apply in_driverQuery.
        exists (d_set_approved now d), u. cbn.
        destruct (Hrows d Hd Hid) as [Ha _].
        repeat split; auto.
        apply in_update_where. exists d. split; [exact Hd|].
        apply N.eqb_eq in Hid. rewrite Hid. reflexivity. }
      destruct Hin.
    - exists driver, ds. split; [reflexivity|].
      assert (Hm : In driver (driver :: ds)) by (left; reflexivity).
      rewrite <- E in Hm.
      apply in_driverQuery in Hm
        as [d' [u' [Hd' [_ [Hid' [_ [_ [_ Hr]]]]]]]].
      subst driver. cbn.
      cbn in Hd'. apply in_update_where in Hd' as [x [Hx Hdx]].
      destruct (N.eqb (d_id x) driverId) eqn:Ex.
      + apply N.eqb_eq in Ex. destruct (Hrows x Hx Ex) as [_ Hav].
        subst d'. exact Hav.
      + subst d'. apply N.eqb_neq in Ex. contradiction. }
  destruct Hafter as [driver [ds [Hq Hav]]].
  revert Hbefore.
  unfold succeeds_with, assignDriverToEmergency, transaction,
    assignDriverToEmergency_body.
  cbn in Hq |- *.
  destruct (map h_id _) as [|hospital hs]; cbn; [discriminate|].
  destruct (map er_status _) as [|status ss]; cbn; [discriminate|].
  destruct (String.eqb status "accepted"); cbn; [|discriminate].
  intros _. rewrite Hq. cbn. rewrite Hav. cbn. eexists; reflexivity.
Qed.

(** X11.  A driver that [approveDriver] has approved is no longer among
    the drivers that [getHospitalDrivers] lists for the status
    [pending]. *)
Theorem approved_driver_leaves_the_pending_list
  (now : timestamp) (driverId hospitalId hospitalId' : uuid) (db db' : DB) :
  succeeds_with db'
    (approveDriver users_email migration_001 now driverId hospitalId db) ->
  exists response,
    getHospitalDrivers users_email drivers_license_number drivers_created_at
      migration_001 hospitalId' "pending" db'
    = inr response
    /\ forall r, In r (listed_drivers response) -> hd_id r <> driverId.
Proof.
  intros H. apply approveDriver_effect in H as [-> _].
  unfold getHospitalDrivers, reading, getHospitalDrivers_body. cbn.
  eexists. split; [reflexivity|]. cbn.
  intros r Hr Hid. apply in_order_by in Hr.
  apply in_flat_map in Hr as [d [Hd Hu]].
  apply filter_In in Hd as [Hd Hp]. apply andb_prop in Hp as [_ Hp].
  apply in_map_iff in Hu as [u [Hu _]]. subst r. cbn in Hid.
  apply in_update_where in Hd as [x [_ Hx]].
  destruct (N.eqb (d_id x) driverId) eqn:Ex; subst d.
  - discriminate.
  - apply N.eqb_neq in Ex. contradiction.
Qed.

(** X12.  [getHospitalDrivers] returns for every status and every caller.
    It lists active drivers that have an account, newest registration
    first, and [total] is the length of the list.  With the status
    [available] every listed driver is available, with [unavailable] none
    is, with [pending] none is approved; any other status lists every
    active driver that has an account. *)
Theorem getHospitalDrivers_filters (hospitalId : uuid) (status : string) (db : DB) :
  exists response,
    getHospitalDrivers users_email drivers_license_number drivers_created_at
      migration_001 hospitalId status db
    = inr response
    /\ listed_total response = Z.of_nat (List.length (listed_drivers response))
    /\ newest_to_oldest hd_createdAt (listed_drivers response)
    /\ (forall r, In r (listed_drivers response) ->
          (exists d u, In d (drivers db) /\ In u (users db)
                       /\ d_user_id d = u_id u /\ d_is_active d = true
                       /\ hd_id r = d_id d
                       /\ hd_isAvailable r = d_is_available d
                       /\ hd_isApproved r = d_is_approved d)
          /\ (status = "available" -> hd_isAvailable r = true)
          /\ (status = "unavailable" -> hd_isAvailable r = false)
          /\ (status = "pending" -> hd_isApproved r = false))
    /\ (status <> "available" -> status <> "unavailable" -> status <> "pending" ->
        forall d u, In d (drivers db) -> In u (users db) ->
                    d_user_id d = u_id u -> d_is_active d = true ->
                    exists r, In r (listed_drivers response) /\ hd_id r = d_id d).
Proof.
  unfold getHospitalDrivers, reading, getHospitalDrivers_body. cbn.
  eexists. split; [reflexivity|]. cbn.
  split; [reflexivity|]. split; [apply order_by_newest|]. split.
  - intros r Hr. apply in_order_by in Hr.
    apply in_flat_map in Hr as [d [Hd Hu]].
    apply filter_In in Hd as [Hd Hp]. apply andb_prop in Hp as [Hact Hp].
    apply in_map_iff in Hu as [u [Hr Hu]].
    apply filter_In in Hu as [Hu Hj]. apply N.eqb_eq in Hj.
    subst r. cbn. split.
    { exists d, u. repeat split; assumption. }
    unfold statusFilter in Hp.
    repeat split; intros ->; cbn in Hp.
    + exact Hp.
    + apply negb_true_iff. exact Hp.
    + apply negb_true_iff. exact Hp.
  - intros N1 N2 N3 d u Hd Hu Hj Hact.
    eexists. split.
    + apply in_order_by. apply in_flat_map. exists d. split.
      * apply filter_In. split; [exact Hd|]. rewrite Hact. unfold statusFilter.
        apply String.eqb_neq in N1, N2, N3. rewrite N1, N2, N3. reflexivity.
      * apply in_map_iff. exists u. split; [reflexivity|].
        apply filter_In. split; [exact Hu|]. apply N.eqb_eq. exact Hj.
    + reflexivity.
Qed.

End DriverColumns.

(** The assignment of driver 20 to request 1 of [Example.unapproved] throws
    404; after the approval of the driver it succeeds. *)
Lemma approval_unlocks_assignment_witness :
  succeeds_with (assigned 6 1%N 20%N (approved 4 20%N Example.unapproved))
    (assignDriverToEmergency migration_001 6 1%N 2%N 20%N
       (approved 4 20%N Example.unapproved)).
Proof.
  apply (approval_unlocks_assignment Registry.email 4 6 1%N 2%N 2%N 20%N
           Example.unapproved).
  - vm_compute. reflexivity.
  - intros d [<-|[]] _. split; reflexivity.
  - eexists. vm_compute. reflexivity.
Defined.

(** After its approval, driver 20 is not listed as pending. *)
Lemma approved_driver_leaves_the_pending_list_witness :
  exists response,
    getHospitalDrivers Registry.email Registry.license_number Registry.created_at
      migration_001 2%N "pending" (approved 4 20%N Example.unapproved)
    = inr response
    /\ forall r, In r (listed_drivers response) -> hd_id r <> 20%N.
Proof.
  apply (approved_driver_leaves_the_pending_list Registry.email
           Registry.license_number Registry.created_at 4 20%N 2%N 2%N
           Example.unapproved).
  eexists. vm_compute. reflexivity.
Defined.

(** ** Calls that come later *)

Section LaterCalls.

Variable users_email : uuid -> string.

(** The store that the statements of [approveDriver] leave. *)
Lemma exec_approve (now : timestamp) (driverId : uuid) (db : DB)
  (a : ApproveDriverResponse) (db' : DB) :
  exec (approveDriver_body users_email now driverId) db = (inr a, db') ->
  db' = approved now driverId db.
Proof.
  unfold approveDriver_body. cbn.
  destruct (flat_map _ _) as [|driver ds]; cbn; [discriminate|].
  destruct (apr_is_approved driver); cbn; [discriminate|].
  intros H. injection H as _ H. symmetry; exact H.
Qed.

(** What one call of a service can do to the store. *)
Lemma service_step_effect (sch : Schema) (db : DB) (call : service_call) :
  dispatch_effect db (service_step users_email sch db call)
  \/ (exists now driver isAvailable,
         service_step users_email sch db call = toggled now driver isAvailable db)
  \/ (exists now driver,
         service_step users_email sch db call = approved now driver db).
Proof.
  destruct call as [call|now driverId hospitalId]; cbn [service_step].
  - pose proof (step_effect sch db call) as E.
    destruct (is_toggle call); [|left; exact E].
    destruct E as [E|E]; [left; rewrite E; constructor|right; left; exact E].
  - unfold approveDriver.
    destruct (transaction_effect sch "Failed to approve driver"
                (approveDriver_body users_email now driverId) db)
      as [H|[a H]]; [left; rewrite H; constructor|].
    apply exec_approve in H. right. right. eauto.
Qed.

(** On the store of the migration, a call other than
    [updateAvailabilityStatus] leaves the store as it is, or as a
    creation, an acceptance, an assignment or an approval leaves it. *)
Lemma service_step_on_migration (db : DB) (call : service_call) :
  declares_availability call = false ->
  let db' := service_step users_email migration_001 db call in
  db' = db
  \/ (exists now requestData, db' = created now requestData db)
  \/ (exists now requestId hospital, db' = accepted now requestId hospital db)
  \/ (exists now requestId driverId, db' = assigned now requestId driverId db)
  \/ (exists now driverId, db' = approved now driverId db).
Proof.
  destruct call as [[now [requestData|requestId hospitalId
                         |requestId hospitalId driverId
                         |assignmentId driverId status|driverId isAvailable]]
                   |now driverId hospitalId];
    cbn [declares_availability is_toggle snd service_step step];
    intros Hq; try discriminate.
  - unfold createEmergencyRequest.
    destruct (run migration_001 _ db) as [[e|a] db'] eqn:E; cbn; [auto|].
    apply run_exec, exec_create in E. right. left. eauto.
  - unfold acceptEmergencyRequest.
    destruct (transaction_effect migration_001 "Failed to accept emergency request"
                (acceptEmergencyRequest_body now requestId hospitalId) db)
      as [H|[a H]]; [auto|].
    apply exec_accept in H as [hospital H]. right. right. left. eauto.
  - unfold assignDriverToEmergency.
    destruct (transaction_effect migration_001 "Failed to assign driver to emergency"
                (assignDriverToEmergency_body now requestId hospitalId driverId) db)
      as [H|[a H]]; [auto|].
    apply exec_assign in H as [H _]. right. right. right. left. eauto.
  - destruct (updateAssignmentStatus_never_returns now assignmentId driverId
                status db) as [e H].
    rewrite H. auto.
  - unfold approveDriver.
    destruct (transaction_effect migration_001 "Failed to approve driver"
                (approveDriver_body users_email now driverId) db)
      as [H|[a H]]; [auto|].
    apply exec_approve in H. right. right. right. right. eauto.
Qed.

(** An [UPDATE] that writes a status other than [pending] keeps a request
    beyond [pending]. *)
Lemma beyond_pending_update (requestId : uuid) (db : DB)
  (p : emergency_requests_row -> bool)
  (f : emergency_requests_row -> emergency_requests_row)
  (l : list emergency_requests_row) :
  (forall x, er_id (f x) = er_id x) ->
  (forall x, er_status (f x) <> "pending") ->
  beyond_pending requestId db ->
  emergency_requests db = l ->
  (exists r, In r (update_where p f l) /\ er_id r = requestId)
  /\ forall r, In r (update_where p f l) -> er_id r = requestId ->
       er_status r <> "pending".
Proof.
  intros Hid Hst [[r [Hr Hrid]] Hall] <-. split.
  - exists (if p r then f r else r). split.
    + apply in_update_where. eauto.
    + destruct (p r); [rewrite Hid|]; exact Hrid.
  - intros y Hy Hyid. apply in_update_where in Hy as [x [Hx Hy]].
    destruct (p x); subst y; [apply Hst|].
    apply Hall; assumption.
Qed.

(** No call takes a request back to [pending]: the only status that a
    call writes on an existing request is [accepted], [assigned] or
    [completed], and a new request gets a key of its own. *)
Lemma effect_beyond_pending (requestId : uuid) (db db' : DB) :
  dispatch_effect db db' ->
  beyond_pending requestId db -> beyond_pending requestId db'.
Proof.
  intros E H. destruct E; unfold beyond_pending;
    cbn [emergency_requests created accepted assigned advanced completed
         with_requests with_assignments].
  - exact H.
  - destruct H as [[r [Hr Hrid]] Hall]. split.
    + exists r. split; [apply in_or_app; left; exact Hr|exact Hrid].
    + intros y Hy Hyid. apply in_app_iff in Hy as [Hy|[Hy|[]]].
      * apply Hall; assumption.
      * exfalso. subst y. cbn in Hyid.
        apply (fresh_is_new (map er_id (emergency_requests db))).
        rewrite Hyid, <- Hrid. apply in_map. exact Hr.
  - apply (beyond_pending_update requestId db); auto; intros x; cbn; discriminate.
  - apply (beyond_pending_update requestId db); auto; intros x; cbn; discriminate.
  - exact H.
  - apply (beyond_pending_update requestId db); auto; intros x; cbn; discriminate.
Qed.

Lemma service_steps_beyond_pending (sch : Schema) (requestId : uuid)
  (calls : list service_call) (db : DB) :
  beyond_pending requestId db ->
  beyond_pending requestId (service_steps users_email sch db calls).
Proof.
  unfold service_steps. revert db.
  induction calls as [|call calls IH]; intros db H; cbn; [exact H|].
  apply IH.
  destruct (service_step_effect sch db call)
    as [E|[[now [driver [b E]]]|[now [driver E]]]].
  - eapply effect_beyond_pending; eassumption.
  - rewrite E. exact H.
  - rewrite E. exact H.
Qed.

Lemma accept_beyond_pending (now : timestamp) (requestId hospitalId : uuid)
  (db db' : DB) :
  succeeds_with db' (acceptEmergencyRequest migration_001 now requestId hospitalId db) ->
  beyond_pending requestId db'.
Proof.
  unfold succeeds_with, acceptEmergencyRequest, transaction,
    acceptEmergencyRequest_body.
  cbn. intros [response H].
  destruct (filter _ (emergency_requests db)) as [|request rest] eqn:Er; cbn in H;
    [discriminate|].
  destruct (String.eqb (er_status request) "pending"); cbn in H; [|discriminate].
  destruct (filter _ (hospitals db)) as [|hospital hs]; cbn in H; [discriminate|].
  injection H as _ H. subst db'.
  apply filter_head_in in Er as [Hin Hid]. apply N.eqb_eq in Hid.
  split.
  - eexists. split.
    + cbn. apply in_update_where. exists request. split; [exact Hin|reflexivity].
    + rewrite Hid, N.eqb_refl. exact Hid.
  - intros r Hr Hrid. cbn in Hr. apply in_update_where in Hr as [x [_ Hx]].
    destruct (N.eqb (er_id x) requestId) eqn:E; subst r; [discriminate|].
    apply N.eqb_neq in E. contradiction.
Qed.

Lemma beyond_pending_is_refused (now : timestamp) (requestId hospitalId : uuid)
  (db : DB) :
  beyond_pending requestId db ->
  fails_with Conflict db
    (acceptEmergencyRequest migration_001 now requestId hospitalId db).
Proof.
  intros [[r [Hr Hrid]] Hall].
  unfold fails_with, acceptEmergencyRequest, transaction,
    acceptEmergencyRequest_body.
  cbn.
  destruct (filter _ (emergency_requests db)) as [|request rest] eqn:Er; cbn.
  - exfalso.
    assert (Hin : In r []).
    { rewrite <- Er. apply filter_In. split; [exact Hr|].
      apply N.eqb_eq. exact Hrid. }
    destruct Hin.
  - apply filter_head_in in Er as [Hin Hid]. apply N.eqb_eq in Hid.
    specialize (Hall request Hin Hid). apply String.eqb_neq in Hall.
    rewrite Hall. cbn. eexists; split; reflexivity.
Qed.

(** X2.  Once [acceptEmergencyRequest] has returned for a request, every
    later call of it for that request, by the same hospital account or by
    another one, throws 400 and leaves the store as it is, whatever calls
    of [createEmergencyRequest], [acceptEmergencyRequest],
    [assignDriverToEmergency], [updateAssignmentStatus],
    [updateAvailabilityStatus] and [approveDriver] have been made in
    between, one after the other. *)
Theorem accepted_request_is_not_accepted_again
  (now now' : timestamp) (requestId hospitalId hospitalId' : uuid)
  (calls : list service_call) (db db1 : DB) :
  succeeds_with db1 (acceptEmergencyRequest migration_001 now requestId hospitalId db) ->
  let db2 := service_steps users_email migration_001 db1 calls in
  fails_with Conflict db2
    (acceptEmergencyRequest migration_001 now' requestId hospitalId' db2).
Proof.
  intros H db2. apply beyond_pending_is_refused.
  apply service_steps_beyond_pending.
  eapply accept_beyond_pending. exact H.
Qed.

(** A driver that is unavailable is not assigned. *)
Lemma unavailable_is_refused (now : timestamp)
  (requestId hospitalId driverId : uuid) (db : DB) :
  unavailable driverId db ->
  exists e,
    assignDriverToEmergency migration_001 now requestId hospitalId driverId db
    = (inl e, db)
    /\ (statusCode e = NotFound \/ statusCode e = Conflict).
Proof.
  intros Hun.
  unfold assignDriverToEmergency, transaction, assignDriverToEmergency_body.
  cbn.
  destruct (map h_id _) as [|hospital hs]; cbn.
  { eexists; split; [reflexivity|left; reflexivity]. }
  destruct (map er_status _) as [|status ss]; cbn.
  { eexists; split; [reflexivity|left; reflexivity]. }
  destruct (String.eqb status "accepted"); cbn.
  2: { eexists; split; [reflexivity|right; reflexivity]. }
  destruct (flat_map _ _) as [|driver ds] eqn:Edriver; cbn.
  { eexists; split; [reflexivity|left; reflexivity]. }
  assert (Ha : dr_is_available driver = false).
  { assert (Hm : In driver (driver :: ds)) by (left; reflexivity).
    rewrite <- Edriver in Hm. apply in_flat_map in Hm as [d [Hin Hu]].
    apply filter_In in Hin as [Hin Hp].
    apply andb_prop in Hp as [Hp _]. apply andb_prop in Hp as [Hp _].
    apply N.eqb_eq in Hp.
    apply in_map_iff in Hu as [u [Hu _]]. subst driver. cbn.
    apply Hun; assumption. }
  rewrite Ha. cbn. eexists; split; [reflexivity|right; reflexivity].
Qed.

(** On the store of the migration only [updateAvailabilityStatus] makes a
    driver available. *)
Lemma service_steps_unavailable (driverId : uuid) (calls : list service_call)
  (db : DB) :
  forallb (fun call => negb (declares_availability call)) calls = true ->
  unavailable driverId db ->
  unavailable driverId (service_steps users_email migration_001 db calls).
Proof.
  unfold service_steps. revert db.
  induction calls as [|call calls IH]; intros db Hq H; cbn; [exact H|].
  cbn in Hq. apply andb_prop in Hq as [Hc Hq]. apply negb_true_iff in Hc.
  apply IH; [exact Hq|].
  destruct (service_step_on_migration db call Hc)
    as [E|[[now [rd E]]|[[now [r [h E]]]|[[now [r [d E]]]|[now [d E]]]]]];
    rewrite E; unfold unavailable; cbn; try exact H.
  - intros y Hy Hyid. apply in_update_where in Hy as [x [Hx Hy]].
    destruct (N.eqb (d_id x) d); subst y; [reflexivity|].
    apply H; assumption.
  - intros y Hy Hyid. apply in_update_where in Hy as [x [Hx Hy]].
    destruct (N.eqb (d_id x) d); subst y; cbn in *; apply H; assumption.
Qed.

(** X4.  After [assignDriverToEmergency] has returned for a driver, every
    later call of it that names this driver, for the same request or for
    another one and by whatever hospital account, throws 404 or 400 and
    leaves the store as it is, as long as no call of
    [updateAvailabilityStatus] has been made in between; calls of
    [createEmergencyRequest], [acceptEmergencyRequest],
    [assignDriverToEmergency], [updateAssignmentStatus] and
    [approveDriver] may have been made, one after the other.  The store
    is that of the migration, on which [updateAssignmentStatus] never
    returns, so that no completion releases the driver. *)
Theorem assigned_driver_is_not_assigned_again
  (now now' : timestamp) (requestId hospitalId driverId requestId' hospitalId' : uuid)
  (calls : list service_call) (db db1 : DB) :
  succeeds_with db1
    (assignDriverToEmergency migration_001 now requestId hospitalId driverId db) ->
  forallb (fun call => negb (declares_availability call)) calls = true ->
  let db2 := service_steps users_email migration_001 db1 calls in
  exists e,
    assignDriverToEmergency migration_001 now' requestId' hospitalId' driverId db2
    = (inl e, db2)
    /\ (statusCode e = NotFound \/ statusCode e = Conflict).
Proof.
  intros H Hq db2. apply unavailable_is_refused.
  apply service_steps_unavailable; [exact Hq|].
  apply assignDriverToEmergency_effect in H. subst db1.
  intros d Hd Hid. cbn in Hd. eapply unavailable_after_update; eassumption.
Qed.

(** No call removes a driver or an account, changes the key or the account
    of a driver, or withdraws an approval. *)
Lemma approved_already_map (driverId : uuid) (db db' : DB)
  (g : drivers_row -> drivers_row) :
  users db' = users db ->
  drivers db' = map g (drivers db) ->
  (forall d, d_id (g d) = d_id d /\ d_user_id (g d) = d_user_id d
             /\ (d_is_approved d = true -> d_is_approved (g d) = true)) ->
  approved_already driverId db -> approved_already driverId db'.
Proof.
  intros Hu Hd Hg [[d [u [Hin [Hid [Huin Hj]]]]] Hall].
  unfold approved_already. rewrite Hu, Hd. split.
  - exists (g d), u. destruct (Hg d) as [G1 [G2 _]].
    rewrite G1, G2. repeat split; auto. apply in_map. exact Hin.
  - intros y Hy Hyid. apply in_map_iff in Hy as [x [Hy Hx]]. subst y.
    destruct (Hg x) as [G1 [_ G3]]. apply G3. apply Hall; [exact Hx|].
    rewrite <- G1. exact Hyid.
Qed.

Lemma approved_already_update (driverId : uuid) (db db' : DB)
  (p : drivers_row -> bool) (f : drivers_row -> drivers_row) :
  users db' = users db ->
  drivers db' = update_where p f (drivers db) ->
  (forall d, d_id (f d) = d_id d /\ d_user_id (f d) = d_user_id d
             /\ (d_is_approved d = true -> d_is_approved (f d) = true)) ->
  approved_already driverId db -> approved_already driverId db'.
Proof.
  intros Hu Hd Hf. apply approved_already_map with (g := fun d => if p d then f d else d).
  - exact Hu.
  - exact Hd.
  - intros d. destruct (p d); [apply Hf|auto].
Qed.

Lemma approved_already_same (driverId : uuid) (db db' : DB) :
  users db' = users db -> drivers db' = drivers db ->
  approved_already driverId db -> approved_already driverId db'.
Proof.
  intros Hu Hd H. unfold approved_already. rewrite Hu, Hd. exact H.
Qed.

Lemma service_steps_approved_already (sch : Schema) (driverId : uuid)
  (calls : list service_call) (db : DB) :
  approved_already driverId db ->
  approved_already driverId (service_steps users_email sch db calls).
Proof.
  unfold service_steps. revert db.
  induction calls as [|call calls IH]; intros db H; cbn; [exact H|].
  apply IH.
  destruct (service_step_effect sch db call)
    as [E|[[now [driver [b E]]]|[now [driver E]]]].
  - destruct E.
    + exact H.
    + eapply approved_already_same; [| |exact H]; reflexivity.
    + eapply approved_already_same; [| |exact H]; reflexivity.
    + eapply approved_already_update; [| | |exact H]; try reflexivity.
      intros d; cbn; auto.
    + eapply approved_already_same; [| |exact H]; reflexivity.
    + eapply approved_already_update; [| | |exact H]; try reflexivity.
      intros d; cbn; auto.
  - rewrite E. eapply approved_already_update; [| | |exact H]; try reflexivity.
    intros d; cbn; auto.
  - rewrite E. eapply approved_already_update; [| | |exact H]; try reflexivity.
    intros d; cbn; auto.
Qed.

Lemma approve_approved_already (now : timestamp) (driverId hospitalId : uuid)
  (db db' : DB) :
  succeeds_with db'
    (approveDriver users_email migration_001 now driverId hospitalId db) ->
  approved_already driverId db'.
Proof.
  intros H. apply approveDriver_effect in H as [-> Hrows].
  apply approvalQuery_rows in Hrows as [d [u [Hd [Hid [Hu Hj]]]]].
  split.
  - exists (d_set_approved now d), u. cbn. repeat split; auto.
    apply in_update_where. exists d. split; [exact Hd|].
    apply N.eqb_eq in Hid. rewrite Hid. reflexivity.
  - intros y Hy Hyid. cbn in Hy. apply in_update_where in Hy as [x [_ Hx]].
    destruct (N.eqb (d_id x) driverId) eqn:Ex; subst y; [reflexivity|].
    apply N.eqb_neq in Ex. contradiction.
Qed.

Lemma approved_already_is_refused (now : timestamp) (driverId hospitalId : uuid)
  (db : DB) :
  approved_already driverId db ->
  fails_with Conflict db
    (approveDriver users_email migration_001 now driverId hospitalId db).
Proof.
  intros [[d [u [Hd [Hid [Hu Hj]]]]] Hall].
  unfold approveDriver, transaction, approveDriver_body, fails_with. cbn.
  destruct (flat_map _ _) as [|r rs] eqn:E; cbn.
  - exfalso.
    assert (Hin : In {| apr_id := d_id d; apr_is_approved := d_is_approved d;
                        apr_first_name := u_first_name u;
                        apr_last_name := u_last_name u;
                        apr_email := users_email (u_id u) |} []).
    { rewrite <- E. apply in_flat_map. exists d. split.
      - apply filter_In. split; [exact Hd|]. apply N.eqb_eq. exact Hid.
      - apply in_map_iff. exists u. split; [reflexivity|].
        apply filter_In. split; [exact Hu|]. apply N.eqb_eq. exact Hj. }
    destruct Hin.
  - assert (Ha : apr_is_approved r = true).
    { assert (Hm : In r (r :: rs)) by (left; reflexivity).
      rewrite <- E in Hm. apply in_flat_map in Hm as [x [Hx Hr]].
      apply filter_In in Hx as [Hx Hxid]. apply N.eqb_eq in Hxid.
      apply in_map_iff in Hr as [v [Hr _]]. subst r. cbn.
      apply Hall; assumption. }
    rewrite Ha. cbn. eexists; split; reflexivity.
Qed.

(** X9.  Once [approveDriver] has returned for a driver, every later call
    of it for that driver throws 400 and leaves the store as it is,
    whatever calls of [createEmergencyRequest], [acceptEmergencyRequest],
    [assignDriverToEmergency], [updateAssignmentStatus],
    [updateAvailabilityStatus] and [approveDriver] have been made in
    between, one after the other. *)
Theorem approved_driver_is_not_approved_again
  (now now' : timestamp) (driverId hospitalId hospitalId' : uuid)
  (calls : list service_call) (db db1 : DB) :
  succeeds_with db1
    (approveDriver users_email migration_001 now driverId hospitalId db) ->
  let db2 := service_steps users_email migration_001 db1 calls in
  fails_with Conflict db2
    (approveDriver users_email migration_001 now' driverId hospitalId' db2).
Proof.
  intros H db2. apply approved_already_is_refused.
  apply service_steps_approved_already.
  eapply approve_approved_already. exact H.
Qed.

End LaterCalls.

(** Request 1 of [Example.pending] is accepted by the hospital of account
    2.  Then driver 20 is assigned to it and declares itself available, a
    second request is created and the driver is approved once more; the
    account 4 tries to accept request 1 after all that. *)
Lemma accepted_request_is_not_accepted_again_witness :
  let later :=
    service_steps Registry.email migration_001 Example.accepted
      [ Core (3, AssignDriver 1%N 2%N 20%N);
        Core (4, SetAvailability 3%N true);
        Core (5, CreateRequest Example.requestData);
        Approve 6 20%N 2%N ] in
  fails_with Conflict later
    (acceptEmergencyRequest migration_001 7 1%N 4%N later).
Proof.
  apply (accepted_request_is_not_accepted_again Registry.email 2 7 1%N 2%N 4%N
           [ Core (3, AssignDriver 1%N 2%N 20%N);
             Core (4, SetAvailability 3%N true);
             Core (5, CreateRequest Example.requestData);
             Approve 6 20%N 2%N ]
           Example.pending).
  eexists. vm_compute. reflexivity.
Defined.

(** Driver 20 is assigned to request 1 of [Example.accepted].  Then a
    second request is created and accepted by the same hospital, and the
    driver reports [en_route], which the store refuses; the hospital
    tries to assign driver 20 to the second request. *)
Lemma assigned_driver_is_not_assigned_again_witness :
  let later :=
    service_steps Registry.email migration_001 Example.assigned
      [ Core (4, CreateRequest Example.requestData);
        Core (5, AcceptRequest 2%N 2%N);
        Core (6, AdvanceAssignment 1%N 3%N "en_route") ] in
  exists e,
    assignDriverToEmergency migration_001 7 2%N 2%N 20%N later = (inl e, later)
    /\ (statusCode e = NotFound \/ statusCode e = Conflict).
Proof.
  apply (assigned_driver_is_not_assigned_again Registry.email 3 7
           1%N 2%N 20%N 2%N 2%N
           [ Core (4, CreateRequest Example.requestData);
             Core (5, AcceptRequest 2%N 2%N);
             Core (6, AdvanceAssignment 1%N 3%N "en_route") ]
           Example.accepted).
  - eexists. vm_compute. reflexivity.
  - reflexivity.
Defined.

(** Driver 20 of [Example.unapproved] is approved at time 4.  Then the
    driver is assigned to request 1 and declares itself available; a
    second approval follows. *)
Lemma approved_driver_is_not_approved_again_witness :
  let later :=
    service_steps Registry.email migration_001
      (approved 4 20%N Example.unapproved)
      [ Core (5, AssignDriver 1%N 2%N 20%N);
        Core (6, SetAvailability 3%N true) ] in
  fails_with Conflict later
    (approveDriver Registry.email migration_001 7 20%N 9%N later).
Proof.
  apply (approved_driver_is_not_approved_again Registry.email 4 7 20%N 2%N 9%N
           [ Core (5, AssignDriver 1%N 2%N 20%N);
             Core (6, SetAvailability 3%N true) ]
           Example.unapproved).
  eexists. vm_compute. reflexivity.
Defined.

(** ** getActiveEmergencyRequests and getPendingEmergencyRequests *)

(** X13.  [getActiveEmergencyRequests] throws 404 for an account without
    hospital.  Otherwise it returns rows, newest request first, with
    [total] their number; each row shows a request of the store that is
    bound to the hospital of the caller with status [accepted],
    [assigned] or [in_progress], and a driver only together with an
    assignment of that request to that driver, whose status it shows. *)
Theorem getActiveEmergencyRequests_outcome (hospitalId : uuid) (db : DB) :
  let result := getActiveEmergencyRequests migration_001 hospitalId db in
  match filter (fun h => N.eqb (h_user_id h) hospitalId) (hospitals db) with
  | [] => result = inl {| statusCode := 404; message := "Hospital not found" |}
  | hospital :: _ =>
      exists response,
        result = inr response
        /\ active_total response
           = Z.of_nat (List.length (active_requests response))
        /\ newest_to_oldest act_createdAt (active_requests response)
        /\ forall r, In r (active_requests response) ->
             exists er,
               In er (emergency_requests db)
               /\ er_id er = act_requestId r
               /\ er_status er = act_status r
               /\ er_hospital_id er = Some (h_id hospital)
               /\ In (er_status er) ["accepted"; "assigned"; "in_progress"]
               /\ forall driver, act_driver r = Some driver ->
                    exists ea, In ea (emergency_assignments db)
                               /\ ea_emergency_id ea = er_id er
                               /\ ea_driver_id ea = acd_id driver
                               /\ ea_status ea = acd_status driver
  end.
Proof.
  unfold getActiveEmergencyRequests, reading, getActiveEmergencyRequests_body.
  cbn.
  destruct (filter _ (hospitals db)) as [|hospital hs]; cbn; [reflexivity|].
  eexists. split; [reflexivity|]. cbn. split; [reflexivity|]. split.
  { apply Sorted_map.
    apply Sorted_weaken
      with (R := fun a b : active_row =>
                   er_created_at (fst (fst b)) <= er_created_at (fst (fst a))).
    - intros [[er u] j] [[er' u'] j'] H. exact H.
    - apply (order_by_newest
               (fun row : active_row => er_created_at (fst (fst row)))). }
  intros r Hr. apply in_map_iff in Hr as [[[er u] j] [Hr Hin]].
  apply in_order_by in Hin. apply in_flat_map in Hin as [er' [Her Hin]].
  apply in_flat_map in Hin as [u' [Hu Hin]].
  apply in_map_iff in Hin as [j' [Hrow Hj]]. injection Hrow as -> -> ->.
  apply filter_In in Her as [Her Hp]. apply andb_prop in Hp as [Hh Hs].
  exists er. subst r. cbn. repeat split; try assumption.
  - destruct (er_hospital_id er) as [h|]; [|discriminate].
    apply N.eqb_eq in Hh. subst h. reflexivity.
  - unfold active_status, mem in Hs. cbn in Hs.
    rewrite orb_false_r in Hs.
    apply orb_prop in Hs as [Hs|Hs]; [|apply orb_prop in Hs as [Hs|Hs]];
      apply String.eqb_eq in Hs; rewrite Hs; cbn; auto.
  - intros driver Hdriver.
    destruct j as [[ea [[d du]|]]|]; try discriminate.
    injection Hdriver as <-. cbn.
    apply in_request_assignment in Hj as [Hea [Hid [_ Hd]]].
    exists ea. auto.
Qed.

(** X14.  A request that a hospital has accepted is among the active
    requests of that hospital, with status [accepted], provided the
    requester has an account. *)
Theorem accepted_request_is_active
  (now : timestamp) (requestId hospitalId : uuid) (db db' : DB) :
  succeeds_with db'
    (acceptEmergencyRequest migration_001 now requestId hospitalId db) ->
  (forall er, In er (emergency_requests db) -> er_id er = requestId ->
     exists u, In u (users db) /\ u_id u = er_user_id er) ->
  exists response,
    getActiveEmergencyRequests migration_001 hospitalId db' = inr response
    /\ exists r, In r (active_requests response)
                 /\ act_requestId r = requestId /\ act_status r = "accepted".
Proof.
  unfold succeeds_with, acceptEmergencyRequest, transaction,
    acceptEmergencyRequest_body.
  cbn. intros [response H] Hrequester.
  destruct (filter _ (emergency_requests db)) as [|request rest] eqn:Er;
    cbn in H; [discriminate|].
  destruct (String.eqb (er_status request) "pending"); cbn in H; [|discriminate].
  destruct (filter _ (hospitals db)) as [|hospital hs] eqn:Eh; cbn in H;
    [discriminate|].
  injection H as _ H. subst db'.
  apply filter_head_in in Er as [Hin Hid]. apply N.eqb_eq in Hid.
  destruct (Hrequester request Hin Hid) as [u [Hu Hj]].
  unfold getActiveEmergencyRequests, reading, getActiveEmergencyRequests_body.
  cbn. rewrite Eh. cbn. eexists. split; [reflexivity|]. cbn.
  set (er' := er_set_hospital (h_id hospital) (er_set_status "accepted" now request)).
  set (db' := with_requests db _).
  destruct (request_assignment_not_empty db' er') as [j Hj'].
  exists (to_active (er', u, j)). split; [|split; [exact Hid|reflexivity]].
  apply in_map. apply in_order_by. apply in_flat_map. exists er'. split.
  - apply filter_In. split.
    + apply in_update_where. exists request. split; [exact Hin|].
      apply N.eqb_eq in Hid. rewrite Hid. reflexivity.
    + cbn. rewrite N.eqb_refl. reflexivity.
  - apply in_flat_map. exists u. split.
    + apply filter_In. split; [exact Hu|]. cbn. apply N.eqb_eq. auto.
    + apply in_map. exact Hj'.
Qed.

(** Request 1 of [Example.pending], accepted by the hospital of account
    2. *)
Lemma accepted_request_is_active_witness :
  exists response,
    getActiveEmergencyRequests migration_001 2%N Example.accepted = inr response
    /\ exists r, In r (active_requests response)
                 /\ act_requestId r = 1%N /\ act_status r = "accepted".
Proof.
  apply (accepted_request_is_active 2 1%N 2%N Example.pending Example.accepted).
  - eexists. vm_compute. reflexivity.
  - intros er [<-|[]] _. eexists. split; [left; reflexivity|reflexivity].
Defined.

Section Distances.

Variable calculateDistance : Q -> Q -> Q -> Q -> Js.number.
Variable toFixed : Js.number -> nat -> string.

(** The keys that a list of pending requests shows are those of the
    pending requests whose requester has an account. *)
Lemma in_pending_ids (hospital : option Q * option Q) (db : DB) (id : uuid) :
  In id
    (map pnd_requestId
       (map (to_pending calculateDistance toFixed hospital)
          (fst (sql_run pendingRequestsQuery db))))
  <-> exists er u, In er (emergency_requests db) /\ er_id er = id
                   /\ er_status er = "pending"
                   /\ In u (users db) /\ u_id u = er_user_id er.
Proof.
  cbn. rewrite map_map. rewrite in_map_iff. split.
  - intros [[er u] [Hid Hin]]. cbn in Hid.
    apply in_order_by in Hin. apply in_flat_map in Hin as [er' [Her Hin]].
    apply in_map_iff in Hin as [u' [Hrow Hu]]. injection Hrow as -> ->.
    apply filter_In in Her as [Her Hs]. apply String.eqb_eq in Hs.
    apply filter_In in Hu as [Hu Hj]. apply N.eqb_eq in Hj.
    exists er, u. auto.
  - intros [er [u [Her [Hid [Hs [Hu Hj]]]]]]. exists (er, u). split; [exact Hid|].
    apply in_order_by. apply in_flat_map. exists er. split.
    + apply filter_In. split; [exact Her|]. apply String.eqb_eq. exact Hs.
    + apply in_map. apply filter_In. split; [exact Hu|]. apply N.eqb_eq. auto.
Qed.

Lemma getPendingEmergencyRequests_returns (hospitalId : uuid) (db : DB) :
  getPendingEmergencyRequests calculateDistance toFixed migration_001
    hospitalId db
  = match filter (fun h => N.eqb (h_user_id h) hospitalId) (hospitals db) with
    | [] => inl {| statusCode := 404; message := "Hospital not found" |}
    | hospital :: _ =>
        inr (map (to_pending calculateDistance toFixed
                    (h_latitude hospital, h_longitude hospital))
               (fst (sql_run pendingRequestsQuery db)))
    end.
Proof.
  unfold getPendingEmergencyRequests, reading, getPendingEmergencyRequests_body.
  cbn [run]. change (accepts migration_001 (hospitalLocationQuery hospitalId))
    with true. cbn iota. cbn [sql_run hospitalLocationQuery select].
  destruct (filter _ (hospitals db)) as [|hospital hs]; cbn [map]; [reflexivity|].
  cbn [run]. change (accepts migration_001 pendingRequestsQuery) with true.
  cbn iota.
  destruct (sql_run pendingRequestsQuery db) as [rows db1]. reflexivity.
Qed.

(** X15.  [getPendingEmergencyRequests] throws 404 for an account without
    hospital.  For every other caller it returns, newest first, the
    requests that are [pending] and whose requester has an account: the
    same requests for every hospital, wherever the hospital and the
    pickup point are. *)
Theorem getPendingEmergencyRequests_outcome (hospitalId : uuid) (db : DB) :
  let result :=
    getPendingEmergencyRequests calculateDistance toFixed migration_001
      hospitalId db in
  match filter (fun h => N.eqb (h_user_id h) hospitalId) (hospitals db) with
  | [] => result = inl {| statusCode := 404; message := "Hospital not found" |}
  | _ :: _ =>
      exists requests,
        result = inr requests
        /\ newest_to_oldest pnd_createdAt requests
        /\ forall id,
             In id (map pnd_requestId requests) <->
             exists er u, In er (emergency_requests db) /\ er_id er = id
                          /\ er_status er = "pending"
                          /\ In u (users db) /\ u_id u = er_user_id er
  end.
Proof.
  cbn zeta. rewrite getPendingEmergencyRequests_returns.
  destruct (filter _ (hospitals db)) as [|hospital hs]; [reflexivity|].
  eexists. split; [reflexivity|]. split.
  - cbn. apply Sorted_map.
    apply Sorted_weaken
      with (R := fun a b : emergency_requests_row * users_row =>
                   er_created_at (fst b) <= er_created_at (fst a)).
    + intros [er u] [er' u'] H. exact H.
    + apply (order_by_newest
               (fun row : emergency_requests_row * users_row =>
                  er_created_at (fst row))).
  - intros id. apply in_pending_ids.
Qed.

(** X16.  A request that a hospital has accepted is on the list of
    pending requests of no hospital any more. *)
Theorem accepted_request_leaves_the_pending_lists
  (now : timestamp) (requestId hospitalId hospitalId' : uuid) (db db' : DB) :
  succeeds_with db'
    (acceptEmergencyRequest migration_001 now requestId hospitalId db) ->
  match
    getPendingEmergencyRequests calculateDistance toFixed migration_001
      hospitalId' db'
  with
  | inr requests => ~ In requestId (map pnd_requestId requests)
  | inl e => statusCode e = NotFound
  end.
Proof.
  intros [response H].
  assert (Hdb : exists hospital, db' = accepted now requestId hospital db).
  { unfold acceptEmergencyRequest, transaction in H.
    destruct (run _ _ db) as [[e|a] db1] eqn:R; [discriminate|].
    apply run_exec in R. apply exec_accept in R as [hospital R].
    injection H as _ H. exists hospital. congruence. }
  destruct Hdb as [hospital ->].
  rewrite getPendingEmergencyRequests_returns.
  destruct (filter _ (hospitals (accepted now requestId hospital db)))
    as [|h hs]; [reflexivity|].
  intros Hin. apply in_pending_ids in Hin as [er [u [Her [Hid [Hs _]]]]].
  cbn in Her. apply in_update_where in Her as [x [_ Hx]].
  destruct (N.eqb (er_id x) requestId) eqn:Ex; subst er.
  - discriminate.
  - apply N.eqb_neq in Ex. contradiction.
Qed.

(** X17.  A request that [createEmergencyRequest] has created is on the
    list of pending requests of every hospital, provided the requester
    has an account. *)
Theorem created_request_is_pending_everywhere
  (now : timestamp) (requestData : EmergencyRequestData) (hospitalId : uuid)
  (db db' : DB) (response : EmergencyRequestResponse) :
  createEmergencyRequest migration_001 now requestData db = (inr response, db') ->
  (exists u, In u (users db) /\ u_id u = userId requestData) ->
  (exists h, In h (hospitals db) /\ h_user_id h = hospitalId) ->
  exists requests,
    getPendingEmergencyRequests calculateDistance toFixed migration_001
      hospitalId db'
    = inr requests
    /\ In (create_requestId response) (map pnd_requestId requests).
Proof.
  cbn. intros H [u [Hu Hj]] [h [Hh Hacc]]. injection H as <- <-.
  rewrite getPendingEmergencyRequests_returns. cbn [hospitals with_requests].
  destruct (filter _ (hospitals db)) as [|h' hs] eqn:E.
  - exfalso.
    assert (Hin : In h []).
    { rewrite <- E. apply filter_In. split; [exact Hh|].
      apply N.eqb_eq. exact Hacc. }
    destruct Hin.
  - eexists. split; [reflexivity|]. apply in_pending_ids.
    exists (new_request (fresh (map er_id (emergency_requests db))) requestData now), u.
    cbn. repeat split; auto.
    apply in_or_app. right. left. reflexivity.
Qed.

End Distances.

(** Request 1, accepted by the hospital of account 2, as the hospital of
    account 4 sees it. *)
Lemma accepted_request_leaves_the_pending_lists_witness :
  match
    getPendingEmergencyRequests Example.distance_at_pickup Registry.toFixed
      migration_001 4%N
      (accepted 2 1%N 10%N Example.two_hospitals)
  with
  | inr requests => ~ In 1%N (map pnd_requestId requests)
  | inl e => statusCode e = NotFound
  end.
Proof.
  apply (accepted_request_leaves_the_pending_lists Example.distance_at_pickup
           Registry.toFixed 2 1%N 2%N 4%N Example.two_hospitals).
  eexists. vm_compute. reflexivity.
Defined.

(** The request of [Example.requestData], as the hospital of account 2
    sees it. *)
Lemma created_request_is_pending_everywhere_witness :
  exists requests,
    getPendingEmergencyRequests Example.distance_at_pickup Registry.toFixed
      migration_001 2%N Example.pending
    = inr requests
    /\ In 1%N (map pnd_requestId requests).
Proof.
  apply (created_request_is_pending_everywhere Example.distance_at_pickup
           Registry.toFixed 1 Example.requestData 2%N Example.registered
           Example.pending
           {| create_message := "Emergency request created successfully";
              create_requestId := 1%N;
              create_status := "pending";
              create_createdAt := 1 |}).
  - reflexivity.
  - eexists. split; [left; reflexivity|reflexivity].
  - eexists. split; [left; reflexivity|reflexivity].
Defined.

(** ** getCurrentAssignment and getAssignmentHistory *)

(** X18.  On the store of the migration [getCurrentAssignment] never
    returns: its query names the labels [en_route] and [arrived], which
    [emergency_status] does not have, so the call throws 500 for every
    account that has a driver, and 404 for the others. *)
Theorem getCurrentAssignment_never_returns (driverId : uuid) (db : DB) :
  getCurrentAssignment migration_001 driverId db
  = match filter (fun d => N.eqb (d_user_id d) driverId) (drivers db) with
    | [] => inl {| statusCode := 404; message := "Driver not found" |}
    | _ :: _ =>
        inl {| statusCode := 500; message := "Failed to get current assignment" |}
    end.
Proof.
  unfold getCurrentAssignment, reading, getCurrentAssignment_body. cbn.
  destruct (filter _ (drivers db)) as [|driver ds]; reflexivity.
Qed.

Lemma newest_first_null_trans (a b c : option timestamp) :
  newest_first_null a b = true -> newest_first_null b c = true ->
  newest_first_null a c = true.
Proof.
  destruct a as [x|], b as [y|], c as [z|]; cbn; try discriminate; auto.
  intros H1 H2. apply Z.leb_le in H1, H2. apply Z.leb_le. lia.
Qed.

Lemma newest_first_null_total (a b : option timestamp) :
  newest_first_null a b = false -> newest_first_null b a = true.
Proof.
  destruct a as [x|], b as [y|]; cbn; try discriminate; auto.
  intros H. apply Z.leb_gt in H. apply Z.leb_le. lia.
Qed.

Lemma newest_first_null_refl (a : option timestamp) :
  newest_first_null a a = true.
Proof. destruct a; cbn; [apply Z.leb_refl|reflexivity]. Qed.

Lemma in_assignment_rows (p : emergency_assignments_row -> bool) (db : DB)
  (ea : emergency_assignments_row) (er : emergency_requests_row)
  (u : users_row) (h : option hospitals_row) :
  In (ea, er, u, h) (assignment_rows p db) ->
  In ea (emergency_assignments db) /\ p ea = true
  /\ In er (emergency_requests db) /\ er_id er = ea_emergency_id ea
  /\ In u (users db) /\ u_id u = er_user_id er.
Proof.
  unfold assignment_rows. intros H.
  apply in_flat_map in H as [ea' [Hea H]].
  apply in_flat_map in H as [er' [Her H]].
  apply in_flat_map in H as [u' [Hu H]].
  apply in_map_iff in H as [h' [Hrow _]]. injection Hrow as -> -> -> _.
  apply filter_In in Hea as [Hea Hp].
  apply filter_In in Her as [Her Hid]. apply N.eqb_eq in Hid.
  apply filter_In in Hu as [Hu Hj]. apply N.eqb_eq in Hj.
  repeat split; auto.
Qed.

(** X19.  On a store that declares the labels, [getCurrentAssignment]
    throws 404 for an account without driver and returns for the others.
    It returns [null] exactly when the driver has no assignment under way
    (with its request and requester); otherwise it returns an assignment
    of the driver with status [assigned], [en_route] or [arrived], and no
    assignment of the driver that is under way was assigned later. *)
Theorem getCurrentAssignment_latest (sch : Schema) (driverId : uuid) (db : DB) :
  declares_current sch = true ->
  match filter (fun d => N.eqb (d_user_id d) driverId) (drivers db) with
  | [] =>
      getCurrentAssignment sch driverId db
      = inl {| statusCode := 404; message := "Driver not found" |}
  | driver :: _ =>
      exists data,
        getCurrentAssignment sch driverId db = inr data
        /\ match data with
           | None => under_way (d_id driver) db = []
           | Some current =>
               (exists ea,
                   In ea (emergency_assignments db)
                   /\ ea_id ea = cur_assignmentId current
                   /\ ea_emergency_id ea = cur_requestId current
                   /\ ea_status ea = cur_status current
                   /\ ea_assigned_at ea = cur_assignedAt current
                   /\ ea_driver_id ea = d_id driver
                   /\ In (ea_status ea) ["assigned"; "en_route"; "arrived"])
               /\ forall row, In row (under_way (d_id driver) db) ->
                    newest_first_null (cur_assignedAt current)
                      (ea_assigned_at (fst (fst (fst row)))) = true
           end
  end.
Proof.
  unfold declares_current. intros H. apply andb_prop in H as [Hd Hc].
  unfold getCurrentAssignment, reading, getCurrentAssignment_body.
  cbn [run].
  change (accepts sch (driverByUserQuery driverId))
    with (accepts sch (driverByUserQuery 0%N)).
  rewrite Hd. cbn [sql_run driverByUserQuery select].
  destruct (filter _ (drivers db)) as [|driver ds]; cbn [map run throw];
    [reflexivity|].
  change (accepts sch (currentAssignmentQuery (d_id driver)))
    with (accepts sch (currentAssignmentQuery 0%N)).
  rewrite Hc. cbn [sql_run currentAssignmentQuery select].
  fold (under_way (d_id driver) db).
  destruct (order_by by_assigned_at (under_way (d_id driver) db))
    as [|[[[ea er] u] h] rest] eqn:E; cbn [firstn run].
  - exists None. split; [reflexivity|].
    destruct (under_way (d_id driver) db) as [|row rows]; [reflexivity|].
    assert (Hin : In row (order_by by_assigned_at (row :: rows))).
    { apply in_order_by. left; reflexivity. }
    rewrite E in Hin. destruct Hin.
  - eexists. split; [reflexivity|]. cbn.
    apply order_by_head in E as [Hin Hfirst].
    + split.
      * apply in_assignment_rows in Hin as [Hea [Hp _]].
        apply andb_prop in Hp as [Hdr Hnt]. apply N.eqb_eq in Hdr.
        exists ea. repeat split; auto.
        unfold non_terminal, mem in Hnt. cbn in Hnt.
        rewrite orb_false_r in Hnt.
        apply orb_prop in Hnt as [Hs|Hs]; [|apply orb_prop in Hs as [Hs|Hs]];
          apply String.eqb_eq in Hs; rewrite Hs; cbn; auto.
      * intros row Hrow. apply (Hfirst row Hrow).
    + intros a. apply newest_first_null_refl.
    + intros a b. apply newest_first_null_total.
    + intros a b c. apply newest_first_null_trans.
Qed.

(** The driver of account 3 with its assignment to request 1, on a store
    with the labels. *)
Lemma getCurrentAssignment_latest_witness :
  match filter (fun d => N.eqb (d_user_id d) 3%N) (drivers Example.assigned) with
  | [] =>
      getCurrentAssignment Registry.progress_labels 3%N Example.assigned
      = inl {| statusCode := 404; message := "Driver not found" |}
  | driver :: _ =>
      exists data,
        getCurrentAssignment Registry.progress_labels 3%N Example.assigned
        = inr data
        /\ match data with
           | None => under_way (d_id driver) Example.assigned = []
           | Some current =>
               (exists ea,
                   In ea (emergency_assignments Example.assigned)
                   /\ ea_id ea = cur_assignmentId current
                   /\ ea_emergency_id ea = cur_requestId current
                   /\ ea_status ea = cur_status current
                   /\ ea_assigned_at ea = cur_assignedAt current
                   /\ ea_driver_id ea = d_id driver
                   /\ In (ea_status ea) ["assigned"; "en_route"; "arrived"])
               /\ forall row, In row (under_way (d_id driver) Example.assigned) ->
                    newest_first_null (cur_assignedAt current)
                      (ea_assigned_at (fst (fst (fst row)))) = true
           end
  end.
Proof.
  apply (getCurrentAssignment_latest Registry.progress_labels 3%N
           Example.assigned).
  reflexivity.
Defined.

(** X20.  For a page number and a page size that are positive,
    [getAssignmentHistory] throws 404 for an account without driver and
    otherwise returns at most [limit] entries, each an assignment of the
    driver with its status and its [completed_at]; [total] counts all
    assignments of the driver, whatever the page. *)
Theorem getAssignmentHistory_page (driverId : uuid) (page limit : Z) (db : DB) :
  exact_page page limit ->
  match filter (fun d => N.eqb (d_user_id d) driverId) (drivers db) with
  | [] =>
      getAssignmentHistory migration_001 driverId page limit db
      = inl {| statusCode := 404; message := "Driver not found" |}
  | driver :: _ =>
      exists response,
        getAssignmentHistory migration_001 driverId page limit db = inr response
        /\ history_total response
           = Z.of_nat
               (List.length
                  (filter (fun ea => N.eqb (ea_driver_id ea) (d_id driver))
                     (emergency_assignments db)))
        /\ history_page response = page
        /\ history_limit response = limit
        /\ Z.of_nat (List.length (history_assignments response)) <= limit
        /\ forall a, In a (history_assignments response) ->
             exists ea,
               In ea (emergency_assignments db)
               /\ ea_driver_id ea = d_id driver
               /\ ea_id ea = ha_assignmentId a
               /\ ea_emergency_id ea = ha_requestId a
               /\ ea_status ea = ha_status a
               /\ ea_completed_at ea = ha_completedAt a
  end.
Proof.
  intros Hpage.
  unfold getAssignmentHistory, reading, getAssignmentHistory_body. cbn [run].
  change (accepts migration_001 (driverByUserQuery driverId)) with true.
  cbn iota. cbn [sql_run driverByUserQuery select].
  destruct (filter _ (drivers db)) as [|driver ds]; cbn [map run throw];
    [reflexivity|].
  change (accepts migration_001 (assignmentCountQuery (d_id driver))) with true.
  cbn iota. cbn [sql_run assignmentCountQuery select].
  rewrite (await_page_exact page limit) by exact Hpage.
  cbn [run].
  change (accepts migration_001
            (assignmentHistoryQuery (d_id driver) limit ((page - 1) * limit)))
    with true.
  cbn iota. cbn [sql_run assignmentHistoryQuery select run].
  eexists. split; [reflexivity|]. cbn.
  split; [reflexivity|]. split; [reflexivity|]. split; [reflexivity|]. split.
  - rewrite length_map. apply limit_offset_length.
    destruct Hpage as [_ [Hl _]]. lia.
  - intros a Ha. apply in_map_iff in Ha as [[[ea er] u] [Ha Hin]].
    apply in_limit_offset in Hin. apply in_order_by in Hin.
    apply in_flat_map in Hin as [ea' [Hea Hin]].
    apply in_flat_map in Hin as [er' [_ Hin]].
    apply in_map_iff in Hin as [u' [Hrow _]]. injection Hrow as -> _ _.
    apply filter_In in Hea as [Hea Hd]. apply N.eqb_eq in Hd.
    exists ea. subst a. cbn. repeat split; auto.
Qed.

(** The first page of ten of the driver of account 3. *)
Lemma getAssignmentHistory_page_witness :
  match filter (fun d => N.eqb (d_user_id d) 3%N) (drivers Example.assigned) with
  | [] =>
      getAssignmentHistory migration_001 3%N 1 10 Example.assigned
      = inl {| statusCode := 404; message := "Driver not found" |}
  | driver :: _ =>
      exists response,
        getAssignmentHistory migration_001 3%N 1 10 Example.assigned
        = inr response
        /\ history_total response
           = Z.of_nat
               (List.length
                  (filter (fun ea => N.eqb (ea_driver_id ea) (d_id driver))
                     (emergency_assignments Example.assigned)))
        /\ history_page response = 1
        /\ history_limit response = 10
        /\ Z.of_nat (List.length (history_assignments response)) <= 10
        /\ forall a, In a (history_assignments response) ->
             exists ea,
               In ea (emergency_assignments Example.assigned)
               /\ ea_driver_id ea = d_id driver
               /\ ea_id ea = ha_assignmentId a
               /\ ea_emergency_id ea = ha_requestId a
               /\ ea_status ea = ha_status a
               /\ ea_completed_at ea = ha_completedAt a
  end.
Proof.
  apply (getAssignmentHistory_page 3%N 1 10 Example.assigned).
  unfold exact_page. cbn. lia.
Defined.

(** ** getUserEmergencyHistory and getEmergencyRequestStatus *)

(** X21.  For a page number and a page size that are positive and have a
    product of at most [2^53] (so that a double holds the offset
    exactly), [getUserEmergencyHistory] returns at most [limit] entries,
    newest first, each a request of the user with its status; [total]
    counts all requests of the user, whatever the page.  [completedAt] is
    the time of the last update of the request, whatever its status, and
    the name of a hospital is shown only for a request bound to it.
    Nothing is said of other values. *)
Theorem getUserEmergencyHistory_page (userId : uuid) (page limit : Z) (db : DB) :
  exact_page page limit ->
  exists response,
    getUserEmergencyHistory migration_001 userId page limit db = inr response
    /\ requests_total response
       = Z.of_nat
           (List.length
              (filter (fun er => N.eqb (er_user_id er) userId)
                 (emergency_requests db)))
    /\ requests_page response = page
    /\ requests_limit response = limit
    /\ Z.of_nat (List.length (requests_list response)) <= limit
    /\ newest_to_oldest uh_createdAt (requests_list response)
    /\ forall r, In r (requests_list response) ->
         exists er,
           In er (emergency_requests db)
           /\ er_user_id er = userId
           /\ er_id er = uh_requestId r
           /\ er_status er = uh_status r
           /\ er_created_at er = uh_createdAt r
           /\ uh_completedAt r = Some (er_updated_at er)
           /\ forall name, uh_hospital r = Some name ->
                exists h, In h (hospitals db)
                          /\ er_hospital_id er = Some (h_id h)
                          /\ h_name h = name.
Proof.
  intros Hpage.
  unfold getUserEmergencyHistory, getUserEmergencyHistory_body. cbn [run].
  change (accepts migration_001 (requestCountQuery userId)) with true.
  cbn iota. cbn [sql_run requestCountQuery select].
  rewrite (await_page_exact page limit) by exact Hpage.
  cbn [run].
  change (accepts migration_001
            (requestHistoryQuery userId limit ((page - 1) * limit)))
    with true.
  cbn iota. cbn [sql_run requestHistoryQuery select run].
  eexists. split; [reflexivity|]. cbn.
  split; [reflexivity|]. split; [reflexivity|]. split; [reflexivity|].
  split; [|split].
  - rewrite length_map. apply limit_offset_length.
    destruct Hpage as [_ [Hl _]]. lia.
  - apply Sorted_map. apply limit_offset_sorted.
    apply Sorted_weaken
      with (R := fun a b : emergency_requests_row * option hospitals_row =>
                   er_created_at (fst b) <= er_created_at (fst a)).
    + intros [er h] [er' h'] H. exact H.
    + apply (order_by_newest
               (fun row : emergency_requests_row * option hospitals_row =>
                  er_created_at (fst row))).
  - intros r Hr. apply in_map_iff in Hr as [[er h] [Hr Hin]].
    apply in_limit_offset in Hin. apply in_order_by in Hin.
    apply in_flat_map in Hin as [er' [Her Hin]].
    apply in_map_iff in Hin as [h' [Hrow Hh]]. injection Hrow as -> ->.
    apply filter_In in Her as [Her Hu]. apply N.eqb_eq in Hu.
    exists er. subst r. cbn. repeat split; auto.
    intros name Hname. destruct h as [h|]; [|discriminate].
    destruct (String.eqb (h_name h) ""); [discriminate|].
    injection Hname as <-.
    apply in_request_hospital in Hh as [Hh Hid]. exists h. auto.
Qed.

(** The first page of ten of the requester of [Example.accepted]. *)
Lemma getUserEmergencyHistory_page_witness :
  exists response,
    getUserEmergencyHistory migration_001 1%N 1 10 Example.accepted
    = inr response
    /\ requests_total response
       = Z.of_nat
           (List.length
              (filter (fun er => N.eqb (er_user_id er) 1%N)
                 (emergency_requests Example.accepted)))
    /\ requests_page response = 1
    /\ requests_limit response = 10
    /\ Z.of_nat (List.length (requests_list response)) <= 10
    /\ newest_to_oldest uh_createdAt (requests_list response)
    /\ forall r, In r (requests_list response) ->
         exists er,
           In er (emergency_requests Example.accepted)
           /\ er_user_id er = 1%N
           /\ er_id er = uh_requestId r
           /\ er_status er = uh_status r
           /\ er_created_at er = uh_createdAt r
           /\ uh_completedAt r = Some (er_updated_at er)
           /\ forall name, uh_hospital r = Some name ->
                exists h, In h (hospitals Example.accepted)
                          /\ er_hospital_id er = Some (h_id h)
                          /\ h_name h = name.
Proof.
  apply (getUserEmergencyHistory_page 1%N 1 10 Example.accepted).
  unfold exact_page. cbn. lia.
Defined.

Section HospitalColumns.

Variable hospitals_phone : uuid -> string.

(** X22.  [getEmergencyRequestStatus] throws 404 when the user owns no
    request with the key: a request of another user is not told apart
    from one that does not exist.  Otherwise it returns the status and
    the times of the request, where [acceptedAt] is the time of its last
    update; a hospital only when the request is bound to it; and a
    driver only together with an assignment of the request to that
    driver, whose status it shows. *)
Theorem getEmergencyRequestStatus_outcome (requestId userId : uuid) (db : DB) :
  let result :=
    getEmergencyRequestStatus hospitals_phone migration_001 requestId userId db in
  match
    filter (fun er => N.eqb (er_id er) requestId && N.eqb (er_user_id er) userId)
      (emergency_requests db)
  with
  | [] =>
      result
      = inl {| statusCode := 404; message := "Emergency request not found" |}
  | er :: _ =>
      exists status,
        result = inr status
        /\ est_requestId status = requestId
        /\ est_status status = er_status er
        /\ est_createdAt status = er_created_at er
        /\ est_acceptedAt status = er_updated_at er
        /\ match est_hospital status with
           | Some hospital =>
               er_hospital_id er = Some (sh_id hospital)
               /\ exists h, In h (hospitals db) /\ h_id h = sh_id hospital
                            /\ h_name h = sh_name hospital
                            /\ h_address h = sh_address hospital
           | None =>
               forall h, In h (hospitals db) -> er_hospital_id er <> Some (h_id h)
           end
        /\ match est_driver status with
           | Some driver =>
               exists ea, In ea (emergency_assignments db)
                          /\ ea_emergency_id ea = requestId
                          /\ ea_driver_id ea = sd_id driver
                          /\ ea_status ea = sd_status driver
           | None => True
           end
  end.
Proof.
  unfold getEmergencyRequestStatus, reading, getEmergencyRequestStatus_body.
  cbn [run].
  change (accepts migration_001 (statusQuery requestId userId)) with true.
  cbn iota. cbn [sql_run statusQuery select].
  destruct (filter _ (emergency_requests db)) as [|er rest] eqn:E;
    [reflexivity|].
  apply filter_head_in in E as [Her Hp]. apply andb_prop in Hp as [Hid Hu].
  apply N.eqb_eq in Hid.
  cbn [flat_map].
  destruct (request_hospital_not_empty db er) as [h [hs Eh]].
  destruct (request_assignment db er) as [|j js] eqn:Ej.
  { destruct (request_assignment_not_empty db er) as [j Hj].
    rewrite Ej in Hj. destruct Hj. }
  rewrite Eh. cbn [flat_map map app run].
  eexists. split; [reflexivity|]. cbn.
  repeat split; auto.
  - destruct h as [h|].
    + assert (Hh : In (Some h) (request_hospital db er))
        by (rewrite Eh; left; reflexivity).
      apply in_request_hospital in Hh as [Hh Hbound]. cbn.
      split; [exact Hbound|]. exists h. auto.
    + intros h Hh Hbound.
      assert (Hin : In (Some h) (request_hospital db er))
        by (apply in_request_hospital; auto).
      rewrite Eh in Hin. revert Eh Hin. unfold request_hospital.
      destruct (filter _ (hospitals db)) as [|x xs]; cbn.
      * intros Hn Hi. injection Hn as <-. destruct Hi as [Hi|[]]. discriminate.
      * intros Hn. discriminate.
  - destruct j as [[ea [[d u]|]]|]; cbn; auto.
    assert (Hj : In (Some (ea, Some (d, u))) (request_assignment db er))
      by (rewrite Ej; left; reflexivity).
    apply in_request_assignment in Hj as [Hea [Hem [_ Hd]]].
    exists ea. repeat split; auto. congruence.
Qed.

(** X23.  Right after [createEmergencyRequest] has returned, on a store
    in which every assignment refers to a request,
    [getEmergencyRequestStatus] shows the requester the new request as
    [pending], with no hospital and no driver, and throws 404 for every
    other user. *)
Theorem created_request_status
  (now : timestamp) (requestData : EmergencyRequestData) (db db' : DB)
  (response : EmergencyRequestResponse) :
  createEmergencyRequest migration_001 now requestData db = (inr response, db') ->
  (forall ea, In ea (emergency_assignments db) ->
              In (ea_emergency_id ea) (map er_id (emergency_requests db))) ->
  getEmergencyRequestStatus hospitals_phone migration_001
    (create_requestId response) (userId requestData) db'
  = inr {| est_requestId := create_requestId response;
           est_status := "pending";
           est_hospital := None;
           est_driver := None;
           est_createdAt := now;
           est_acceptedAt := now |}
  /\ forall other,
       other <> userId requestData ->
       getEmergencyRequestStatus hospitals_phone migration_001
         (create_requestId response) other db'
       = inl {| statusCode := 404; message := "Emergency request not found" |}.
Proof.
  cbn. intros H Hrefs. injection H as <- <-. cbn.
  set (id := fresh (map er_id (emergency_requests db))).
  assert (Hfresh : ~ In id (map er_id (emergency_requests db)))
    by apply fresh_is_new.
  assert (Hold : forall user,
             filter (fun er => N.eqb (er_id er) id && N.eqb (er_user_id er) user)
               (emergency_requests db) = []).
  { intros user.
    destruct (filter _ (emergency_requests db)) as [|er rest] eqn:E;
      [reflexivity|].
    apply filter_head_in in E as [Her Hp]. apply andb_prop in Hp as [Hid _].
    apply N.eqb_eq in Hid. exfalso. apply Hfresh. rewrite <- Hid.
    apply in_map. exact Her. }
  assert (Hnone : filter (fun ea => N.eqb id (ea_emergency_id ea))
                    (emergency_assignments db) = []).
  { destruct (filter _ (emergency_assignments db)) as [|ea rest] eqn:E;
      [reflexivity|].
    apply filter_head_in in E as [Hea Hid]. apply N.eqb_eq in Hid.
    exfalso. apply Hfresh. rewrite Hid. apply Hrefs. exact Hea. }
  unfold getEmergencyRequestStatus, reading, getEmergencyRequestStatus_body.
  cbn [run].
  split.
  - change (accepts migration_001 (statusQuery id (userId requestData)))
      with true.
    cbn iota. cbn [sql_run statusQuery select emergency_requests with_requests].
    rewrite filter_app, Hold. cbn [filter app new_request er_id er_user_id].
    rewrite !N.eqb_refl. cbn [andb flat_map].
    unfold request_hospital, request_assignment.
    cbn [er_hospital_id er_id emergency_assignments with_requests hospitals].
    change (er_id (new_request id requestData now)) with id.
    change (er_hospital_id (new_request id requestData now)) with (@None uuid).
    rewrite Hnone.
    replace (filter (fun _ : hospitals_row => false) (hospitals db))
      with (@nil hospitals_row).
    + reflexivity.
    + induction (hospitals db) as [|h l IH]; [reflexivity|exact IH].
  - intros other Hother.
    change (accepts migration_001 (statusQuery id other)) with true.
    cbn iota. cbn [sql_run statusQuery select emergency_requests with_requests].
    rewrite filter_app, Hold. cbn [filter app new_request er_id er_user_id].
    replace (N.eqb (userId requestData) other) with false.
    + rewrite andb_false_r. reflexivity.
    + symmetry. apply N.eqb_neq. congruence.
Qed.

End HospitalColumns.

(** The first request of [Example.registered], asked for by its requester
    and by others. *)
Lemma created_request_status_witness :
  getEmergencyRequestStatus Registry.phone migration_001 1%N 1%N Example.pending
  = inr {| est_requestId := 1%N;
           est_status := "pending";
           est_hospital := None;
           est_driver := None;
           est_createdAt := 1;
           est_acceptedAt := 1 |}
  /\ forall other,
       other <> 1%N ->
       getEmergencyRequestStatus Registry.phone migration_001 1%N other
         Example.pending
       = inl {| statusCode := 404; message := "Emergency request not found" |}.
Proof.
  apply (created_request_status Registry.phone 1 Example.requestData
           Example.registered Example.pending
           {| create_message := "Emergency request created successfully";
              create_requestId := 1%N;
              create_status := "pending";
              create_createdAt := 1 |}).
  - reflexivity.
  - intros ea [].
Defined.

(** ** findNearbyHospitals: which candidates are returned *)

Lemma leb_trans (a b c : Js.number) :
  Js.leb a b = true -> Js.leb b c = true -> Js.leb a c = true.
Proof.
  destruct a as [| |p|], b as [| |q|], c as [| |r|]; cbn; try congruence.
  intros H1 H2. apply Qle_bool_iff in H1, H2. apply Qle_bool_iff.
  eapply Qle_trans; eassumption.
Qed.

Lemma firstn_before_skipn {A} (R : A -> A -> Prop) (n : nat) (l : list A)
  (x y : A) :
  StronglySorted R l -> In x (firstn n l) -> In y (skipn n l) -> R x y.
Proof.
  revert l. induction n as [|n IH]; intros [|z l] S; cbn; try contradiction.
  apply StronglySorted_inv in S as [S F]. intros [<-|Hx] Hy.
  - rewrite Forall_forall in F. apply F. eapply in_skipn; exact Hy.
  - eapply IH; eassumption.
Qed.

Lemma in_firstn_or_skipn {A} (n : nat) (l : list A) (x : A) :
  In x l -> In x (firstn n l) \/ In x (skipn n l).
Proof.
  intros H. rewrite <- (firstn_skipn n l) in H. apply in_app_or. exact H.
Qed.

Lemma sort_insert_length {A} (comparefn : A -> A -> Js.sign) (x : A) (l : list A) :
  List.length (Js.sort_insert comparefn x l) = S (List.length l).
Proof.
  induction l as [|y l IH]; cbn; [reflexivity|].
  destruct (comparefn x y); cbn; try reflexivity. rewrite IH. reflexivity.
Qed.

Lemma sort_length {A} (comparefn : A -> A -> Js.sign) (l : list A) :
  List.length (Js.sort comparefn l) = List.length l.
Proof.
  unfold Js.sort. induction l as [|x l IH]; cbn [fold_right]; [reflexivity|].
  rewrite sort_insert_length, IH. reflexivity.
Qed.

Section Nearest.

Variable calculateDistance : Q -> Q -> Q -> Q -> Js.number.

(** X24.  For a limit that is not negative [findNearbyHospitals] returns
    the nearest candidates: an active hospital with coordinates that
    lies within the maximal distance is returned, or else the list is
    full, with [limit] members, and each of them is at most as far from
    the pickup point as that hospital. *)
Theorem findNearbyHospitals_nearest
  (latitude longitude : Q) (maxDistance : Js.number) (limit : Z) (db : DB) :
  0 <= limit ->
  exists nearbyHospitals,
    findNearbyHospitals calculateDistance migration_001
      latitude longitude maxDistance limit db = inr nearbyHospitals
    /\ forall h la lo,
         In h (hospitals db) -> h_is_active h = true ->
         h_latitude h = Some la -> h_longitude h = Some lo ->
         Js.leb (calculateDistance latitude longitude la lo) maxDistance = true ->
         In (h_id h) (map nh_id nearbyHospitals)
         \/ (Z.of_nat (List.length nearbyHospitals) = limit
             /\ forall n, In n nearbyHospitals ->
                  Js.leb (nh_distance n)
                    (calculateDistance latitude longitude la lo) = true).
Proof.
  intros Hlimit. unfold findNearbyHospitals, findNearbyHospitals_body.
  cbn [run]. rewrite accepts_nearbyQuery.
  cbn [sql_run nearbyQuery select]. cbn [run].
  eexists. split; [reflexivity|].
  intros h la lo Hh Hact Hla Hlo Hin.
  unfold nearby. fold by_distance.
  set (rows := flat_map _ (hospitals db)).
  set (inside := filter _ (map (to_nearby calculateDistance latitude longitude) rows)).
  set (row := {| hr_id := h_id h; hr_name := h_name h;
                 hr_user_id := h_user_id h; hr_address := h_address h;
                 hr_latitude := la; hr_longitude := lo;
                 hr_max_capacity := h_emergency_capacity h;
                 hr_current_requests := current_requests db (h_id h) |}).
  assert (Hrow : In row rows).
  { unfold rows. apply in_flat_map. exists h. split; [exact Hh|].
    rewrite Hact, Hla, Hlo. left. reflexivity. }
  assert (Hcand : In (to_nearby calculateDistance latitude longitude row)
                    (Js.sort by_distance inside)).
  { apply in_sort. unfold inside. apply filter_In. split.
    - apply in_map. exact Hrow.
    - exact Hin. }
  assert (Hsorted : StronglySorted closer (Js.sort by_distance inside)).
  { apply Sorted_StronglySorted.
    - intros a b c. unfold closer. apply leb_trans.
    - apply sort_sorted. intros n Hn. unfold inside in Hn.
      apply filter_In in Hn as [_ Hle]. eapply leb_not_NaN; exact Hle. }
  unfold Js.slice0.
  replace (limit <? 0) with false by (symmetry; apply Z.ltb_ge; exact Hlimit).
  set (k := Z.to_nat (Z.min limit (Z.of_nat (List.length (Js.sort by_distance inside))))).
  destruct (in_firstn_or_skipn k _ _ Hcand) as [Hfirst|Hrest].
  - left. apply in_map_iff. eexists. split; [|exact Hfirst]. reflexivity.
  - right. split.
    + rewrite length_firstn.
      assert (Hk : (k < List.length (Js.sort by_distance inside))%nat).
      { destruct (Nat.lt_ge_cases k (List.length (Js.sort by_distance inside)))
          as [Hlt|Hge]; [exact Hlt|].
        rewrite skipn_all2 in Hrest by exact Hge. destruct Hrest. }
      unfold k in *. lia.
    + intros n Hn.
      apply (firstn_before_skipn closer k _ n _ Hsorted Hn Hrest).
Qed.

Lemma candidates_length (latitude longitude : Q) (maxDistance : Js.number)
  (db : DB) :
  List.length
    (filter (fun h => Js.leb (nh_distance h) maxDistance)
       (map (to_nearby calculateDistance latitude longitude)
          (fst (sql_run nearbyQuery db))))
  = List.length
      (filter (in_range calculateDistance latitude longitude maxDistance)
         (hospitals db)).
Proof.
  cbn. induction (hospitals db) as [|h l IH]; [reflexivity|].
  cbn [flat_map filter]. unfold in_range at 1.
  destruct (h_is_active h), (h_latitude h) as [la|], (h_longitude h) as [lo|];
    cbn [app map filter]; try exact IH.
  cbn [to_nearby nh_distance hr_latitude hr_longitude].
  destruct (Js.leb _ maxDistance); cbn [List.length]; rewrite IH; reflexivity.
Qed.

(** X25.  For a negative limit [findNearbyHospitals] returns as well: it
    drops that many candidates from the far end, so that of [n] active
    hospitals with coordinates within the maximal distance it returns
    [n + limit], or none when that is negative. *)
Theorem findNearbyHospitals_negative_limit
  (latitude longitude : Q) (maxDistance : Js.number) (limit : Z) (db : DB) :
  limit < 0 ->
  exists nearbyHospitals,
    findNearbyHospitals calculateDistance migration_001
      latitude longitude maxDistance limit db = inr nearbyHospitals
    /\ Z.of_nat (List.length nearbyHospitals)
       = Z.max 0
           (Z.of_nat
              (List.length
                 (filter
                    (in_range calculateDistance latitude longitude maxDistance)
                    (hospitals db)))
            + limit).
Proof.
  intros Hlimit. unfold findNearbyHospitals, findNearbyHospitals_body.
  cbn [run]. rewrite accepts_nearbyQuery.
  destruct (sql_run nearbyQuery db) as [rows db1] eqn:E. cbn [run].
  eexists. split; [reflexivity|].
  rewrite <- (candidates_length latitude longitude maxDistance db).
  rewrite E. cbn [fst].
  unfold nearby, Js.slice0.
  replace (limit <? 0) with true by (symmetry; apply Z.ltb_lt; exact Hlimit).
  rewrite length_firstn, sort_length. lia.
Qed.

End Nearest.

(** Two hospitals at the pickup point and room for one. *)
Lemma findNearbyHospitals_nearest_witness :
  exists nearbyHospitals,
    findNearbyHospitals Example.distance_at_pickup migration_001
      (0 # 1) (0 # 1) (Js.Fin (50 # 1)) 1 Example.two_hospitals
    = inr nearbyHospitals
    /\ forall h la lo,
         In h (hospitals Example.two_hospitals) -> h_is_active h = true ->
         h_latitude h = Some la -> h_longitude h = Some lo ->
         Js.leb (Example.distance_at_pickup (0 # 1) (0 # 1) la lo)
           (Js.Fin (50 # 1)) = true ->
         In (h_id h) (map nh_id nearbyHospitals)
         \/ (Z.of_nat (List.length nearbyHospitals) = 1
             /\ forall n, In n nearbyHospitals ->
                  Js.leb (nh_distance n)
                    (Example.distance_at_pickup (0 # 1) (0 # 1) la lo) = true).
Proof.
  apply (findNearbyHospitals_nearest Example.distance_at_pickup
           (0 # 1) (0 # 1) (Js.Fin (50 # 1)) 1 Example.two_hospitals).
  lia.
Defined.

(** Two hospitals at the pickup point and the limit -1. *)
Lemma findNearbyHospitals_negative_limit_witness :
  exists nearbyHospitals,
    findNearbyHospitals Example.distance_at_pickup migration_001
      (0 # 1) (0 # 1) (Js.Fin (50 # 1)) (-1) Example.two_hospitals
    = inr nearbyHospitals
    /\ Z.of_nat (List.length nearbyHospitals)
       = Z.max 0
           (Z.of_nat
              (List.length
                 (filter
                    (in_range Example.distance_at_pickup (0 # 1) (0 # 1)
                       (Js.Fin (50 # 1)))
                    (hospitals Example.two_hospitals)))
            + -1).
Proof.
  apply (findNearbyHospitals_negative_limit Example.distance_at_pickup
           (0 # 1) (0 # 1) (Js.Fin (50 # 1)) (-1) Example.two_hospitals).
  lia.
Defined.

(** ** The handlers of the requester *)

Lemma or_default_not_zero (parsed : option Z) (fallback : Z) :
  fallback <> 0 -> or_default parsed fallback <> 0.
Proof.
  intros H. unfold or_default. destruct parsed as [n|]; [|exact H].
  destruct (Z.eqb_spec n 0); assumption.
Qed.

Section Controller.

Variable hospitals_phone : uuid -> string.
Variable calculateDistance : Q -> Q -> Q -> Q -> Js.number.
Variable toFixed : Js.number -> nat -> string.

(** X26.  The handler [getNearbyHospitals] answers 404 when the
    authenticated user owns no request with the key.  Otherwise it
    answers 200 with what [findNearbyHospitals] returns for the pickup
    point of the request, for the maximal distance of the query or 50
    and the limit of the query or 10, where a missing, unreadable or
    zero value counts as absent. *)
Theorem getNearbyHospitals_of_own_request
  (userId requestId : uuid) (maxDistance limit : option Z) (db : DB) :
  let reply :=
    getNearbyHospitals hospitals_phone calculateDistance toFixed migration_001
      userId requestId maxDistance limit db in
  match
    filter (fun er => N.eqb (er_id er) requestId && N.eqb (er_user_id er) userId)
      (emergency_requests db)
  with
  | [] => reply = Failure 404 (Some "Emergency request not found")
  | _ :: _ =>
      exists er rest nearbyHospitals,
        filter (fun er => N.eqb (er_id er) requestId) (emergency_requests db)
        = er :: rest
        /\ findNearbyHospitals calculateDistance migration_001
             (er_pickup_latitude er) (er_pickup_longitude er)
             (Js.Fin (inject_Z (or_default maxDistance 50)))
             (or_default limit 10) db
           = inr nearbyHospitals
        /\ reply
           = Success 200
               {| nearby_totalHospitals :=
                    Z.of_nat (List.length nearbyHospitals);
                  nearby_hospitals := map (to_listed toFixed) nearbyHospitals |}
  end.
Proof.
  unfold getNearbyHospitals, getEmergencyRequestStatus, reading,
    getEmergencyRequestStatus_body.
  cbn [run].
  change (accepts migration_001 (statusQuery requestId userId)) with true.
  cbn iota. cbn [sql_run statusQuery select].
  destruct (filter _ (emergency_requests db)) as [|own others] eqn:E;
    [reflexivity|].
  apply filter_head_in in E as [Hown Hp]. apply andb_prop in Hp as [Hid _].
  cbn [flat_map].
  destruct (request_hospital_not_empty db own) as [h [hs Eh]].
  destruct (request_assignment db own) as [|j js] eqn:Ej.
  { destruct (request_assignment_not_empty db own) as [j Hj].
    rewrite Ej in Hj. destruct Hj. }
  rewrite Eh. cbn [flat_map map app run].
  unfold getEmergencyLocationById, getEmergencyLocationById_body. cbn [run].
  change (accepts migration_001 (locationQuery requestId)) with true.
  cbn iota. cbn [sql_run locationQuery select].
  destruct (filter (fun er => N.eqb (er_id er) requestId) (emergency_requests db))
    as [|er rest] eqn:Er.
  { exfalso. assert (Hin : In own []).
    { rewrite <- Er. apply filter_In. auto. }
    destruct Hin. }
  cbn [map run]. cbn [loc_pickupLatitude loc_pickupLongitude].
  exists er, rest.
  unfold findNearbyHospitals, findNearbyHospitals_body. cbn [run].
  rewrite accepts_nearbyQuery.
  destruct (sql_run nearbyQuery db) as [rows db1]. cbn [run].
  eexists. split; [reflexivity|]. split; reflexivity.
Qed.

End Controller.

(** A [LIMIT] or [OFFSET] that is negative, or too large for a [bigint],
    makes [getUserEmergencyHistory] throw. *)
Lemma getUserEmergencyHistory_refused (userId : uuid) (page limit : Z) (db : DB) :
  limit < 0 \/ (page - 1) * limit < 0 \/ 2 ^ 63 <= limit ->
  getUserEmergencyHistory migration_001 userId page limit db
  = inl {| statusCode := 500;
           message := "Failed to get emergency request history" |}.
Proof.
  intros H.
  unfold getUserEmergencyHistory, getUserEmergencyHistory_body, await_page.
  cbn [run].
  change (accepts migration_001 (requestCountQuery userId)) with true.
  cbn iota. cbn [sql_run requestCountQuery select].
  replace ((limit <? 0) || ((page - 1) * limit <? 0) || (2 ^ 63 <=? limit)
           || (2 ^ 63 <=? (page - 1) * limit))
    with true; [reflexivity|].
  symmetry. rewrite !orb_true_iff.
  destruct H as [H|[H|H]].
  - left. left. left. apply Z.ltb_lt. exact H.
  - left. left. right. apply Z.ltb_lt. exact H.
  - left. right. apply Z.leb_le. exact H.
Qed.

(** X27.  The handler [getEmergencyHistory] does not validate the page
    and the limit of the query.  With the defaults 1 and 10 in place of a
    missing, unreadable or zero value, it answers 500 whenever the page
    or the limit is negative and whenever the limit is [2^63] or more.
    It answers 200, with that page and limit and at most [limit]
    entries, when both are positive and their product is at most [2^53];
    nothing is said of the positive values beyond that. *)
Theorem getEmergencyHistory_unvalidated
  (userId : uuid) (page limit : option Z) (db : DB) :
  let reply := getEmergencyHistory migration_001 userId page limit db in
  let page' := or_default page 1 in
  let limit' := or_default limit 10 in
  (page' < 0 \/ limit' < 0 \/ 2 ^ 63 <= limit' ->
   reply = Failure 500 (Some "Failed to get emergency request history"))
  /\ (exact_page page' limit' ->
      exists response,
        reply = Success 200 response
        /\ requests_page response = page'
        /\ requests_limit response = limit'
        /\ Z.of_nat (List.length (requests_list response)) <= limit').
Proof.
  cbn zeta. unfold getEmergencyHistory. split.
  - intros H.
    rewrite getUserEmergencyHistory_refused; [reflexivity|].
    pose proof (or_default_not_zero limit 10) as Hl.
    destruct H as [H|[H|H]]; [|left; exact H|right; right; exact H].
    destruct (Z.lt_ge_cases (or_default limit 10) 0) as [Hneg|Hpos];
      [left; exact Hneg|right; left]. nia.
  - intros Hpage.
    unfold getUserEmergencyHistory, getUserEmergencyHistory_body. cbn [run].
    change (accepts migration_001 (requestCountQuery userId)) with true.
    cbn iota. cbn [sql_run requestCountQuery select].
    rewrite (await_page_exact _ _) by exact Hpage.
    cbn [run].
    change (accepts migration_001
              (requestHistoryQuery userId (or_default limit 10)
                 ((or_default page 1 - 1) * or_default limit 10)))
      with true.
    cbn iota. cbn [sql_run requestHistoryQuery select run].
    eexists. split; [reflexivity|]. cbn.
    split; [reflexivity|]. split; [reflexivity|].
    rewrite length_map. apply limit_offset_length.
    destruct Hpage as [_ [Hl _]]. lia.
Qed.
